(** * Digital Twin scheduler: job parsing, placement policies and the plan operation

    A shallow embedding of
      - [dt/jobs.py]              ([_require], [parse_job_spec]),
      - [dt/policy/resilient.py]  ([ResilientPolicy]),
      - [dt/policy/cvar.py]       ([RiskAwareCvarPolicy]),
      - [dt/api.py]               (the [/plan] handler),
    and of the properties the specification states about them.

    Conventions of the embedding.
      - Python floats are rationals ([Q]); [-inf] and [+inf], used as
        initial best scores, are an [option] with [None].  The resilient
        policy chooses between scores that may differ by a rounding only,
        so its arithmetic is that of binary64: every operation is followed
        by the rounding [rnd] of the class [Float64], of which the
        theorems use only that it is monotone, keeps 0 and 1, and adds the
        default weights to 1.  Overflow and NaN are outside the model.
        The sums and products of the CVaR policy, of the selector and of
        the chaos runner are exact.
      - Python exceptions are an error monad ([result]); the exception
        classes that the embedded code can raise are the constructors of
        [exn].
      - A decoded JSON document (what [request.get_json] returns) is the
        inductive type [json]; JSON objects keep their key order.
      - Python dictionaries keyed by stage id are finite maps
        ([gmap string _]).
      - The generator behind [np.random.lognormal] is process-global state:
        it is a fixed sequence of draws together with a cursor that every
        draw advances. *)

From Stdlib Require Import QArith Qround Qabs Qminmax Lqa ZArith String Ascii List Bool Lia.
From Stdlib Require Import DecimalString Sorted Permutation.
From stdpp Require Import base option gmap strings list fin_maps.
Import ListNotations.

Open Scope string_scope.
Open Scope Z_scope.

(* ===================================================================== *)
(** ** Exceptions *)
(* ===================================================================== *)

(** The exception classes raised by the embedded code.  [JobSpecError] is
    the one class declared in [dt/jobs.py]; [NoFeasibleFormat] is the
    failure of the simulator's [choose_exec_format]; the others are
    built-in. *)
Inductive exn : Type :=
  | JobSpecError (msg : string)
  | TypeError
  | ValueError
  | AttributeError
  | KeyError
  | ZeroDivisionError
  | RuntimeError (msg : string)
  | NoFeasibleFormat.

Inductive result (A : Type) : Type :=
  | Ok (a : A)
  | Raise (e : exn).
Arguments Ok {A} a.
Arguments Raise {A} e.

Definition bind {A B : Type} (m : result A) (k : A -> result B) : result B :=
  match m with
  | Ok a => k a
  | Raise e => Raise e
  end.

Notation "'do' x <~ m ; k" := (bind m (fun x => k))
  (at level 20, x name, m at level 100, k at level 200, only parsing).

(* ===================================================================== *)
(** ** Decoded JSON values and the Python built-ins applied to them *)
(* ===================================================================== *)

#[warnings="-register-all"]
Inductive json : Type :=
  | JNull
  | JBool (b : bool)
  | JInt (z : Z)
  | JFloat (q : Q)
  | JStr (s : string)
  | JArr (l : list json)
  | JObj (kv : list (string * json)).

(** [bool(x)]. *)
Definition truthy (j : json) : bool :=
  match j with
  | JNull => false
  | JBool b => b
  | JInt z => negb (z =? 0)
  | JFloat q => negb (Qeq_bool q 0)
  | JStr s => negb (String.eqb s "")
  | JArr l => match l with [] => false | _ :: _ => true end
  | JObj kv => match kv with [] => false | _ :: _ => true end
  end.

(** [x or d]. *)
Definition py_or (x d : json) : json := if truthy x then x else d.

Fixpoint assoc (k : string) (kv : list (string * json)) : option json :=
  match kv with
  | [] => None
  | (k', v) :: rest => if String.eqb k k' then Some v else assoc k rest
  end.

(** [d.get(k, default)]; only a [dict] has the method. *)
Definition py_get (d : json) (k : string) (default : json) : result json :=
  match d with
  | JObj kv => Ok (match assoc k kv with Some v => v | None => default end)
  | _ => Raise AttributeError
  end.

Definition is_JStr (k : string) (j : json) : bool :=
  match j with
  | JStr s => String.eqb s k
  | _ => false
  end.

Definition is_substring (k s : string) : bool :=
  match String.index 0 k s with
  | Some _ => true
  | None => false
  end.

(** [k in payload]: key membership for a dict, substring test for a str,
    element test for a list, [TypeError] for the other values. *)
Definition py_contains (payload : json) (k : string) : result bool :=
  match payload with
  | JObj kv => Ok (match assoc k kv with Some _ => true | None => false end)
  | JStr s => Ok (is_substring k s)
  | JArr l => Ok (existsb (is_JStr k) l)
  | _ => Raise TypeError
  end.

(** [payload[k]] with a string subscript. *)
Definition py_getitem (payload : json) (k : string) : result json :=
  match payload with
  | JObj kv => match assoc k kv with Some v => Ok v | None => Raise KeyError end
  | _ => Raise TypeError
  end.

(** [list(x)]. *)
Definition py_list (x : json) : result (list json) :=
  match x with
  | JArr l => Ok l
  | JStr s => Ok (List.map (fun c => JStr (String c EmptyString)) (list_ascii_of_string s))
  | JObj kv => Ok (List.map (fun p => JStr (fst p)) kv)
  | _ => Raise TypeError
  end.

(** *** [int(x)] *)

(** Truncation toward zero, [int(x)] on a float. *)
Definition Qtrunc (q : Q) : Z :=
  if Qle_bool 0 q then Qfloor q else Qceiling q.

(** *** [str(x)] *)

Definition str_of_Z (z : Z) : string :=
  match z with
  | Z0 => "0"
  | Zpos p => NilZero.string_of_uint (Pos.to_uint p)
  | Zneg p => "-" ++ NilZero.string_of_uint (Pos.to_uint p)
  end.

(* ===================================================================== *)
(** ** Jobs ([dt/state.py]) *)
(* ===================================================================== *)

(** Modelled from the spec: the dataclasses [StageCompute],
    [StageConstraints], [JobStage], [JobOrigin] and [Job] are declared in
    [dt/state.py]; their fields are those that [parse_job_spec] fills.
    Fields that [parse_job_spec] stores without conversion hold the decoded
    JSON value ([JNull] for [None]).  [js_], [origin_] and [job_] prefix the
    field names that several classes share. *)
Record StageCompute : Type := {
  cpu : Z;
  mem_gb : Z;
  duration_ms : Z;
  gpu_vram_gb : Z;
  workload_type : string
}.

Record StageConstraints : Type := {
  arch : list json;
  formats : list json;
  data_locality : json;
  max_latency_to_predecessor_ms : json
}.

Record JobStage : Type := {
  js_id : string;
  js_compute : StageCompute;
  js_constraints : StageConstraints;
  js_predecessor : json
}.

Record JobOrigin : Type := {
  origin_cluster : string;
  origin_node : json
}.

Record Job : Type := {
  job_name : string;
  job_deadline_ms : Z;
  job_stages : list JobStage;
  job_origin : option JobOrigin
}.

(* ===================================================================== *)
(** ** [dt/jobs.py] *)
(* ===================================================================== *)

Section Parsing.

(** [str(x)] of a float, a list or a dict is Python's [repr] of it; its
    text is a parameter of the parser. *)
Variable str_compound : json -> string.

(** [int(s)] of a string is the interpreter's: which characters it takes
    as blanks and as digits depends on its Unicode tables.  [int_str s] is
    the integer it returns, [None] when it raises [ValueError]. *)
Variable int_str : string -> option Z.

Definition py_int (x : json) : result Z :=
  match x with
  | JInt z => Ok z
  | JBool b => Ok (if b then 1 else 0)
  | JFloat q => Ok (Qtrunc q)
  | JStr s => match int_str s with Some z => Ok z | None => Raise ValueError end
  | _ => Raise TypeError
  end.

Definition py_str (x : json) : string :=
  match x with
  | JStr s => s
  | JInt z => str_of_Z z
  | JBool b => if b then "True" else "False"
  | JNull => "None"
  | _ => str_compound x
  end.

Definition is_None_or_empty_str (v : json) : bool :=
  match v with
  | JNull => true
  | JStr s => String.eqb s ""
  | _ => false
  end.

(** [_require(key, payload)]. *)
Definition _require (key : string) (payload : json) : result json :=
  do present <~ py_contains payload key;
  if negb present then Raise (JobSpecError ("missing required field: " ++ key))
  else
    do v <~ py_getitem payload key;
    if is_None_or_empty_str v
    then Raise (JobSpecError ("missing required field: " ++ key))
    else Ok v.

(** The body of the [for stage_spec in stages_spec] loop. *)
Definition parse_stage (stage_spec : json) : result JobStage :=
  do id_raw <~ _require "id" stage_spec;
  let stage_id := py_str id_raw in
  do compute_raw <~ py_get stage_spec "compute" JNull;
  let compute_spec := py_or compute_raw (JObj []) in
  do constraints_raw <~ py_get stage_spec "constraints" JNull;
  let constraints_spec := py_or constraints_raw (JObj []) in
  do cpu_raw <~ py_get compute_spec "cpu" (JInt 0);
  do cpu_v <~ py_int cpu_raw;
  do mem_raw <~ py_get compute_spec "mem_gb" (JInt 0);
  do mem_v <~ py_int mem_raw;
  do dur_raw <~ py_get compute_spec "duration_ms" (JInt 0);
  do dur_v <~ py_int dur_raw;
  do gpu_raw <~ py_get compute_spec "gpu_vram_gb" (JInt 0);
  do gpu_v <~ py_int gpu_raw;
  do wt_raw <~ py_get compute_spec "workload_type" (JStr "cpu_bound");
  do arch_raw <~ py_get constraints_spec "arch" (JArr [JStr "amd64"]);
  do arch_v <~ py_list arch_raw;
  do formats_raw <~ py_get constraints_spec "formats" (JArr [JStr "native"]);
  do formats_v <~ py_list formats_raw;
  do locality <~ py_get constraints_spec "data_locality" JNull;
  do max_lat <~ py_get constraints_spec "max_latency_to_predecessor_ms" JNull;
  do pred <~ py_get stage_spec "predecessor" JNull;
  Ok {| js_id := stage_id;
        js_compute := {| cpu := cpu_v; mem_gb := mem_v; duration_ms := dur_v;
                         gpu_vram_gb := gpu_v; workload_type := py_str wt_raw |};
        js_constraints := {| arch := arch_v; formats := formats_v;
                             data_locality := locality;
                             max_latency_to_predecessor_ms := max_lat |};
        js_predecessor := pred |}.

(** The [for stage_spec in stages_spec] loop: stages are appended in order,
    the first exception ends the loop. *)
Fixpoint parse_stages (stages_spec : list json) : result (list JobStage) :=
  match stages_spec with
  | [] => Ok []
  | stage_spec :: rest =>
      do stage <~ parse_stage stage_spec;
      do stages <~ parse_stages rest;
      Ok (stage :: stages)
  end.

Definition parse_origin (metadata : json) : result (option JobOrigin) :=
  do origin_raw <~ py_get metadata "origin" JNull;
  let origin_data := py_or origin_raw (JObj []) in
  if truthy origin_data then
    do cluster_raw <~ py_get origin_data "cluster" (JStr "dc-core");
    do node_raw <~ py_get origin_data "node" JNull;
    Ok (Some {| origin_cluster := py_str cluster_raw; origin_node := node_raw |})
  else Ok None.

Definition is_dict (j : json) : bool :=
  match j with
  | JObj _ => true
  | _ => false
  end.

Definition parse_job_spec (job_spec : json) : result Job :=
  if negb (is_dict job_spec) then Raise (JobSpecError "job spec must be an object")
  else
    do metadata_raw <~ py_get job_spec "metadata" JNull;
    let metadata := py_or metadata_raw (JObj []) in
    do spec_raw <~ py_get job_spec "spec" JNull;
    let spec := py_or spec_raw (JObj []) in
    do stages_raw <~ py_get spec "stages" JNull;
    do stages_spec <~ py_list (py_or stages_raw (JArr []));
    match stages_spec with
    | [] => Raise (JobSpecError "job spec must include at least one stage")
    | _ :: _ =>
        do name_raw <~ _require "name" metadata;
        do deadline_raw <~ py_get metadata "deadline_ms" (JInt 60000);
        do deadline <~ py_int deadline_raw;
        do origin <~ parse_origin metadata;
        do stages <~ parse_stages stages_spec;
        Ok {| job_name := py_str name_raw; job_deadline_ms := deadline;
              job_stages := stages; job_origin := origin |}
    end.

End Parsing.

(* ===================================================================== *)
(** ** Cluster state and collaborators ([dt/state.py], [dt/predict.py],
       [dt/cluster_manager.py], [dt/failures/resiliency_scorer.py]) *)
(* ===================================================================== *)

Open Scope Q_scope.

(** Modelled from the spec: [Node] and its parts are declared in
    [dt/state.py]; the fields are those of the specification's data model
    that the policies read.  [tel] is optional, as the policies test it. *)
Record Hardware : Type := {
  hw_cpu : Q;
  hw_memory_gb : Q;
  hw_gpu_vram_gb : Q;
  hw_arch : string
}.

Record K8s : Type := {
  allocatable_cpu : Q;
  allocatable_mem_gb : Q
}.

Record Telemetry : Type := {
  cpu_util : Q;
  mem_util : Q
}.

Record Node : Type := {
  name : string;
  hardware : Hardware;
  k8s : K8s;
  tel : option Telemetry;
  available : bool
}.

Record PlacementDecision : Type := {
  stage_id : string;
  node_name : string;
  exec_format : string
}.

Record PlanMetrics : Type := {
  latency_ms : Q;
  energy_kwh : Q;
  risk_score : Q;
  sla_violations : Z
}.

(** Modelled from the spec: the state store [DTState] is declared in
    [dt/state.py]; the policies use the three read operations below, which
    are its interface here. *)
Record DTState : Type := {
  list_nodes : list Node;
  get_node : string -> option Node;
  get_cluster : string -> option string
}.

(** Modelled from the spec: [ClusterManager] is declared in
    [dt/cluster_manager.py]; [get_latency_between(cluster_a, cluster_b,
    node_a, node_b)] never fails. *)
Record ClusterManager : Type := {
  get_latency_between : string -> string -> json -> string -> Q
}.

(** Modelled from the spec: [PredictiveSimulator] is declared in
    [dt/predict.py].  [choose_exec_format] fails, with [NoFeasibleFormat],
    when no allowed format is viable; the three other operations are
    deterministic and do not fail. *)
Record PredictiveSimulator : Type := {
  choose_exec_format : JobStage -> Node -> result string;
  compute_stage_latency_ms : JobStage -> Node -> string -> Q;
  compute_network_delay_ms : Node -> Node -> Q;
  score_plan : Job -> gmap string PlacementDecision -> PlanMetrics
}.

(** Modelled from the spec: [ResiliencyScorer] is declared in
    [dt/failures/resiliency_scorer.py]. *)
Record ResiliencyScorer : Type := {
  compute_node_score : string -> Q
}.

(** Comparisons of Python numbers as booleans. *)
Definition Qlt_bool (x y : Q) : bool := negb (Qle_bool y x).

(** The arithmetic of Python's floats: the result of an operation is the
    rounding [rnd] of the exact result, and a literal is the rounding of
    the number it writes.  Rounding to nearest is monotone and keeps 0
    and 1, which are binary64 numbers; and in binary64
    [0.3 + 0.5 + 0.2 == 1.0]. *)
Class Float64 : Type := {
  rnd : Q -> Q;
  rnd_le : forall x y : Q, x <= y -> rnd x <= rnd y;
  rnd_0 : rnd 0 == 0;
  rnd_1 : rnd 1 == 1;
  rnd_default_weights :
    rnd (rnd (rnd (3 # 10) + rnd (5 # 10)) + rnd (2 # 10)) == 1
}.

(** [math.isclose(a, b)] with its default tolerances
    ([rel_tol = 1e-09], [abs_tol = 0.0]), as the interpreter computes it:
    equal numbers are close; otherwise the difference is compared with
    the relative tolerance of either number and with the absolute one. *)
Definition isclose {fl : Float64} (a b : Q) : bool :=
  if Qeq_bool a b then true
  else
    let diff := Qabs (rnd (b - a)) in
    (Qle_bool diff (Qabs (rnd (rnd (1 # 1000000000) * b)))
     || Qle_bool diff (Qabs (rnd (rnd (1 # 1000000000) * a)))
     || Qle_bool diff 0)%bool.

(** [stage.predecessor and stage.predecessor in prev_node_for], followed by
    [prev_node_for[stage.predecessor]]: the keys of the dictionary are
    strings, so a number never equals one; a non-empty list or dict is not
    hashable. *)
Definition predecessor_node (pred : json) (prev_node_for : gmap string Node)
  : result (option Node) :=
  if truthy pred then
    match pred with
    | JStr s => Ok (prev_node_for !! s)
    | JArr _ | JObj _ => Raise TypeError
    | _ => Ok None
    end
  else Ok None.

(* ===================================================================== *)
(** ** [dt/policy/resilient.py] *)
(* ===================================================================== *)

Module ResilientPolicy.

Record t : Type := {
  state : DTState;
  sim : PredictiveSimulator;
  cluster_manager : option ClusterManager;
  capacity_weight : Q;
  resiliency_weight : Q;
  utilization_weight : Q;
  resiliency_scorer : ResiliencyScorer
}.

Section Methods.

Context {fl : Float64}.

(** The constructor [ResiliencyScorer(state)]. *)
Variable new_ResiliencyScorer : DTState -> ResiliencyScorer.

(** The three weights after the normalisation step of [__init__]. *)
Definition normalize_weights (cw rw uw : Q) : result (Q * Q * Q) :=
  let total := rnd (rnd (cw + rw) + uw) in
  if negb (isclose total 1) then
    if Qeq_bool total 0 then Raise ZeroDivisionError
    else Ok (rnd (cw / total), rnd (rw / total), rnd (uw / total))
  else Ok (cw, rw, uw).

Definition __init__ (st : DTState) (simulator : PredictiveSimulator)
    (cm : option ClusterManager) (cw rw uw : Q) : result t :=
  do w <~ normalize_weights cw rw uw;
  Ok {| state := st; sim := simulator; cluster_manager := cm;
        capacity_weight := fst (fst w);
        resiliency_weight := snd (fst w);
        utilization_weight := snd w;
        resiliency_scorer := new_ResiliencyScorer st |}.

(** The test of the loop body of [_candidate_nodes]: [true] when the node
    is appended. *)
Definition candidate_ok (stage : JobStage) (node : Node) : bool :=
  if negb (available node) then false
  else if ((0 <? gpu_vram_gb (js_compute stage))%Z
           && Qlt_bool (hw_gpu_vram_gb (hardware node))
                       (inject_Z (gpu_vram_gb (js_compute stage))))%bool then false
  else if Qlt_bool (allocatable_cpu (k8s node)) (inject_Z (cpu (js_compute stage))) then false
  else if Qlt_bool (allocatable_mem_gb (k8s node)) (inject_Z (mem_gb (js_compute stage))) then false
  else true.

Definition _candidate_nodes (self : t) (stage : JobStage) : list Node :=
  List.filter (candidate_ok stage) (list_nodes (state self)).

Definition _compute_origin_latency (self : t) (job : Job) (candidate_node : Node) : Q :=
  match job_origin job, cluster_manager self with
  | Some origin, Some cm =>
      match get_cluster (state self) (name candidate_node) with
      | Some candidate_cluster =>
          if negb (String.eqb candidate_cluster "") then
            get_latency_between cm (origin_cluster origin) candidate_cluster
                                (origin_node origin) (name candidate_node)
          else 0
      | None => 0
      end
  | _, _ => 0
  end.

(** The demands of a stage are integers; dividing one by a float converts
    it first. *)
Definition _score_capacity_fit (stage : JobStage) (node : Node) : Q :=
  if (Qle_bool (allocatable_cpu (k8s node)) 0
      || Qle_bool (allocatable_mem_gb (k8s node)) 0)%bool then 0
  else
    let cpu_fit :=
      rnd (1 - rnd (rnd (inject_Z (cpu (js_compute stage))) / allocatable_cpu (k8s node))) in
    let mem_fit :=
      rnd (1 - rnd (rnd (inject_Z (mem_gb (js_compute stage)))
                    / allocatable_mem_gb (k8s node))) in
    Qmax 0 (Qmin cpu_fit mem_fit).

Definition _utilization_score (node : Node) : Q :=
  let util :=
    match tel node with
    | Some t => rnd (Qmax (cpu_util t) (mem_util t) / 100)
    | None => 0
    end in
  Qmax 0 (rnd (1 - util)).

(** [latency_ms] as the loop body of [place] computes it for one candidate:
    stage latency, then the delay from the predecessor's node, then the
    origin latency. *)
Definition candidate_latency_ms (self : t) (job : Job) (prev_node_for : gmap string Node)
    (stage : JobStage) (node : Node) (fmt : string) : result Q :=
  let latency_ms := compute_stage_latency_ms (sim self) stage node fmt in
  do prev <~ predecessor_node (js_predecessor stage) prev_node_for;
  let latency_ms :=
    match prev with
    | Some p => rnd (latency_ms + compute_network_delay_ms (sim self) p node)
    | None => latency_ms
    end in
  let latency_ms :=
    match job_origin job with
    | Some _ =>
        if negb (truthy (js_predecessor stage))
        then rnd (latency_ms + _compute_origin_latency self job node)
        else latency_ms
    | None => latency_ms
    end in
  Ok latency_ms.

(** [composite] of one candidate. *)
Definition composite (self : t) (stage : JobStage) (node : Node) (latency : Q) : Q :=
  rnd (rnd (rnd (rnd (capacity_weight self * _score_capacity_fit stage node)
                 + rnd (resiliency_weight self
                        * compute_node_score (resiliency_scorer self) (name node)))
            + rnd (utilization_weight self * _utilization_score node))
       - rnd (rnd (1 # 1000) * latency)).

(** The running best of the inner loop: [best_node], [best_score] ([None]
    for [-inf]) and [best_format]. *)
Record best : Type := {
  best_node : option Node;
  best_score : option Q;
  best_format : string
}.

Definition best_init : best :=
  {| best_node := None; best_score := None; best_format := "native" |}.

(** One iteration of [for node in self._candidate_nodes(stage)]. *)
Definition place_step (self : t) (job : Job) (prev_node_for : gmap string Node)
    (stage : JobStage) (b : best) (node : Node) : result best :=
  do fmt <~ choose_exec_format (sim self) stage node;
  do latency <~ candidate_latency_ms self job prev_node_for stage node fmt;
  let c := composite self stage node latency in
  if match best_score b with
     | None => true
     | Some s => Qlt_bool s c
     end
  then Ok {| best_node := Some node; best_score := Some c; best_format := fmt |}
  else Ok b.

Fixpoint place_scan (self : t) (job : Job) (prev_node_for : gmap string Node)
    (stage : JobStage) (b : best) (candidates : list Node) : result best :=
  match candidates with
  | [] => Ok b
  | node :: rest =>
      do b' <~ place_step self job prev_node_for stage b node;
      place_scan self job prev_node_for stage b' rest
  end.

(** [for stage in job.stages]: the two dictionaries that the loop updates,
    as they are when it ends. *)
Fixpoint place_stages (self : t) (job : Job) (stages : list JobStage)
    (placements : gmap string PlacementDecision) (prev_node_for : gmap string Node)
  : result (gmap string PlacementDecision * gmap string Node) :=
  match stages with
  | [] => Ok (placements, prev_node_for)
  | stage :: rest =>
      do b <~ place_scan self job prev_node_for stage best_init (_candidate_nodes self stage);
      match best_node b with
      | None => place_stages self job rest placements prev_node_for
      | Some n =>
          place_stages self job rest
            (<[js_id stage := {| stage_id := js_id stage; node_name := name n;
                                 exec_format := best_format b |}]> placements)
            (<[js_id stage := n]> prev_node_for)
      end
  end.

Definition place (self : t) (job : Job) : result (gmap string PlacementDecision) :=
  do r <~ place_stages self job (job_stages job) ∅ ∅;
  Ok (fst r).

End Methods.

End ResilientPolicy.

(* ===================================================================== *)
(** ** [numpy] functions used by the CVaR policy *)
(* ===================================================================== *)

Fixpoint insert_sorted (x : Q) (l : list Q) : list Q :=
  match l with
  | [] => [x]
  | y :: r => if Qle_bool x y then x :: y :: r else y :: insert_sorted x r
  end.

Fixpoint sort (l : list Q) : list Q :=
  match l with
  | [] => []
  | x :: r => insert_sorted x (sort r)
  end.

Definition Qsum (l : list Q) : Q := fold_right Qplus 0 l.

(** [np.mean]. *)
Definition mean (l : list Q) : Q := Qsum l / inject_Z (Z.of_nat (length l)).

(** [np.quantile(samples, alpha)] with the default linear interpolation:
    in the sorted sample, the value at the virtual index
    [alpha * (n - 1)].  A level outside [[0, 1]] raises [ValueError]; the
    policy never passes an empty sample. *)
Definition quantile (samples : list Q) (alpha : Q) : result Q :=
  if (Qle_bool 0 alpha && Qle_bool alpha 1)%bool then
    match sort samples with
    | [] => Raise ValueError
    | (x :: _) as a =>
        let n := length a in
        let pos := alpha * inject_Z (Z.of_nat (n - 1)) in
        let lo := Z.to_nat (Qfloor pos) in
        let hi := Nat.min (S lo) (n - 1) in
        let gamma := pos - inject_Z (Qfloor pos) in
        Ok (nth lo a x + (nth hi a x - nth lo a x) * gamma)
    end
  else Raise ValueError.

(* ===================================================================== *)
(** ** [dt/policy/cvar.py] *)
(* ===================================================================== *)

Module RiskAwareCvarPolicy.

Record t : Type := {
  state : DTState;
  sim : PredictiveSimulator;
  alpha : Q;
  risk_weight : Q;
  cluster_manager : option ClusterManager;
  resiliency_scorer : ResiliencyScorer
}.

Definition _candidate_nodes (self : t) (stage : JobStage) : list Node :=
  List.filter (fun n => available n) (list_nodes (state self)).

Definition _compute_origin_latency (self : t) (job : Job) (candidate_node : Node) : Q :=
  match job_origin job, cluster_manager self with
  | Some origin, Some cm =>
      match get_cluster (state self) (name candidate_node) with
      | Some candidate_cluster =>
          if negb (String.eqb candidate_cluster "") then
            get_latency_between cm (origin_cluster origin) candidate_cluster
                                (origin_node origin) (name candidate_node)
          else 0
      | None => 0
      end
  | _, _ => 0
  end.

(** [origin_lat] of one iteration of the sampling loop. *)
Definition origin_lat (self : t) (job : Job) (placements : gmap string PlacementDecision) : Q :=
  match job_origin job, job_stages job with
  | Some _, first_stage :: _ =>
      match placements !! js_id first_stage with
      | Some decision =>
          match get_node (state self) (node_name decision) with
          | Some node => _compute_origin_latency self job node
          | None => 0
          end
      | None => 0
      end
  | _, _ => 0
  end.

(** The tail mean computed from the samples once the loop has run. *)
Definition tail_mean (samples : list Q) (a : Q) : result Q :=
  do q <~ quantile samples a;
  let tail := List.filter (fun s => Qle_bool q s) samples in
  match tail with
  | [] => Ok q
  | _ :: _ => Ok (mean tail)
  end.

Section Methods.

(** The constructor [ResiliencyScorer(state)]. *)
Variable new_ResiliencyScorer : DTState -> ResiliencyScorer.

(** The process-global generator: [lognormal mean sigma i] is the value
    of [np.random.lognormal(mean, sigma)] when it is the [i]-th call since
    the generator was seeded.  A call at cursor [k] moves the cursor to
    [S k]. *)
Variable lognormal : Q -> Q -> nat -> Q.

Definition __init__ (st : DTState) (simulator : PredictiveSimulator)
    (a rw : Q) (cm : option ClusterManager) : t :=
  {| state := st; sim := simulator; alpha := a; risk_weight := rw;
     cluster_manager := cm; resiliency_scorer := new_ResiliencyScorer st |}.

(** [for _ in range(runs)]: the samples gathered so far and the cursor. *)
Fixpoint sample_loop (self : t) (job : Job) (placements : gmap string PlacementDecision)
    (runs : nat) (samples : list Q) (k : nat) : list Q * nat :=
  match runs with
  | O => (samples, k)
  | S runs' =>
      let noise := lognormal 0 (15 # 100) k in
      let res := score_plan (sim self) job placements in
      let cost := (latency_ms res + origin_lat self job placements) * noise in
      sample_loop self job placements runs' (samples ++ [cost]) (S k)
  end.

Definition _sample_cost (self : t) (job : Job) (placements : gmap string PlacementDecision)
    (runs : nat) (k : nat) : result (Q * nat) :=
  let sk := sample_loop self job placements runs [] k in
  do c <~ tail_mean (fst sk) (alpha self);
  Ok (c, snd sk).

(** The running best of the inner loop: [best_dec] and [best_cvar]
    ([None] for [+inf]). *)
Record best : Type := {
  best_dec : option PlacementDecision;
  best_cvar : option Q
}.

Definition best_init : best := {| best_dec := None; best_cvar := None |}.

Definition gpu_short (stage : JobStage) (node : Node) : bool :=
  ((0 <? gpu_vram_gb (js_compute stage))%Z
   && Qlt_bool (hw_gpu_vram_gb (hardware node))
               (inject_Z (gpu_vram_gb (js_compute stage))))%bool.

(** The decision of a candidate plan. *)
Definition decision_for (stage : JobStage) (node : Node) (exec_format : string)
  : PlacementDecision :=
  {| stage_id := js_id stage; node_name := name node; exec_format := exec_format |}.

(** [adjusted_cvar] of a candidate whose tail cost is [cvar]. *)
Definition adjusted_cvar (self : t) (node : Node) (cvar : Q) : Q :=
  let resiliency := compute_node_score (resiliency_scorer self) (name node) in
  let risk_penalty := risk_weight self * (1 - resiliency) in
  cvar * (1 + risk_penalty).

(** One iteration of [for node in self._candidate_nodes(stage)]. *)
Definition place_step (self : t) (job : Job) (placements : gmap string PlacementDecision)
    (stage : JobStage) (b : best) (k : nat) (node : Node) : result (best * nat) :=
  if gpu_short stage node then Ok (b, k)
  else
    do fmt <~ choose_exec_format (sim self) stage node;
    let dec := decision_for stage node fmt in
    let candidate_plan := <[js_id stage := dec]> placements in
    do ck <~ _sample_cost self job candidate_plan 16 k;
    let adjusted := adjusted_cvar self node (fst ck) in
    if match best_cvar b with
       | None => true
       | Some c => Qlt_bool adjusted c
       end
    then Ok ({| best_dec := Some dec; best_cvar := Some adjusted |}, snd ck)
    else Ok (b, snd ck).

Fixpoint place_scan (self : t) (job : Job) (placements : gmap string PlacementDecision)
    (stage : JobStage) (b : best) (k : nat) (candidates : list Node) : result (best * nat) :=
  match candidates with
  | [] => Ok (b, k)
  | node :: rest =>
      do bk <~ place_step self job placements stage b k node;
      place_scan self job placements stage (fst bk) (snd bk) rest
  end.

Fixpoint place_stages (self : t) (job : Job) (stages : list JobStage)
    (placements : gmap string PlacementDecision) (k : nat)
  : result (gmap string PlacementDecision * nat) :=
  match stages with
  | [] => Ok (placements, k)
  | stage :: rest =>
      do bk <~ place_scan self job placements stage best_init k (_candidate_nodes self stage);
      match best_dec (fst bk) with
      | Some d => place_stages self job rest (<[js_id stage := d]> placements) (snd bk)
      | None => place_stages self job rest placements (snd bk)
      end
  end.

(** [place(job)] started with the generator at cursor [k]: the mapping and
    the cursor it leaves. *)
Definition place (self : t) (job : Job) (k : nat)
  : result (gmap string PlacementDecision * nat) :=
  place_stages self job (job_stages job) ∅ k.

End Methods.

End RiskAwareCvarPolicy.

(* ===================================================================== *)
(** ** [dt/api.py]: the [/plan] handler *)
(* ===================================================================== *)

(** What the handler needs and [src/] does not hold: the text of [str] on
    compound values and the value of [int] on strings, the arithmetic of
    the interpreter's floats, the constructors of the simulator and of the
    resiliency scorer, [seed_state] ([None] when it raises, which the
    handler ignores), the greedy policy's [place], and the sequence of
    draws of the process-global generator. *)
Record Env : Type := {
  str_compound : json -> string;
  int_str : string -> option Z;
  arith : Float64;
  new_PredictiveSimulator : DTState -> PredictiveSimulator;
  new_ResiliencyScorer : DTState -> ResiliencyScorer;
  seed_state : DTState -> option DTState;
  greedy_place : DTState -> PredictiveSimulator -> option ClusterManager ->
                 Job -> result (gmap string PlacementDecision);
  lognormal : Q -> Q -> nat -> Q
}.

Inductive policy : Type :=
  | GreedyLatency
  | Resilient (p : ResilientPolicy.t)
  | RiskAwareCvar (p : RiskAwareCvarPolicy.t).

Record PlanResponse : Type := {
  plan_id : string;
  placements : gmap string PlacementDecision;
  predicted_latency_ms : Q;
  predicted_energy_kwh : Q;
  resp_risk_score : Q;
  shadow_plan : gmap string string
}.

(** The handler's answer: [jsonify(response)], [jsonify({"error": ...,
    "stages": ...}), 400], or the 500 that an exception no handler catches
    becomes. *)
Inductive http_response : Type :=
  | Response200 (r : PlanResponse)
  | Response400 (error : string) (failed_stages : option (list string))
  | Response500 (e : exn).

Definition lower_ascii (c : ascii) : ascii :=
  let n := nat_of_ascii c in
  if (Nat.leb 65 n && Nat.leb n 90)%bool then ascii_of_nat (n + 32) else c.

(** [s.lower()]. *)
Fixpoint lower (s : string) : string :=
  match s with
  | EmptyString => EmptyString
  | String c r => String (lower_ascii c) (lower r)
  end.

(** [{f"{sid}_backup": dec.node_name for sid, dec in placements.items()}]. *)
Definition backup_key (sid : string) : string := sid ++ "_backup".

Definition shadow_plan_of (pl : gmap string PlacementDecision) : gmap string string :=
  kmap backup_key (node_name <$> pl).

(** The ["placements"] entry of the response. *)
Definition placements_of (pl : gmap string PlacementDecision) : gmap string PlacementDecision :=
  map_imap (fun sid d => Some {| stage_id := sid; node_name := node_name d;
                                 exec_format := exec_format d |}) pl.

Section Handler.

Variable env : Env.

(** The floats of the handler are the interpreter's. *)
Let fl : Float64 := arith env.
#[local] Existing Instance fl.

(** The arguments of [create_app]. *)
Variable state0 : DTState.
Variable cluster_manager : option ClusterManager.

(** The state once the handler has run its seeding check. *)
Definition plan_state : DTState :=
  match list_nodes state0 with
  | [] => match seed_state env state0 with Some s => s | None => state0 end
  | _ :: _ => state0
  end.

Definition plan_sim : PredictiveSimulator := new_PredictiveSimulator env plan_state.

Definition select_policy (strategy : json) : result policy :=
  do nm <~ (if truthy strategy then
              match strategy with
              | JStr s => Ok (lower s)
              | _ => Raise AttributeError
              end
            else Ok "greedy");
  if String.eqb nm "resilient" then
    do p <~ ResilientPolicy.__init__ (new_ResiliencyScorer env) plan_state
              plan_sim cluster_manager
              (rnd (3 # 10)) (rnd (5 # 10)) (rnd (2 # 10));
    Ok (Resilient p)
  else if String.eqb nm "cvar" then
    Ok (RiskAwareCvar (RiskAwareCvarPolicy.__init__ (new_ResiliencyScorer env) plan_state
                         plan_sim (95 # 100) (6 # 10) cluster_manager))
  else Ok GreedyLatency.

(** [policy.place(job)], the generator being at cursor [k]. *)
Definition policy_place (p : policy) (job : Job) (k : nat)
  : result (gmap string PlacementDecision) :=
  match p with
  | GreedyLatency => greedy_place env plan_state plan_sim cluster_manager job
  | Resilient rp => ResilientPolicy.place rp job
  | RiskAwareCvar cp =>
      do r <~ RiskAwareCvarPolicy.place (lognormal env) cp job k;
      Ok (fst r)
  end.

(** The response built from a non-empty mapping. *)
Definition plan_response (uuid_hex : string) (job : Job)
    (pl : gmap string PlacementDecision) : PlanResponse :=
  let metrics := score_plan plan_sim job pl in
  {| plan_id := "plan-" ++ uuid_hex;
     placements := placements_of pl;
     predicted_latency_ms := latency_ms metrics;
     predicted_energy_kwh := energy_kwh metrics;
     resp_risk_score := risk_score metrics;
     shadow_plan := shadow_plan_of pl |}.

(** [plan()] on the decoded request [body]; [uuid_hex] is the eight hex
    digits taken from [uuid.uuid4()], [k] the cursor of the generator.
    The actuator call that follows when [dry_run] is false changes neither
    the response nor the state and is left out. *)
Definition plan (uuid_hex : string) (k : nat) (body : json) : http_response :=
  let answer :=
    do job_spec <~ py_get body "job" JNull;
    if negb (truthy job_spec) then Ok (Response400 "missing job spec" None)
    else
      do strategy <~ py_get body "strategy" (JStr "greedy");
      match parse_job_spec (str_compound env) (int_str env) job_spec with
      | Raise (JobSpecError msg) => Ok (Response400 msg None)
      | Raise e => Raise e
      | Ok job =>
          do p <~ select_policy strategy;
          do pl <~ policy_place p job k;
          if bool_decide (pl = ∅)
          then Ok (Response400 "no feasible placements found"
                               (Some (List.map js_id (job_stages job))))
          else Ok (Response200 (plan_response uuid_hex job pl))
      end in
  match answer with
  | Ok r => r
  | Raise e => Response500 e
  end.

End Handler.

(* ===================================================================== *)
(** ** [experiments/dt_client.py]: [DTClient.plan], offline fallback *)
(* ===================================================================== *)

Module DTClient.

(** The client once its constructor has found no endpoint: the state, the
    cluster manager and the simulator it holds. *)
Record t : Type := {
  _state : DTState;
  _cluster_manager : option ClusterManager;
  _simulator : PredictiveSimulator
}.

Section Methods.

Variable env : Env.

Let fl : Float64 := arith env.
#[local] Existing Instance fl.

Definition _select_policy (self : t) (nm : json) : result policy :=
  do strategy <~ (if truthy nm then
                    match nm with
                    | JStr s => Ok (lower s)
                    | _ => Raise AttributeError
                    end
                  else Ok "greedy");
  if String.eqb strategy "resilient" then
    do p <~ ResilientPolicy.__init__ (new_ResiliencyScorer env) (_state self)
              (_simulator self) (_cluster_manager self)
              (rnd (3 # 10)) (rnd (5 # 10)) (rnd (2 # 10));
    Ok (Resilient p)
  else if String.eqb strategy "cvar" then
    Ok (RiskAwareCvar (RiskAwareCvarPolicy.__init__ (new_ResiliencyScorer env) (_state self)
                         (_simulator self) (95 # 100) (6 # 10) (_cluster_manager self)))
  else Ok GreedyLatency.

Definition policy_place (self : t) (p : policy) (job : Job) (k : nat)
  : result (gmap string PlacementDecision) :=
  match p with
  | GreedyLatency =>
      greedy_place env (_state self) (_simulator self) (_cluster_manager self) job
  | Resilient rp => ResilientPolicy.place rp job
  | RiskAwareCvar cp =>
      do r <~ RiskAwareCvarPolicy.place (lognormal env) cp job k;
      Ok (fst r)
  end.

(** The response of the offline fallback of [plan]; exceptions reach the
    caller.  The job and the plan that the client then records, and the
    optional actuator call, do not change the response and are left
    out. *)
Definition plan (self : t) (uuid_hex : string) (k : nat) (job_spec strategy : json)
  : result PlanResponse :=
  do job <~ parse_job_spec (str_compound env) (int_str env) job_spec;
  do p <~ _select_policy self strategy;
  do pl <~ policy_place self p job k;
  if bool_decide (pl = ∅) then Raise (RuntimeError "no feasible placements found")
  else
    let metrics := score_plan (_simulator self) job pl in
    Ok {| plan_id := "plan-" ++ uuid_hex;
          placements := placements_of pl;
          predicted_latency_ms := latency_ms metrics;
          predicted_energy_kwh := energy_kwh metrics;
          resp_risk_score := risk_score metrics;
          shadow_plan := shadow_plan_of pl |}.

End Methods.

End DTClient.

(* ===================================================================== *)
(** ** Predicates used to state the properties of the loops *)
(* ===================================================================== *)

Section ResilientLoopSpec.

Import ResilientPolicy.

Context {fl : Float64}.
Variable self : ResilientPolicy.t.
Variable job : Job.

(** The score that the loop body gives a candidate, when it gives one. *)
Definition scored (prev : gmap string Node) (stage : JobStage) (n : Node) (s : Q) : Prop :=
  exists fmt lat,
    choose_exec_format (sim self) stage n = Ok fmt
    /\ candidate_latency_ms self job prev stage n fmt = Ok lat
    /\ s = composite self stage n lat.

(** What the running best is once the nodes [seen] have been visited. *)
Definition scan_inv (prev : gmap string Node) (stage : JobStage) (seen : list Node)
    (b : best) : Prop :=
  (best_node b = None -> seen = [] /\ best_score b = None)
  /\ (forall n, best_node b = Some n ->
        In n seen /\ choose_exec_format (sim self) stage n = Ok (best_format b)
        /\ exists s, best_score b = Some s /\ scored prev stage n s)
  /\ (forall c, In c seen ->
        exists sc s, scored prev stage c sc /\ best_score b = Some s /\ sc <= s).

End ResilientLoopSpec.

Section CvarLoopSpec.

Import RiskAwareCvarPolicy.

Variable g : Q -> Q -> nat -> Q.
Variable self : RiskAwareCvarPolicy.t.
Variable job : Job.

(** The adjusted tail cost that the loop body gives a candidate whose
    sixteen draws start at cursor [kn], the placements so far being
    [pl]. *)
Definition sampled (pl : gmap string PlacementDecision) (stage : JobStage) (kn : nat)
    (n : Node) (fmt : string) (a : Q) : Prop :=
  choose_exec_format (sim self) stage n = Ok fmt
  /\ exists c,
       _sample_cost g self job (<[js_id stage := decision_for stage n fmt]> pl) 16 kn
       = Ok (c, (kn + 16)%nat)
       /\ a = adjusted_cvar self n c.

(** The nodes that the loop body does not skip. *)
Definition evaluated_of (stage : JobStage) (nodes : list Node) : list Node :=
  List.filter (fun n => negb (gpu_short stage n)) nodes.

(** What the running best and the cursor are once the nodes [seen] have
    been visited from cursor [k0]: nothing when no node was evaluated;
    otherwise the decision for the evaluated node of least adjusted cost,
    the earlier one when two are equal.  The [j]-th evaluated node takes
    the draws from [k0 + 16 * j]. *)
Definition cvar_scan_inv (pl : gmap string PlacementDecision) (stage : JobStage) (k0 : nat)
    (seen : list Node) (b : best) (k : nat) : Prop :=
  k = (k0 + 16 * length (evaluated_of stage seen))%nat
  /\ (forall j c, nth_error (evaluated_of stage seen) j = Some c ->
        exists fc ac, sampled pl stage (k0 + 16 * j) c fc ac)
  /\ match best_dec b with
     | None => evaluated_of stage seen = [] /\ best_cvar b = None
     | Some d =>
         exists i n fmt a,
           nth_error (evaluated_of stage seen) i = Some n
           /\ d = decision_for stage n fmt
           /\ best_cvar b = Some a
           /\ sampled pl stage (k0 + 16 * i) n fmt a
           /\ forall j c fc ac,
                nth_error (evaluated_of stage seen) j = Some c ->
                sampled pl stage (k0 + 16 * j) c fc ac ->
                a <= ac /\ ((j < i)%nat -> a < ac)
     end.

End CvarLoopSpec.

(** A decision stored under [sid] names an available node of the snapshot
    that meets the GPU demand of a stage of the job with that id. *)
Definition decision_valid (nodes : list Node) (stages : list JobStage)
    (sid : string) (d : PlacementDecision) : Prop :=
  exists stage node,
    In stage stages /\ js_id stage = sid /\ stage_id d = sid
    /\ In node nodes /\ name node = node_name d
    /\ available node = true
    /\ ((0 < gpu_vram_gb (js_compute stage))%Z ->
        inject_Z (gpu_vram_gb (js_compute stage)) <= hw_gpu_vram_gb (hardware node)).

(** Two generators give the same draws from cursor [k] up to [k']. *)
Definition agree (g1 g2 : Q -> Q -> nat -> Q) (k k' : nat) : Prop :=
  forall mean sigma i, (k <= i < k')%nat -> g1 mean sigma i = g2 mean sigma i.

(** [job.origin] is set. *)
Definition has_origin (job : Job) : bool :=
  match job_origin job with
  | Some _ => true
  | None => false
  end.

(** The job specifications whose [spec.stages] list is missing or empty:
    no [spec] entry or a null one, or a [spec] object with no [stages]
    entry, a null one or an empty list. *)
Inductive stages_missing_or_empty : json -> Prop :=
  | no_spec kv :
      assoc "spec" kv = None -> stages_missing_or_empty (JObj kv)
  | null_spec kv :
      assoc "spec" kv = Some JNull -> stages_missing_or_empty (JObj kv)
  | no_stages kv kv' :
      assoc "spec" kv = Some (JObj kv') -> assoc "stages" kv' = None ->
      stages_missing_or_empty (JObj kv)
  | null_stages kv kv' :
      assoc "spec" kv = Some (JObj kv') -> assoc "stages" kv' = Some JNull ->
      stages_missing_or_empty (JObj kv)
  | empty_stages kv kv' :
      assoc "spec" kv = Some (JObj kv') -> assoc "stages" kv' = Some (JArr []) ->
      stages_missing_or_empty (JObj kv).

(** The entry [k] of an object, if it has one. *)
Definition member (j : json) (k : string) : option json :=
  match j with
  | JObj kv => assoc k kv
  | _ => None
  end.

(** The object under [k], an empty object when the entry is absent, null
    or otherwise falsy: [j.get(k) or {}]. *)
Definition sub_object (j : json) (k : string) : json :=
  py_or (default JNull (member j k)) (JObj []).

(** The elements of [spec.stages]. *)
Definition stage_specs_of (job_spec : json) : list json :=
  match py_list (py_or (default JNull (member (sub_object job_spec "spec") "stages"))
                       (JArr [])) with
  | Ok l => l
  | Raise _ => []
  end.

(** The defaults of the fields of a stage. *)
Definition stage_defaults (stage_spec : json) (st : JobStage) : Prop :=
  let compute_spec := sub_object stage_spec "compute" in
  let constraints_spec := sub_object stage_spec "constraints" in
  (member compute_spec "cpu" = None -> cpu (js_compute st) = 0%Z)
  /\ (member compute_spec "mem_gb" = None -> mem_gb (js_compute st) = 0%Z)
  /\ (member compute_spec "duration_ms" = None -> duration_ms (js_compute st) = 0%Z)
  /\ (member compute_spec "gpu_vram_gb" = None -> gpu_vram_gb (js_compute st) = 0%Z)
  /\ (member compute_spec "workload_type" = None ->
      workload_type (js_compute st) = "cpu_bound")
  /\ (member constraints_spec "arch" = None -> arch (js_constraints st) = [JStr "amd64"])
  /\ (member constraints_spec "formats" = None ->
      formats (js_constraints st) = [JStr "native"]).

(** The defaults of the fields of a job: the deadline, the fields of each
    stage, and the cluster of an origin object that is not empty; an origin
    that is missing, null or empty gives a job without origin. *)
Definition job_defaults (job_spec : json) (job : Job) : Prop :=
  let metadata := sub_object job_spec "metadata" in
  (member metadata "deadline_ms" = None -> job_deadline_ms job = 60000%Z)
  /\ Forall2 stage_defaults (stage_specs_of job_spec) (job_stages job)
  /\ (forall o,
        member metadata "origin" = Some o -> truthy o = true ->
        member o "cluster" = None ->
        exists nd, job_origin job
                   = Some {| origin_cluster := "dc-core"; origin_node := nd |})
  /\ (member metadata "origin" = None -> job_origin job = None)
  /\ (forall o,
        member metadata "origin" = Some o -> truthy o = false -> job_origin job = None).

(* ===================================================================== *)
(** ** Predicates used to state further properties of the policies *)
(* ===================================================================== *)

(** A value on which [x and x in d] raises: it is truthy and not
    hashable, that is a non-empty list or dict. *)
Definition unhashable_truthy (j : json) : bool :=
  match j with
  | JArr (_ :: _) | JObj (_ :: _) => true
  | _ => false
  end.

(** The nodes for which the CVaR policy samples a cost: the candidates
    that pass the GPU test of the loop body. *)
Definition evaluated (self : RiskAwareCvarPolicy.t) (stage : JobStage) : list Node :=
  List.filter (fun n => negb (RiskAwareCvarPolicy.gpu_short stage n))
              (RiskAwareCvarPolicy._candidate_nodes self stage).

(** Sixteen draws for each evaluated node of each stage. *)
Fixpoint draws_needed (self : RiskAwareCvarPolicy.t) (stages : list JobStage) : nat :=
  match stages with
  | [] => 0
  | stage :: rest => (16 * length (evaluated self stage) + draws_needed self rest)%nat
  end.

(** [n], of score [s], is the first of the candidates of greatest score:
    those before it score strictly less, those after it at most [s]. *)
Definition first_of_greatest (score : Node -> Q -> Prop) (cands : list Node)
    (n : Node) (s : Q) : Prop :=
  exists before after,
    cands = (before ++ n :: after)%list
    /\ score n s
    /\ (forall c, In c before -> exists sc, score c sc /\ sc < s)
    /\ (forall c, In c after -> exists sc, score c sc /\ sc <= s).

(** [n], of score [s], is a candidate of greatest score. *)
Definition greatest (score : Node -> Q -> Prop) (cands : list Node)
    (n : Node) (s : Q) : Prop :=
  In n cands /\ score n s /\ forall c, In c cands -> exists sc, score c sc /\ sc <= s.

(** [m] is a greatest element of [l]. *)
Definition is_max (m : Q) (l : list Q) : Prop :=
  In m l /\ forall s, In s l -> s <= m.

(* ===================================================================== *)
(** ** The two policies in the words of the specification *)
(* ===================================================================== *)

(** The definitions of this section are written from the specification,
    not from the code; the properties compare the code with them. *)

(** The origin delay of a node: the latency between the cluster of the
    job's origin and the cluster of the node; none when the job has no
    origin, when there is no cluster manager or when the node has no
    cluster. *)
Definition origin_delay (st : DTState) (cm : option ClusterManager) (job : Job)
    (node : Node) : Q :=
  match job_origin job, cm, get_cluster st (name node) with
  | Some origin, Some manager, Some cluster =>
      if String.eqb cluster "" then 0
      else get_latency_between manager (origin_cluster origin) cluster
                               (origin_node origin) (name node)
  | _, _, _ => 0
  end.

(** The stage names a predecessor: its [predecessor] is neither missing
    nor empty. *)
Definition has_predecessor (stage : JobStage) : bool := truthy (js_predecessor stage).

(** The node of the stage's predecessor, when the stage names one and it
    has been placed; [prev] holds the node of every placed stage. *)
Definition placed_predecessor (prev : gmap string Node) (stage : JobStage) : option Node :=
  match js_predecessor stage with
  | JStr p => if String.eqb p "" then None else prev !! p
  | _ => None
  end.

(** [prev] holds, for each stage that [pl] places and for no other, a node
    of the name that the decision gives. *)
Definition nodes_of_plan (pl : gmap string PlacementDecision) (prev : gmap string Node)
  : Prop :=
  forall sid,
    match pl !! sid, prev !! sid with
    | Some d, Some n => node_name d = name n
    | None, None => True
    | _, _ => False
    end.


(** A node as the data model describes it: telemetry [t] with both
    utilisations in [[0, 100]] and positive allocatable cpu and memory. *)
Definition node_in_model (node : Node) (t : Telemetry) : Prop :=
  tel node = Some t
  /\ 0 <= cpu_util t /\ cpu_util t <= 100
  /\ 0 <= mem_util t /\ mem_util t <= 100
  /\ 0 < allocatable_cpu (k8s node)
  /\ 0 < allocatable_mem_gb (k8s node).

Section ResilientSpec.

Context {fl : Float64}.

(** [1 - stage.cpu / allocatable_cpu] and [1 - stage.mem / allocatable_mem_gb]. *)
Definition cpu_margin (stage : JobStage) (node : Node) : Q :=
  rnd (1 - rnd (rnd (inject_Z (cpu (js_compute stage))) / allocatable_cpu (k8s node))).

Definition mem_margin (stage : JobStage) (node : Node) : Q :=
  rnd (1 - rnd (rnd (inject_Z (mem_gb (js_compute stage))) / allocatable_mem_gb (k8s node))).


(** [capacity_fit], amended: the smaller margin clamped below at 0, and 0
    on a node whose allocatable cpu or memory is not positive. *)
Definition capacity_fit (stage : JobStage) (node : Node) : Q :=
  if (Qlt_bool 0 (allocatable_cpu (k8s node))
      && Qlt_bool 0 (allocatable_mem_gb (k8s node)))%bool
  then Qmax 0 (Qmin (cpu_margin stage node) (mem_margin stage node))
  else 0.

(** [utilization_headroom] as the specification has it. *)
Definition utilization_headroom_spec (t : Telemetry) : Q :=
  rnd (1 - rnd (Qmax (cpu_util t) (mem_util t) / 100)).

(** [utilization_headroom], amended: clamped below at 0, and that of no
    utilisation on a node without telemetry. *)
Definition utilization_headroom (node : Node) : Q :=
  match tel node with
  | Some t => Qmax 0 (utilization_headroom_spec t)
  | None => Qmax 0 (rnd (1 - 0))
  end.

(** The composite of the specification, the operations being those of
    binary64 in the order written. *)
Definition composite_spec (w_capacity w_resiliency w_utilization : Q)
    (capacity resiliency headroom latency : Q) : Q :=
  rnd (rnd (rnd (rnd (w_capacity * capacity) + rnd (w_resiliency * resiliency))
            + rnd (w_utilization * headroom))
       - rnd (rnd (1 # 1000) * latency)).

Variable self : ResilientPolicy.t.
Variable job : Job.

(** [latency], amended: the stage latency, plus the network delay from the
    node of the predecessor when the stage names a placed one, plus the
    origin delay when the stage names no predecessor and the job has an
    origin. *)
Definition latency_spec (prev : gmap string Node) (stage : JobStage) (node : Node)
    (fmt : string) : Q :=
  let stage_latency := compute_stage_latency_ms (ResilientPolicy.sim self) stage node fmt in
  let after_predecessor :=
    match placed_predecessor prev stage with
    | Some p => rnd (stage_latency + compute_network_delay_ms (ResilientPolicy.sim self) p node)
    | None => stage_latency
    end in
  if (negb (has_predecessor stage) && has_origin job)%bool
  then rnd (after_predecessor
            + origin_delay (ResilientPolicy.state self) (ResilientPolicy.cluster_manager self)
                           job node)
  else after_predecessor.

(** The score of a candidate in the format [fmt]. *)
Definition resilient_score (prev : gmap string Node) (stage : JobStage) (node : Node)
    (fmt : string) : Q :=
  composite_spec (ResilientPolicy.capacity_weight self)
                 (ResilientPolicy.resiliency_weight self)
                 (ResilientPolicy.utilization_weight self)
                 (capacity_fit stage node)
                 (compute_node_score (ResilientPolicy.resiliency_scorer self) (name node))
                 (utilization_headroom node)
                 (latency_spec prev stage node fmt).

(** [s] is the score of the candidate [c], in the format that the
    simulator chooses for it. *)
Definition resilient_scored (prev : gmap string Node) (stage : JobStage) (c : Node) (s : Q)
  : Prop :=
  exists fmt,
    choose_exec_format (ResilientPolicy.sim self) stage c = Ok fmt
    /\ s = resilient_score prev stage c fmt.

(** The decision [d] stored under [sid] is that of the last stage of the
    job with this id that has candidates: the stages before it having been
    placed as [pl0] says, on the nodes [prev0], [d] names the candidate
    that [choice] picks by the score, in the format chosen for it. *)
Definition resilient_placed
    (choice : (Node -> Q -> Prop) -> list Node -> Node -> Q -> Prop)
    (sid : string) (d : PlacementDecision) : Prop :=
  exists before stage after pl0 prev0 n fmt,
    job_stages job = (before ++ stage :: after)%list
    /\ js_id stage = sid
    /\ (forall later, In later after -> js_id later = sid ->
          ResilientPolicy._candidate_nodes self later = [])
    /\ ResilientPolicy.place_stages self job before ∅ ∅ = Ok (pl0, prev0)
    /\ nodes_of_plan pl0 prev0
    /\ choose_exec_format (ResilientPolicy.sim self) stage n = Ok fmt
    /\ d = {| stage_id := sid; node_name := name n; exec_format := fmt |}
    /\ choice (resilient_scored prev0 stage) (ResilientPolicy._candidate_nodes self stage)
              n (resilient_score prev0 stage n fmt).

End ResilientSpec.

Section CvarSpec.

Variable g : Q -> Q -> nat -> Q.
Variable self : RiskAwareCvarPolicy.t.
Variable job : Job.

(** The origin latency of a plan: the origin delay of the node that holds
    the first stage of the job in this plan. *)
Definition plan_origin_latency (pl : gmap string PlacementDecision) : Q :=
  match job_origin job, job_stages job with
  | Some _, first_stage :: _ =>
      match pl !! js_id first_stage with
      | Some d =>
          match get_node (RiskAwareCvarPolicy.state self) (node_name d) with
          | Some node =>
              origin_delay (RiskAwareCvarPolicy.state self)
                           (RiskAwareCvarPolicy.cluster_manager self) job node
          | None => 0
          end
      | None => 0
      end
  | _, _ => 0
  end.

(** The sixteen costs of a plan, the generator being at cursor [k]: the
    plan's latency plus its origin latency, times a log-normal noise of
    parameters 0 and 0.15. *)
Definition costs_spec (pl : gmap string PlacementDecision) (k : nat) : list Q :=
  List.map (fun i =>
              (latency_ms (score_plan (RiskAwareCvarPolicy.sim self) job pl)
               + plan_origin_latency pl) * g 0 (15 # 100) i)
           (seq k 16).

(** The tail cost at level [a]: the mean of the costs that are at least
    their [a]-quantile, the quantile itself if there is none. *)
Definition cvar_spec (costs : list Q) (a : Q) : result Q :=
  do q <~ quantile costs a;
  Ok (match List.filter (fun c => Qle_bool q c) costs with
      | [] => q
      | (_ :: _) as tail => mean tail
      end).

(** The reliability penalty. *)
Definition adjusted_spec (node : Node) (cvar : Q) : Q :=
  cvar * (1 + RiskAwareCvarPolicy.risk_weight self
              * (1 - compute_node_score (RiskAwareCvarPolicy.resiliency_scorer self)
                                        (name node))).

(** The tentative plan: the placements so far plus the candidate. *)
Definition tentative_plan (pl0 : gmap string PlacementDecision) (stage : JobStage)
    (node : Node) (fmt : string) : gmap string PlacementDecision :=
  <[js_id stage := {| stage_id := js_id stage; node_name := name node;
                      exec_format := fmt |}]> pl0.

(** [a] is the adjusted cost of [node], the [i]-th of the nodes evaluated
    for the stage, the placements so far being [pl0] and the generator
    having been at cursor [k0] when the stage was reached. *)
Definition cvar_scored (pl0 : gmap string PlacementDecision) (k0 : nat) (stage : JobStage)
    (i : nat) (node : Node) (a : Q) : Prop :=
  exists fmt cvar,
    choose_exec_format (RiskAwareCvarPolicy.sim self) stage node = Ok fmt
    /\ cvar_spec (costs_spec (tentative_plan pl0 stage node fmt) (k0 + 16 * i))
                 (RiskAwareCvarPolicy.alpha self) = Ok cvar
    /\ a = adjusted_spec node cvar.

(** The decision [d] stored under [sid] is that of the last stage of the
    job with this id that has a node to evaluate: the stages before it
    having been placed as [pl0] says and having left the generator at
    cursor [k0], [d] names the evaluated node of least adjusted cost, the
    earlier one when two are equal. *)
Definition cvar_placed (k : nat) (sid : string) (d : PlacementDecision) : Prop :=
  exists before stage after pl0 k0 i n fmt a,
    job_stages job = (before ++ stage :: after)%list
    /\ js_id stage = sid
    /\ (forall later, In later after -> js_id later = sid -> evaluated self later = [])
    /\ RiskAwareCvarPolicy.place_stages g self job before ∅ k = Ok (pl0, k0)
    /\ nth_error (evaluated self stage) i = Some n
    /\ choose_exec_format (RiskAwareCvarPolicy.sim self) stage n = Ok fmt
    /\ d = {| stage_id := sid; node_name := name n; exec_format := fmt |}
    /\ cvar_scored pl0 k0 stage i n a
    /\ forall j c, nth_error (evaluated self stage) j = Some c ->
         exists b, cvar_scored pl0 k0 stage j c b /\ a <= b /\ ((j < i)%nat -> a < b).

End CvarSpec.

(** Every evaluated node of every stage has a format. *)
Definition cvar_formats_ok (self : RiskAwareCvarPolicy.t) (stages : list JobStage) : Prop :=
  forall stage n, In stage stages -> In n (evaluated self stage) ->
    exists fmt, choose_exec_format (RiskAwareCvarPolicy.sim self) stage n = Ok fmt.

(** Every candidate of every stage has a format. *)
Definition resilient_formats_ok (self : ResilientPolicy.t) (stages : list JobStage) : Prop :=
  forall stage n, In stage stages -> In n (ResilientPolicy._candidate_nodes self stage) ->
    exists fmt, choose_exec_format (ResilientPolicy.sim self) stage n = Ok fmt.

(* ===================================================================== *)
(** ** [dt/api.py]: the [/snapshot] handler *)
(* ===================================================================== *)

(** The names that [snapshot()] lists: those of [state.list_nodes()], read
    again after [seed_state] when the first reading is empty and the
    seeding does not raise. *)
Definition snapshot (env : Env) (state0 : DTState) : list string :=
  let nodes := list_nodes state0 in
  let nodes :=
    match nodes with
    | [] => match seed_state env state0 with
            | Some s => list_nodes s
            | None => nodes
            end
    | _ :: _ => nodes
    end in
  List.map name nodes.

(** The value under [name] is missing for [_require]: absent, [None] or
    the empty string. *)
Definition entry_missing (j : json) (key : string) : bool :=
  match member j key with
  | None => true
  | Some v => is_None_or_empty_str v
  end.

(** The stage [st] carries the id and the predecessor of its
    specification. *)
Definition stage_copied (str_c : json -> string) (stage_spec : json) (st : JobStage)
  : Prop :=
  exists v,
    member stage_spec "id" = Some v
    /\ is_None_or_empty_str v = false
    /\ js_id st = py_str str_c v
    /\ js_predecessor st = default JNull (member stage_spec "predecessor").

(* ===================================================================== *)
(** ** [dt/policy/selector.py] *)
(* ===================================================================== *)

Module PolicySelector.

(** An element of [recent_failures]. *)
Record failure : Type := {
  failure_node : string;
  timestamp : Q
}.

(** An element of a list of [policy_performance]. *)
Record performance : Type := {
  success : bool;
  completion_time_ms : Q
}.

(** A value of the dictionary that [get_policy_stats] returns. *)
Record stats : Type := {
  total_jobs : nat;
  success_rate : Q;
  avg_completion_ms : Q
}.

Record t : Type := {
  policies : gmap string policy;
  recent_failures : list failure;
  failure_window_seconds : Q;
  policy_performance : gmap string (list performance);
  state : DTState
}.

Section Methods.

Variable env : Env.

Let fl : Float64 := arith env.
#[local] Existing Instance fl.

Definition __init__ (st : DTState) (simulator : PredictiveSimulator)
    (cm : option ClusterManager) : result t :=
  do rp <~ ResilientPolicy.__init__ (new_ResiliencyScorer env) st simulator cm
             (rnd (3 # 10)) (rnd (5 # 10)) (rnd (2 # 10));
  Ok {| policies :=
          <["cvar" := RiskAwareCvar
                        (RiskAwareCvarPolicy.__init__ (new_ResiliencyScorer env) st simulator
                           (95 # 100) (6 # 10) cm)]>
            (<["resilient" := Resilient rp]> (<["greedy" := GreedyLatency]> ∅));
        recent_failures := [];
        failure_window_seconds := 300;
        policy_performance := ∅;
        state := st |}.

End Methods.

(** [self.policies[key]]. *)
Definition policy_at (self : t) (key : string) : result policy :=
  match policies self !! key with
  | Some p => Ok p
  | None => Raise KeyError
  end.

(** [_prune_old_failures()], [now] being the value of [time.time()]. *)
Definition _prune_old_failures (self : t) (now : Q) : t :=
  let cutoff := now - failure_window_seconds self in
  {| policies := policies self;
     recent_failures :=
       List.filter (fun f => Qlt_bool cutoff (timestamp f)) (recent_failures self);
     failure_window_seconds := failure_window_seconds self;
     policy_performance := policy_performance self;
     state := state self |}.

(** [_has_recent_failures()]: the answer and the pruned selector. *)
Definition _has_recent_failures (self : t) (now : Q) : bool * t :=
  let self' := _prune_old_failures self now in
  (match recent_failures self' with [] => false | _ :: _ => true end, self').

Definition node_utilization (n : Node) : Q :=
  match tel n with
  | Some t => Qmax (cpu_util t) (mem_util t) / 100
  | None => 0
  end.

Definition _average_utilization (self : t) : Q :=
  match list_nodes (state self) with
  | [] => 0
  | (_ :: _) as nodes => mean (List.map node_utilization nodes)
  end.

(** [select_policy_for_job(job, states, force_policy)], [now] being the
    value of [time.time()] if it is read: the policy and the selector,
    whose failures have been pruned unless the policy was forced. *)
Definition select_policy_for_job (self : t) (job : Job) (force_policy : option string)
    (now : Q) : result (policy * t) :=
  match (match force_policy with
         | Some nm => if negb (String.eqb nm "") then policies self !! nm else None
         | None => None
         end) with
  | Some p => Ok (p, self)
  | None =>
      let hs := _has_recent_failures self now in
      let self' := snd hs in
      if fst hs then
        do p <~ policy_at self' "resilient"; Ok (p, self')
      else if ((job_deadline_ms job <? 5000)%Z
               || match job_origin job with Some _ => true | None => false end)%bool then
        do p <~ policy_at self' "resilient"; Ok (p, self')
      else if Qlt_bool (75 # 100) (_average_utilization self') then
        do p <~ policy_at self' "cvar"; Ok (p, self')
      else
        do p <~ policy_at self' "greedy"; Ok (p, self')
  end.

(** [record_failure(node_name)]; [stamp] and [now] are the two values of
    [time.time()] it reads, the first for the record, the second for the
    pruning. *)
Definition record_failure (self : t) (node_name : string) (stamp now : Q) : t :=
  _prune_old_failures
    {| policies := policies self;
       recent_failures :=
         (recent_failures self ++ [{| failure_node := node_name; timestamp := stamp |}])%list;
       failure_window_seconds := failure_window_seconds self;
       policy_performance := policy_performance self;
       state := state self |}
    now.

(** [records[-100:]]. *)
Definition last_100 (records : list performance) : list performance :=
  skipn (length records - 100) records.

Definition record_policy_performance (self : t) (policy_name : string) (ok : bool)
    (time_ms : Q) : t :=
  let records :=
    (default [] (policy_performance self !! policy_name)
     ++ [{| success := ok; completion_time_ms := time_ms |}])%list in
  let records := if (100 <? length records)%nat then last_100 records else records in
  {| policies := policies self;
     recent_failures := recent_failures self;
     failure_window_seconds := failure_window_seconds self;
     policy_performance := <[policy_name := records]> (policy_performance self);
     state := state self |}.

(** The value that [get_policy_stats] stores for one list of records. *)
Definition stats_of (records : list performance) : stats :=
  match records with
  | [] => {| total_jobs := 0; success_rate := 0; avg_completion_ms := 0 |}
  | _ :: _ =>
      let successes := length (List.filter success records) in
      let times := List.map completion_time_ms (List.filter success records) in
      {| total_jobs := length records;
         success_rate := inject_Z (Z.of_nat successes) / inject_Z (Z.of_nat (length records));
         avg_completion_ms := match times with [] => 0 | _ :: _ => mean times end |}
  end.

Definition get_policy_stats (self : t) : gmap string stats :=
  stats_of <$> policy_performance self.

End PolicySelector.

(** A sequence of calls of [record_policy_performance], one for each
    event [(policy_name, success, completion_time_ms)]. *)
Definition record_all (self : PolicySelector.t) (events : list (string * bool * Q))
  : PolicySelector.t :=
  fold_left (fun s e => PolicySelector.record_policy_performance s (fst (fst e))
                          (snd (fst e)) (snd e))
            events self.

(** Every history of the selector has at most a hundred records. *)
Definition histories_bounded (self : PolicySelector.t) : Prop :=
  forall nm records,
    PolicySelector.policy_performance self !! nm = Some records ->
    (length records <= 100)%nat.

(** The resilient and the CVaR policy that [PolicySelector.__init__]
    builds, with the default arguments of their constructors, and the
    dictionary of the three policies. *)
Definition selector_resilient (env : Env) (st : DTState) (simulator : PredictiveSimulator)
    (cm : option ClusterManager) : ResilientPolicy.t :=
  {| ResilientPolicy.state := st; ResilientPolicy.sim := simulator;
     ResilientPolicy.cluster_manager := cm;
     ResilientPolicy.capacity_weight := rnd (Float64 := arith env) (3 # 10);
     ResilientPolicy.resiliency_weight := rnd (Float64 := arith env) (5 # 10);
     ResilientPolicy.utilization_weight := rnd (Float64 := arith env) (2 # 10);
     ResilientPolicy.resiliency_scorer := new_ResiliencyScorer env st |}.

Definition selector_cvar (env : Env) (st : DTState) (simulator : PredictiveSimulator)
    (cm : option ClusterManager) : RiskAwareCvarPolicy.t :=
  RiskAwareCvarPolicy.__init__ (new_ResiliencyScorer env) st simulator (95 # 100) (6 # 10) cm.

Definition selector_policies (env : Env) (st : DTState) (simulator : PredictiveSimulator)
    (cm : option ClusterManager) : gmap string policy :=
  <["cvar" := RiskAwareCvar (selector_cvar env st simulator cm)]>
    (<["resilient" := Resilient (selector_resilient env st simulator cm)]>
       (<["greedy" := GreedyLatency]> ∅)).


(* ===================================================================== *)
(** ** [dt/chaos_runner.py]: fault injection against the simulator *)
(* ===================================================================== *)

Module ChaosScenarioRunner.

Record ChaosResult : Type := {
  success_rate : Q;
  avg_completion_time_ms : Q;
  recovery_time_ms : Q;
  failures_observed : Z;
  total_trials : Z
}.

(** An element of [executed_scenarios]. *)
Record scenario : Type := {
  scenario_type : string;
  scenario_timestamp : Q;
  scenario_result : ChaosResult
}.

Record t : Type := {
  state : DTState;
  simulator : PredictiveSimulator;
  executed_scenarios : list scenario
}.

Definition __init__ (st : DTState) (sim : PredictiveSimulator) : t :=
  {| state := st; simulator := sim; executed_scenarios := [] |}.

Section Methods.

(** [PredictiveSimulator(state, failure_rate=r)] as built in the trial of
    the given index ([dt/predict.py] is taken as a parameter), and the
    value of [random.random()] in that trial. *)
Variable new_PredictiveSimulator : nat -> DTState -> Q -> PredictiveSimulator.
Variable random : nat -> Q.

(** One turn of the loop: whether the trial failed, and its latency. *)
Definition trial (self : t) (job : Job) (placements : gmap string PlacementDecision)
    (failure_probability : Q) (i : nat) : bool * Q :=
  let failed := Qlt_bool (random i) failure_probability in
  let sim := new_PredictiveSimulator i (state self)
               (if failed then failure_probability else 0) in
  (failed, latency_ms (score_plan sim job placements)).

(** The loop [for _ in range(num_trials)], [n] turns being left, [i] being
    the index of the next trial: [results], [recovery_times] and
    [failures_observed] at its end. *)
Fixpoint run_trials (self : t) (job : Job) (placements : gmap string PlacementDecision)
    (failure_probability : Q) (n i : nat) (results recovery_times : list Q)
    (failures_observed : Z) : list Q * list Q * Z :=
  match n with
  | O => (results, recovery_times, failures_observed)
  | S n' =>
      let '(failed, latency) := trial self job placements failure_probability i in
      let results := (results ++ [latency])%list in
      if failed then
        run_trials self job placements failure_probability n' (S i) results
          (recovery_times ++ [latency])%list (failures_observed + 1)%Z
      else
        run_trials self job placements failure_probability n' (S i) results
          recovery_times failures_observed
  end.

(** [sum(xs) / len(xs) if xs else 0.0]. *)
Definition average (xs : list Q) : Q :=
  match xs with
  | [] => 0
  | _ :: _ => Qsum xs / inject_Z (Z.of_nat (length xs))
  end.

(** [run_with_node_failure(job, placements, failure_probability=...,
    num_trials=...)], [now] being the value of [time.time()]: the summary
    and the runner with the scenario appended. *)
Definition run_with_node_failure (self : t) (job : Job)
    (placements : gmap string PlacementDecision) (failure_probability : Q)
    (num_trials : Z) (now : Q) : result (ChaosResult * t) :=
  let '(results, recovery_times, failures) :=
    run_trials self job placements failure_probability (Z.to_nat num_trials) 0 [] [] 0%Z in
  let positive := length (List.filter (fun r => Qlt_bool 0 r) results) in
  do rate <~ (if (num_trials =? 0)%Z then Raise ZeroDivisionError
              else Ok (inject_Z (Z.of_nat positive) / inject_Z num_trials));
  let summary :=
    {| success_rate := rate;
       avg_completion_time_ms := average results;
       recovery_time_ms := average recovery_times;
       failures_observed := failures;
       total_trials := num_trials |} in
  Ok (summary,
      {| state := state self; simulator := simulator self;
         executed_scenarios :=
           (executed_scenarios self
            ++ [{| scenario_type := "node_failure"; scenario_timestamp := now;
                   scenario_result := summary |}])%list |}).

End Methods.

(** [get_scenario_summary()]: [total_scenarios] and [scenarios]. *)
Definition get_scenario_summary (self : t) : nat * list scenario :=
  (length (executed_scenarios self), executed_scenarios self).

End ChaosScenarioRunner.


(* ===================================================================== *)
(** ** [experiments/]: the jobs that the experiments submit *)
(* ===================================================================== *)

Module Experiments.

(** An argument of type [Optional[str]]. *)
Definition optional_str (x : option string) : json :=
  match x with
  | Some s => JStr s
  | None => JNull
  end.

(** [v1_controller_vs_baseline.make_job(job_id, delay_ms, origin_cluster,
    origin_node)]. *)
Definition v1_make_job (job_id delay_ms : Z) (origin_cluster : string)
    (origin_node : option string) : json :=
  JObj [("apiVersion", JStr "fabric.dt/v1");
        ("kind", JStr "Job");
        ("metadata",
         JObj [("name", JStr ("job-" ++ str_of_Z job_id));
               ("deadline_ms", JInt (delay_ms * 2));
               ("origin", JObj [("cluster", JStr origin_cluster);
                                ("node", optional_str origin_node)])]);
        ("spec",
         JObj [("stages",
                JArr [JObj [("id", JStr "s1");
                            ("compute", JObj [("cpu", JInt 1); ("mem_gb", JInt 1);
                                              ("duration_ms", JInt delay_ms)]);
                            ("constraints", JObj [("arch", JArr [JStr "amd64"]);
                                                  ("formats", JArr [JStr "native"])])]])])].

(** [v2_predictive_ablation.make_job(job_id, origin_cluster, origin_node)],
    [dur] being the value of [random.randint(800, 1600)]. *)
Definition v2_make_job (dur : Z) (job_id : Z) (origin_cluster : string)
    (origin_node : option string) : json :=
  JObj [("apiVersion", JStr "fabric.dt/v1");
        ("kind", JStr "Job");
        ("metadata",
         JObj [("name", JStr ("ablate-" ++ str_of_Z job_id));
               ("deadline_ms", JInt (dur * 2));
               ("origin", JObj [("cluster", JStr origin_cluster);
                                ("node", optional_str origin_node)])]);
        ("spec",
         JObj [("stages",
                JArr [JObj [("id", JStr "s1");
                            ("compute", JObj [("cpu", JInt 1); ("mem_gb", JInt 1);
                                              ("duration_ms", JInt dur)]);
                            ("constraints", JObj [("arch", JArr [JStr "amd64"]);
                                                  ("formats", JArr [JStr "native"])])]])])].

(** [v3_overhead.mk(stage_format, ms, origin_cluster, origin_node)]. *)
Definition v3_mk (stage_format : string) (ms : Z) (origin_cluster : string)
    (origin_node : option string) : json :=
  JObj [("apiVersion", JStr "fabric.dt/v1");
        ("kind", JStr "Job");
        ("metadata",
         JObj [("name", JStr ("overhead-" ++ stage_format));
               ("deadline_ms", JInt (ms * 3));
               ("origin", JObj [("cluster", JStr origin_cluster);
                                ("node", optional_str origin_node)])]);
        ("spec",
         JObj [("stages",
                JArr [JObj [("id", JStr "s1");
                            ("compute", JObj [("cpu", JInt 1); ("mem_gb", JInt 1);
                                              ("duration_ms", JInt ms)]);
                            ("constraints",
                             JObj [("arch", JArr [JStr "amd64"]);
                                   ("formats", JArr [JStr "native"; JStr "wasm"])])]])])].

(** [v4_shadow_plans.job(deadline_ms, origin_cluster, origin_node)]. *)
Definition v4_job (deadline_ms : Z) (origin_cluster : string)
    (origin_node : option string) : json :=
  JObj [("apiVersion", JStr "fabric.dt/v1");
        ("kind", JStr "Job");
        ("metadata",
         JObj [("name", JStr "shadow-test");
               ("deadline_ms", JInt deadline_ms);
               ("origin", JObj [("cluster", JStr origin_cluster);
                                ("node", optional_str origin_node)])]);
        ("spec",
         JObj [("stages",
                JArr [JObj [("id", JStr "s1");
                            ("compute", JObj [("cpu", JInt 1); ("mem_gb", JInt 1);
                                              ("duration_ms", JInt (deadline_ms / 2))]);
                            ("constraints", JObj [("arch", JArr [JStr "amd64"]);
                                                  ("formats", JArr [JStr "native"])])]])])].

(** The job that the loop of [v5_scalability_kwok.run] builds in its turn
    [i], [origin] being [origin_clusters[i % len(origin_clusters)]]. *)
Definition v5_job (i : Z) (origin : string) : json :=
  JObj [("apiVersion", JStr "fabric.dt/v1");
        ("kind", JStr "Job");
        ("metadata",
         JObj [("name", JStr ("scale-" ++ str_of_Z i));
               ("deadline_ms", JInt 1500);
               ("origin", JObj [("cluster", JStr origin); ("node", JNull)])]);
        ("spec",
         JObj [("stages",
                JArr [JObj [("id", JStr "s1");
                            ("compute", JObj [("cpu", JInt 1); ("mem_gb", JInt 1);
                                              ("duration_ms", JInt 800)]);
                            ("constraints", JObj [("arch", JArr [JStr "amd64"]);
                                                  ("formats", JArr [JStr "native"])])]])])].

End Experiments.

(** The stage [s1] of the experiments: one cpu, one GB of memory, no GPU,
    no predecessor. *)
Definition s1_stage (duration : Z) (fmts : list json) : JobStage :=
  {| js_id := "s1";
     js_compute := {| cpu := 1; mem_gb := 1; duration_ms := duration;
                      gpu_vram_gb := 0; workload_type := "cpu_bound" |};
     js_constraints := {| arch := [JStr "amd64"]; formats := fmts;
                          data_locality := JNull;
                          max_latency_to_predecessor_ms := JNull |};
     js_predecessor := JNull |}.

(** A job of the one stage [s1], whose data has an origin. *)
Definition one_stage_job (nm : string) (deadline duration : Z) (cluster : string)
    (node : json) (fmts : list json) : Job :=
  {| job_name := nm;
     job_deadline_ms := deadline;
     job_stages := [s1_stage duration fmts];
     job_origin := Some {| origin_cluster := cluster; origin_node := node |} |}.

(** A node that is up and offers at least one cpu and one GB of memory. *)
Definition fits_one_cpu_one_gb (n : Node) : Prop :=
  available n = true /\ 1 <= allocatable_cpu (k8s n) /\ 1 <= allocatable_mem_gb (k8s n).

(** What the client's offline fallback answers for a job of the single
    stage [stage], of id [s1], under the policy named [strategy],
    [eligible] being the nodes that the policy considers.  With no
    eligible node: [RuntimeError].  With an eligible node, and a format
    for the stage on every eligible node: a plan whose only placement puts
    [s1] on an eligible node, in the format chosen for that node, the
    shadow plan naming the same node under [s1_backup].  With an eligible
    node for which the simulator has no format: the exception that the
    simulator raises for such a node. *)
Definition planned_on (env : Env) (self : DTClient.t) (uuid_hex : string) (k : nat)
    (job_spec : json) (strategy : string) (stage : JobStage) (eligible : Node -> Prop)
  : Prop :=
  let nodes := list_nodes (DTClient._state self) in
  let format_of := choose_exec_format (DTClient._simulator self) stage in
  ((forall n, In n nodes -> ~ eligible n) ->
   DTClient.plan env self uuid_hex k job_spec (JStr strategy)
   = Raise (RuntimeError "no feasible placements found"))
  /\ ((exists n, In n nodes /\ eligible n) ->
      (forall n, In n nodes -> eligible n -> exists fmt, format_of n = Ok fmt) ->
      exists r d n,
        DTClient.plan env self uuid_hex k job_spec (JStr strategy) = Ok r
        /\ placements r !! "s1" = Some d /\ size (placements r) = 1%nat
        /\ shadow_plan r !! "s1_backup" = Some (node_name d)
        /\ size (shadow_plan r) = 1%nat
        /\ In n nodes /\ eligible n
        /\ node_name d = name n /\ format_of n = Ok (exec_format d))
  /\ ((exists n, In n nodes /\ eligible n /\ forall fmt, format_of n <> Ok fmt) ->
      exists n e,
        In n nodes /\ eligible n /\ format_of n = Raise e
        /\ DTClient.plan env self uuid_hex k job_spec (JStr strategy) = Raise e).

(* ===================================================================== *)
(** ** A small fabric used to run the definitions *)
(* ===================================================================== *)

Module Fabric.

Definition mk_node (nm : string) (acpu amem gpu util : Q) (up : bool) : Node :=
  {| name := nm;
     hardware := {| hw_cpu := acpu; hw_memory_gb := amem; hw_gpu_vram_gb := gpu;
                    hw_arch := "amd64" |};
     k8s := {| allocatable_cpu := acpu; allocatable_mem_gb := amem |};
     tel := Some {| cpu_util := util; mem_util := util |};
     available := up |}.

(** Two nodes, one per cluster. *)
Definition n1 : Node := mk_node "n1" 4 8 0 10 true.
Definition n2 : Node := mk_node "n2" 4 8 0 50 true.

Definition st : DTState :=
  {| list_nodes := [n1; n2];
     get_node := fun nm => List.find (fun n => String.eqb (name n) nm) [n1; n2];
     get_cluster := fun nm =>
       if String.eqb nm "n1" then Some "dc-core"
       else if String.eqb nm "n2" then Some "edge-microdc"
       else None |}.

(** [L(a, a) = 0], [L(a, b) = 40] otherwise. *)
Definition cm : ClusterManager :=
  {| get_latency_between := fun a b _ _ => if String.eqb a b then 0 else 40 |}.

(** Every stage takes 100 ms on every node, in the native format; a plan's
    latency is 100 ms per placed stage. *)
Definition simulator : PredictiveSimulator :=
  {| choose_exec_format := fun _ _ => Ok "native";
     compute_stage_latency_ms := fun _ _ _ => 100;
     compute_network_delay_ms := fun a b => if String.eqb (name a) (name b) then 0 else 5;
     score_plan := fun _ pl =>
       {| latency_ms := 100 * inject_Z (Z.of_nat (size pl)); energy_kwh := 0;
          risk_score := 0; sla_violations := 0%Z |} |}.

Definition scorer : ResiliencyScorer := {| compute_node_score := fun _ => 1 |}.

(** Draws of the generator, whatever the parameters: blocks of sixteen
    equal values, 1, 1.1, 1.1, 1 and so on. *)
Definition draws (mean sigma : Q) (i : nat) : Q :=
  match ((i / 16) mod 4)%nat with
  | 0%nat | 3%nat => 1
  | _ => 11 # 10
  end.

(** Arithmetic without rounding. *)
Definition exact : Float64 :=
  {| rnd := fun x => x;
     rnd_le := fun x y H => H;
     rnd_0 := Qeq_refl 0;
     rnd_1 := Qeq_refl 1;
     rnd_default_weights := eq_refl |}.

Definition env : Env :=
  {| str_compound := fun _ => "";
     int_str := fun _ => None;
     arith := exact;
     new_PredictiveSimulator := fun _ => simulator;
     new_ResiliencyScorer := fun _ => scorer;
     seed_state := fun _ => None;
     greedy_place := fun _ _ _ _ => Ok ∅;
     lognormal := draws |}.

Definition stage_spec (sid : string) (ncpu : Z) : json :=
  JObj [("id", JStr sid);
        ("compute", JObj [("cpu", JInt ncpu); ("mem_gb", JInt 1);
                          ("duration_ms", JInt 100)])].

Definition job_spec (origin : list (string * json)) (stage_specs : list json) : json :=
  JObj [("metadata", JObj ([("name", JStr "job-0")] ++ origin));
        ("spec", JObj [("stages", JArr stage_specs)])].

Definition request (strategy : string) (spec : json) : json :=
  JObj [("job", spec); ("strategy", JStr strategy); ("dry_run", JBool true)].

(** Two stages, the second asking for more cpu than any node offers. *)
Definition spec_oversized : json :=
  job_spec [] [stage_spec "s1" 1; stage_spec "s2" 100].

(** One stage that both nodes can take. *)
Definition spec_single : json := job_spec [] [stage_spec "s1" 1].

(** Two stages without predecessor, the job's data being at the edge. *)
Definition spec_two_roots : json :=
  job_spec [("origin", JObj [("cluster", JStr "edge-microdc")])]
           [stage_spec "s1" 1; stage_spec "s2" 1].

(** An origin object with no entry at all. *)
Definition spec_empty_origin : json :=
  job_spec [("origin", JObj [])] [stage_spec "s1" 1].

(** The jobs that [parse_job_spec] makes of these specifications. *)
Definition mk_stage (sid : string) (ncpu : Z) : JobStage :=
  {| js_id := sid;
     js_compute := {| cpu := ncpu; mem_gb := 1; duration_ms := 100; gpu_vram_gb := 0;
                      workload_type := "cpu_bound" |};
     js_constraints := {| arch := [JStr "amd64"]; formats := [JStr "native"];
                          data_locality := JNull;
                          max_latency_to_predecessor_ms := JNull |};
     js_predecessor := JNull |}.

Definition mk_job (origin : option JobOrigin) (stages : list JobStage) : Job :=
  {| job_name := "job-0"; job_deadline_ms := 60000; job_stages := stages;
     job_origin := origin |}.

Definition job_oversized : Job := mk_job None [mk_stage "s1" 1; mk_stage "s2" 100].
Definition job_single : Job := mk_job None [mk_stage "s1" 1].
Definition job_two_roots : Job :=
  mk_job (Some {| origin_cluster := "edge-microdc"; origin_node := JNull |})
         [mk_stage "s1" 1; mk_stage "s2" 1].

(** The decision that places stage [sid] on [n1]. *)
Definition on_n1 (sid : string) : PlacementDecision :=
  {| stage_id := sid; node_name := "n1"; exec_format := "native" |}.



Definition client : DTClient.t :=
  {| DTClient._state := st; DTClient._cluster_manager := Some cm;
     DTClient._simulator := simulator |}.

Definition resilient : ResilientPolicy.t :=
  {| ResilientPolicy.state := st; ResilientPolicy.sim := simulator;
     ResilientPolicy.cluster_manager := Some cm;
     ResilientPolicy.capacity_weight := 3 # 10;
     ResilientPolicy.resiliency_weight := 5 # 10;
     ResilientPolicy.utilization_weight := 2 # 10;
     ResilientPolicy.resiliency_scorer := scorer |}.

Definition cvar : RiskAwareCvarPolicy.t :=
  RiskAwareCvarPolicy.__init__ (fun _ => scorer) st simulator (95 # 100) (6 # 10) (Some cm).

End Fabric.

(* ===================================================================== *)
(** ** More data on the fabric *)
(* ===================================================================== *)

Module Bench.



(** The fabric with both nodes down. *)
Definition n1_down : Node := Fabric.mk_node "n1" 4 8 0 10 false.
Definition n2_down : Node := Fabric.mk_node "n2" 4 8 0 50 false.

Definition st_down : DTState :=
  {| list_nodes := [n1_down; n2_down];
     get_node := fun nm => List.find (fun n => String.eqb (name n) nm) [n1_down; n2_down];
     get_cluster := get_cluster Fabric.st |}.

Definition resilient_down : ResilientPolicy.t :=
  {| ResilientPolicy.state := st_down; ResilientPolicy.sim := Fabric.simulator;
     ResilientPolicy.cluster_manager := Some Fabric.cm;
     ResilientPolicy.capacity_weight := 3 # 10;
     ResilientPolicy.resiliency_weight := 5 # 10;
     ResilientPolicy.utilization_weight := 2 # 10;
     ResilientPolicy.resiliency_scorer := Fabric.scorer |}.

(** Two stages that every node can take. *)
Definition job_two_small : Job :=
  Fabric.mk_job None [Fabric.mk_stage "s1" 1; Fabric.mk_stage "s2" 1].


(** A selector over the fabric, as [PolicySelector(state, simulator,
    cluster_manager)] builds it. *)
Definition selector : PolicySelector.t :=
  {| PolicySelector.policies :=
       <["cvar" := RiskAwareCvar Fabric.cvar]>
         (<["resilient" := Resilient Fabric.resilient]> (<["greedy" := GreedyLatency]> ∅));
     PolicySelector.recent_failures := [];
     PolicySelector.failure_window_seconds := 300;
     PolicySelector.policy_performance := ∅;
     PolicySelector.state := Fabric.st |}.

(** The selector with a failure of [n1] recorded at time 1000 and one of
    [n2] at time 1200. *)
Definition selector_failed : PolicySelector.t :=
  {| PolicySelector.policies := PolicySelector.policies selector;
     PolicySelector.recent_failures :=
       [{| PolicySelector.failure_node := "n1"; PolicySelector.timestamp := 1000 |};
        {| PolicySelector.failure_node := "n2"; PolicySelector.timestamp := 1200 |}];
     PolicySelector.failure_window_seconds := 300;
     PolicySelector.policy_performance := ∅;
     PolicySelector.state := Fabric.st |}.



(** A chaos runner over the fabric; every trial's simulator is the
    fabric's, and the generator returns 1/2 in every trial. *)
Definition runner : ChaosScenarioRunner.t :=
  ChaosScenarioRunner.__init__ Fabric.st Fabric.simulator.

Definition trial_simulator (i : nat) (st : DTState) (failure_rate : Q)
  : PredictiveSimulator := Fabric.simulator.

Definition half (i : nat) : Q := 1 # 2.

(** The plan that places [s1] on [n1]. *)
Definition plan_s1 : gmap string PlacementDecision := {["s1" := Fabric.on_n1 "s1"]}.

(** A simulator that has no format for any stage on [n2], and the client
    and the two policies that hold it. *)
Definition simulator_no_format : PredictiveSimulator :=
  {| choose_exec_format := fun _ n =>
       if String.eqb (name n) "n2" then Raise NoFeasibleFormat else Ok "native";
     compute_stage_latency_ms := compute_stage_latency_ms Fabric.simulator;
     compute_network_delay_ms := compute_network_delay_ms Fabric.simulator;
     score_plan := score_plan Fabric.simulator |}.

Definition client_no_format : DTClient.t :=
  {| DTClient._state := Fabric.st; DTClient._cluster_manager := Some Fabric.cm;
     DTClient._simulator := simulator_no_format |}.

Definition resilient_no_format : ResilientPolicy.t :=
  {| ResilientPolicy.state := Fabric.st; ResilientPolicy.sim := simulator_no_format;
     ResilientPolicy.cluster_manager := Some Fabric.cm;
     ResilientPolicy.capacity_weight := 3 # 10;
     ResilientPolicy.resiliency_weight := 5 # 10;
     ResilientPolicy.utilization_weight := 2 # 10;
     ResilientPolicy.resiliency_scorer := Fabric.scorer |}.

Definition cvar_no_format : RiskAwareCvarPolicy.t :=
  RiskAwareCvarPolicy.__init__ (fun _ => Fabric.scorer) Fabric.st simulator_no_format
    (95 # 100) (6 # 10) (Some Fabric.cm).









End Bench.

(* ===================================================================== *)
(** * Properties *)
(* ===================================================================== *)

(** ** The error monad and comparisons *)

Lemma bind_Ok {A B : Type} (m : result A) (k : A -> result B) (b : B) :
  bind m k = Ok b -> exists a, m = Ok a /\ k a = Ok b.
Proof.
  destruct m as [a|e]; simpl; intros H; [eauto | discriminate].
Qed.

Lemma Qlt_bool_true (x y : Q) : Qlt_bool x y = true <-> x < y.
Proof.
  unfold Qlt_bool. rewrite negb_true_iff. split; intros H.
  - apply Qnot_le_lt. intros Hle. apply Qle_bool_iff in Hle. congruence.
  - destruct (Qle_bool y x) eqn:E; [|reflexivity].
    apply Qle_bool_iff in E. exfalso. apply (Qlt_not_le _ _ H E).
Qed.

Lemma Qlt_bool_false (x y : Q) : Qlt_bool x y = false <-> y <= x.
Proof.
  unfold Qlt_bool. rewrite negb_false_iff. apply Qle_bool_iff.
Qed.

(** Unfolds one [bind] of a hypothesis [H : bind m k = Ok _]. *)
Ltac bind_inv H x Hx :=
  apply bind_Ok in H; destruct H as (x & Hx & H).

(** ** Rounding *)

Lemma rnd_proper {fl : Float64} (x y : Q) : x == y -> rnd x == rnd y.
Proof.
  intros E. apply Qle_antisym; apply rnd_le; rewrite E; apply Qle_refl.
Qed.

#[local] Instance rnd_Proper {fl : Float64} : Proper (Qeq ==> Qeq) rnd.
Proof.
  intros x y E. apply rnd_proper. exact E.
Qed.

Lemma rnd_nonneg {fl : Float64} (x : Q) : 0 <= x -> 0 <= rnd x.
Proof.
  intros H. rewrite <- rnd_0. apply rnd_le. exact H.
Qed.

Lemma rnd_le_1 {fl : Float64} (x : Q) : x <= 1 -> rnd x <= 1.
Proof.
  intros H. rewrite <- rnd_1. apply rnd_le. exact H.
Qed.

(** ** The resilient policy's loops *)

Section ResilientLoops.

Import ResilientPolicy.

Context {fl : Float64}.
Variable self : ResilientPolicy.t.
Variable job : Job.

Lemma scored_unique prev stage n s s' :
  scored self job prev stage n s -> scored self job prev stage n s' -> s = s'.
Proof.
  intros (f & l & Hf & Hl & ->) (f' & l' & Hf' & Hl' & ->).
  rewrite Hf in Hf'. inversion Hf'; subst f'. rewrite Hl in Hl'. inversion Hl'.
  reflexivity.
Qed.

Lemma scan_inv_init prev stage : scan_inv self job prev stage [] best_init.
Proof.
  repeat split; simpl; try discriminate; intros c [].
Qed.

Lemma place_step_inv prev stage seen b node b' :
  scan_inv self job prev stage seen b ->
  place_step self job prev stage b node = Ok b' ->
  scan_inv self job prev stage (seen ++ [node]) b'.
Proof.
  intros (Hnone & Hbest & Hall) Hstep. unfold place_step in Hstep.
  bind_inv Hstep fmt Hfmt. bind_inv Hstep lat Hlat.
  assert (Hsc : scored self job prev stage node (composite self stage node lat))
    by (exists fmt, lat; auto).
  assert (Hnew : scan_inv self job prev stage (seen ++ [node])
                    {| best_node := Some node;
                       best_score := Some (composite self stage node lat);
                       best_format := fmt |} <->
                 (forall c, In c seen -> exists sc, scored self job prev stage c sc
                                                    /\ sc <= composite self stage node lat)).
  { unfold scan_inv; simpl. split.
    - intros (_ & _ & H3) c Hc.
      destruct (H3 c (in_or_app _ _ _ (or_introl Hc))) as (sc & s & Hscc & Hs & Hle).
      inversion Hs; subst s. eauto.
    - intros H. split; [discriminate|]. split.
      + intros n Hn. inversion Hn; subst n. split; [|split; [exact Hfmt|eauto]].
        apply in_or_app; right; left; reflexivity.
      + intros c Hc. apply in_app_or in Hc. destruct Hc as [Hc|[Heq|[]]].
        * destruct (H c Hc) as (sc & Hscc & Hle). eauto.
        * subst c. exists (composite self stage node lat), (composite self stage node lat).
          split; [exact Hsc|]. split; [reflexivity|apply Qle_refl]. }
  destruct (best_score b) as [s|] eqn:Hs.
  - destruct (Qlt_bool s (composite self stage node lat)) eqn:Hcmp;
      inversion Hstep; subst b'; clear Hstep.
    + apply Qlt_bool_true in Hcmp. apply Hnew. intros c Hc.
      destruct (Hall c Hc) as (sc & s0 & Hscc & Hs0 & Hle).
      exists sc. split; [exact Hscc|].
      inversion Hs0; subst s0.
      apply Qlt_le_weak. eapply Qle_lt_trans; eauto.
    + apply Qlt_bool_false in Hcmp. split; [|split].
      * intros Hn. destruct (Hnone Hn) as [_ Hns]. congruence.
      * intros n Hn. destruct (Hbest n Hn) as (Hin & Hf & Hex).
        split; [apply in_or_app; left; exact Hin|]. split; [exact Hf|].
        rewrite Hs. exact Hex.
      * intros c Hc. apply in_app_or in Hc. destruct Hc as [Hc|[Heq|[]]].
        -- rewrite Hs. apply (Hall c Hc).
        -- subst c. exists (composite self stage node lat), s. auto.
  - inversion Hstep; subst b'; clear Hstep. apply Hnew. intros c Hc.
    destruct (Hall c Hc) as (sc & s0 & _ & Hs0 & _). congruence.
Qed.

Lemma place_scan_inv prev stage cands : forall seen b b',
  scan_inv self job prev stage seen b ->
  place_scan self job prev stage b cands = Ok b' ->
  scan_inv self job prev stage (seen ++ cands) b'.
Proof.
  induction cands as [|node rest IH]; intros seen b b' Hinv Hscan; simpl in Hscan.
  - inversion Hscan; subst b'. rewrite app_nil_r. exact Hinv.
  - bind_inv Hscan b1 Hb1.
    replace (seen ++ node :: rest)%list with ((seen ++ [node]) ++ rest)%list
      by (rewrite <- app_assoc; reflexivity).
    eapply IH; [|exact Hscan]. eapply place_step_inv; eauto.
Qed.

(** The inner loop run over all candidates of a stage. *)
Lemma place_scan_best prev stage b :
  place_scan self job prev stage best_init (_candidate_nodes self stage) = Ok b ->
  scan_inv self job prev stage (_candidate_nodes self stage) b.
Proof.
  intros H. apply (place_scan_inv prev stage _ [] best_init b (scan_inv_init prev stage) H).
Qed.

Lemma place_scan_none_iff prev stage b :
  place_scan self job prev stage best_init (_candidate_nodes self stage) = Ok b ->
  (best_node b = None <-> _candidate_nodes self stage = []).
Proof.
  intros H. split.
  - intros Hn. apply place_scan_best in H. destruct H as (Hnone & _ & _).
    apply (Hnone Hn).
  - intros He. rewrite He in H. simpl in H. inversion H. reflexivity.
Qed.

(** The running best is the first of the nodes of greatest score. *)
Lemma place_step_first prev stage seen b node b' :
  match best_node b, best_score b with
  | Some n, Some s => first_of_greatest (scored self job prev stage) seen n s
  | None, None => seen = []
  | _, _ => False
  end ->
  place_step self job prev stage b node = Ok b' ->
  match best_node b', best_score b' with
  | Some n, Some s => first_of_greatest (scored self job prev stage) (seen ++ [node]) n s
  | _, _ => False
  end.
Proof.
  intros Hinv Hstep. unfold place_step in Hstep.
  bind_inv Hstep fmt Hfmt. bind_inv Hstep lat Hlat.
  set (c := composite self stage node lat) in *.
  assert (Hsc : scored self job prev stage node c) by (exists fmt, lat; auto).
  destruct (best_node b) as [n|] eqn:Hn; destruct (best_score b) as [s|] eqn:Hs;
    try contradiction.
  - destruct Hinv as (before & after & Hseen & Hns & Hbefore & Hafter).
    destruct (Qlt_bool s c) eqn:Hcmp; inversion Hstep; subst b'; clear Hstep; simpl.
    + apply Qlt_bool_true in Hcmp.
      exists seen, []. split; [reflexivity|]. split; [exact Hsc|]. split; [|intros x []].
      intros x Hx. rewrite Hseen in Hx. apply in_app_or in Hx.
      destruct Hx as [Hx|[Hx|Hx]].
      * destruct (Hbefore x Hx) as (sc & Hxs & Hlt). exists sc. split; [exact Hxs|].
        eapply Qlt_trans; eauto.
      * subst x. exists s. split; assumption.
      * destruct (Hafter x Hx) as (sc & Hxs & Hle). exists sc. split; [exact Hxs|].
        eapply Qle_lt_trans; eauto.
    + apply Qlt_bool_false in Hcmp. rewrite Hn, Hs.
      exists before, (after ++ [node])%list. split.
      { rewrite Hseen. rewrite <- app_assoc. reflexivity. }
      split; [exact Hns|]. split; [exact Hbefore|].
      intros x Hx. apply in_app_or in Hx. destruct Hx as [Hx|[Hx|[]]].
      * apply Hafter. exact Hx.
      * subst x. exists c. split; assumption.
  - subst seen. inversion Hstep; subst b'; clear Hstep. simpl.
    exists [], []. split; [reflexivity|]. split; [exact Hsc|]. split; intros x [].
Qed.

Lemma place_scan_first prev stage cands : forall seen b b',
  match best_node b, best_score b with
  | Some n, Some s => first_of_greatest (scored self job prev stage) seen n s
  | None, None => seen = []
  | _, _ => False
  end ->
  place_scan self job prev stage b cands = Ok b' ->
  match best_node b', best_score b' with
  | Some n, Some s => first_of_greatest (scored self job prev stage) (seen ++ cands) n s
  | None, None => (seen ++ cands)%list = []
  | _, _ => False
  end.
Proof.
  induction cands as [|node rest IH]; intros seen b b' Hinv Hscan; simpl in Hscan.
  - inversion Hscan; subst b'. rewrite app_nil_r. exact Hinv.
  - bind_inv Hscan b1 Hb1.
    replace (seen ++ node :: rest)%list with ((seen ++ [node]) ++ rest)%list
      by (rewrite <- app_assoc; reflexivity).
    eapply IH; [|exact Hscan].
    pose proof (place_step_first prev stage seen b node b1 Hinv Hb1) as H1.
    destruct (best_node b1); destruct (best_score b1); try contradiction. exact H1.
Qed.

(** What one turn of the outer loop does to the two dictionaries. *)
Lemma place_stages_cons stage rest pl prev :
  place_stages self job (stage :: rest) pl prev
  = (do b <~ place_scan self job prev stage best_init (_candidate_nodes self stage);
     match best_node b with
     | None => place_stages self job rest pl prev
     | Some n =>
         place_stages self job rest
           (<[js_id stage := {| stage_id := js_id stage; node_name := name n;
                                exec_format := best_format b |}]> pl)
           (<[js_id stage := n]> prev)
     end).
Proof. reflexivity. Qed.

Lemma place_stages_app stages1 : forall stages2 pl prev,
  place_stages self job (stages1 ++ stages2) pl prev
  = (do r <~ place_stages self job stages1 pl prev;
     place_stages self job stages2 (fst r) (snd r)).
Proof.
  induction stages1 as [|stage rest IH]; intros stages2 pl prev; [reflexivity|].
  change ((stage :: rest) ++ stages2)%list with (stage :: (rest ++ stages2))%list.
  rewrite !place_stages_cons.
  destruct (place_scan self job prev stage best_init (_candidate_nodes self stage))
    as [b|e]; [|reflexivity].
  cbn [bind]. destruct (best_node b); apply IH.
Qed.

(** A property of every entry that the outer loop writes holds of every
    entry of the mapping it returns. *)
Lemma place_stages_entries (P : string -> PlacementDecision -> Prop) :
  (forall stage prev b n,
      In stage (job_stages job) ->
      place_scan self job prev stage best_init (_candidate_nodes self stage) = Ok b ->
      best_node b = Some n ->
      P (js_id stage) {| stage_id := js_id stage; node_name := name n;
                         exec_format := best_format b |}) ->
  forall stages pl prev res,
    incl stages (job_stages job) ->
    map_Forall P pl ->
    place_stages self job stages pl prev = Ok res ->
    map_Forall P (fst res).
Proof.
  intros HP. induction stages as [|stage rest IH]; intros pl prev res Hincl Hpl Hrun;
    simpl in Hrun.
  - inversion Hrun; subst res. exact Hpl.
  - bind_inv Hrun b Hb.
    assert (Hrest : incl rest (job_stages job)) by (intros x Hx; apply Hincl; right; exact Hx).
    destruct (best_node b) as [n|] eqn:Hn.
    + eapply IH; [exact Hrest| |exact Hrun].
      apply map_Forall_insert_2; [|exact Hpl].
      eapply HP; eauto. apply Hincl. left. reflexivity.
    + eapply IH; eauto.
Qed.

Lemma place_Ok_inv pl :
  place self job = Ok pl ->
  exists prev, place_stages self job (job_stages job) ∅ ∅ = Ok (pl, prev).
Proof.
  unfold place. intros H. bind_inv H r Hr. destruct r as [pl' prev].
  inversion H; subst pl'. exists prev. exact Hr.
Qed.

(** The second dictionary holds the nodes of the decisions of the
    first. *)
Lemma place_stages_nodes stages : forall pl prev res,
  nodes_of_plan pl prev ->
  place_stages self job stages pl prev = Ok res ->
  nodes_of_plan (fst res) (snd res).
Proof.
  induction stages as [|stage rest IH]; intros pl prev res Hn Hrun; simpl in Hrun.
  - inversion Hrun; subst res. exact Hn.
  - bind_inv Hrun b Hb. destruct (best_node b) as [n|]; [|eapply IH; eauto].
    eapply IH; [|exact Hrun]. intros sid.
    destruct (decide (js_id stage = sid)) as [->|Hne].
    + rewrite !lookup_insert_eq. reflexivity.
    + rewrite !lookup_insert_ne by exact Hne. apply Hn.
Qed.

Lemma nodes_of_plan_empty : nodes_of_plan ∅ ∅.
Proof.
  intros sid. rewrite !lookup_empty. exact I.
Qed.

(** Every entry of the mapping was written for the last stage of its id
    that has candidates, and names the first of the candidates of greatest
    score, the dictionaries being what the stages before have made
    them. *)
Lemma place_stages_run stages : forall pl prev,
  place_stages self job stages ∅ ∅ = Ok (pl, prev) ->
  forall sid d, pl !! sid = Some d ->
  exists before stage after pl0 prev0 n s,
    stages = (before ++ stage :: after)%list
    /\ js_id stage = sid
    /\ (forall later, In later after -> js_id later = sid ->
          _candidate_nodes self later = [])
    /\ place_stages self job before ∅ ∅ = Ok (pl0, prev0)
    /\ nodes_of_plan pl0 prev0
    /\ (exists fmt, choose_exec_format (sim self) stage n = Ok fmt
                    /\ d = {| stage_id := sid; node_name := name n; exec_format := fmt |})
    /\ first_of_greatest (scored self job prev0 stage) (_candidate_nodes self stage) n s.
Proof.
  induction stages as [|x l IH] using rev_ind; intros pl prev Hrun sid d Hd.
  - inversion Hrun; subst pl. rewrite lookup_empty in Hd. discriminate.
  - rewrite place_stages_app in Hrun. bind_inv Hrun r Hr. destruct r as [pl1 prev1].
    cbn [fst snd] in Hrun. rewrite place_stages_cons in Hrun. bind_inv Hrun b Hb.
    assert (Hold : pl1 !! sid = Some d ->
              (js_id x = sid -> _candidate_nodes self x = []) ->
              exists before stage after pl0 prev0 n s,
                (l ++ [x])%list = (before ++ stage :: after)%list
                /\ js_id stage = sid
                /\ (forall later, In later after -> js_id later = sid ->
                      _candidate_nodes self later = [])
                /\ place_stages self job before ∅ ∅ = Ok (pl0, prev0)
                /\ nodes_of_plan pl0 prev0
                /\ (exists fmt, choose_exec_format (sim self) stage n = Ok fmt
                                /\ d = {| stage_id := sid; node_name := name n;
                                          exec_format := fmt |})
                /\ first_of_greatest (scored self job prev0 stage)
                     (_candidate_nodes self stage) n s).
    { intros Hd1 Hx.
      destruct (IH pl1 prev1 Hr sid d Hd1)
        as (before & stage & after & pl0 & prev0 & n & s & Hl & Hid & Hlater & Hrest).
      exists before, stage, (after ++ [x])%list, pl0, prev0, n, s.
      split; [rewrite Hl, <- app_assoc; reflexivity|]. split; [exact Hid|].
      split; [|exact Hrest].
      intros later Hin Hlid. apply in_app_or in Hin. destruct Hin as [Hin|[<-|[]]].
      - apply Hlater; assumption.
      - apply Hx. exact Hlid. }
    pose proof (place_scan_none_iff _ _ _ Hb) as Hiff.
    destruct (best_node b) as [n|] eqn:Hn.
    + cbn [place_stages] in Hrun. inversion Hrun; subst pl prev; clear Hrun.
      destruct (decide (js_id x = sid)) as [Heq|Hne].
      * rewrite <- Heq, lookup_insert_eq in Hd. inversion Hd; subst d; clear Hd.
        pose proof (place_scan_first prev1 x _ [] best_init b eq_refl Hb) as Hf.
        rewrite Hn in Hf. destruct (best_score b) as [s|] eqn:Hs; [|contradiction].
        pose proof (place_scan_best _ _ _ Hb) as (_ & Hbest & _).
        destruct (Hbest n Hn) as (_ & Hfmt & _).
        exists l, x, [], pl1, prev1, n, s.
        split; [reflexivity|]. split; [exact Heq|]. split; [intros later []|].
        split; [exact Hr|]. split.
        { apply (place_stages_nodes l ∅ ∅ (pl1, prev1) nodes_of_plan_empty Hr). }
        split; [|exact Hf].
        exists (best_format b). split; [exact Hfmt|]. rewrite Heq. reflexivity.
      * rewrite lookup_insert_ne in Hd by exact Hne. apply Hold; [exact Hd|].
        intros Heq. contradiction.
    + cbn [place_stages] in Hrun. inversion Hrun; subst pl prev; clear Hrun.
      apply Hold; [exact Hd|]. intros _. apply Hiff. reflexivity.
Qed.

End ResilientLoops.

(** ** The CVaR policy's loops *)

Lemma nth_error_snoc {A : Type} (l : list A) (x : A) (j : nat) (c : A) :
  nth_error (l ++ [x]) j = Some c ->
  ((j < length l)%nat /\ nth_error l j = Some c) \/ (j = length l /\ c = x).
Proof.
  intros H. destruct (Nat.lt_ge_cases j (length l)) as [Hlt|Hge].
  - left. split; [exact Hlt|]. rewrite nth_error_app1 in H by exact Hlt. exact H.
  - right. rewrite nth_error_app2 in H by exact Hge.
    destruct (j - length l)%nat as [|m] eqn:Hm.
    + simpl in H. inversion H. split; [lia|reflexivity].
    + simpl in H. destruct m; discriminate.
Qed.

Section CvarLoops.

Import RiskAwareCvarPolicy.

Variable g : Q -> Q -> nat -> Q.
Variable self : RiskAwareCvarPolicy.t.
Variable job : Job.

Lemma sample_loop_map pl : forall runs samples k,
  sample_loop g self job pl runs samples k
  = ((samples ++ List.map (fun i => (latency_ms (score_plan (sim self) job pl)
                                     + origin_lat self job pl) * g 0 (15 # 100) i)
                          (seq k runs))%list, (k + runs)%nat).
Proof.
  induction runs as [|r IH]; intros samples k; simpl.
  - rewrite app_nil_r. f_equal. lia.
  - rewrite IH. rewrite <- app_assoc. simpl. f_equal. lia.
Qed.

Lemma sample_cost_cursor pl runs k c k' :
  _sample_cost g self job pl runs k = Ok (c, k') -> k' = (k + runs)%nat.
Proof.
  unfold _sample_cost. intros H. bind_inv H v Hv. rewrite sample_loop_map in H.
  simpl in H. inversion H. reflexivity.
Qed.

Lemma sampled_unique pl stage kn n fmt a fmt' a' :
  sampled g self job pl stage kn n fmt a -> sampled g self job pl stage kn n fmt' a' ->
  fmt = fmt' /\ a = a'.
Proof.
  intros (Hf & c & Hc & ->) (Hf' & c' & Hc' & ->).
  rewrite Hf in Hf'. inversion Hf'; subst fmt'. rewrite Hc in Hc'. inversion Hc'.
  split; reflexivity.
Qed.

Lemma evaluated_of_snoc stage seen node :
  evaluated_of stage (seen ++ [node])
  = (evaluated_of stage seen ++ if gpu_short stage node then [] else [node])%list.
Proof.
  unfold evaluated_of. rewrite List.filter_app. simpl.
  destruct (gpu_short stage node); reflexivity.
Qed.

Lemma cvar_scan_inv_init pl stage k0 : cvar_scan_inv g self job pl stage k0 [] best_init k0.
Proof.
  split; [simpl; lia|]. split.
  - intros j c H. destruct j; discriminate.
  - simpl. split; reflexivity.
Qed.

Lemma cvar_place_step_inv pl stage k0 seen b k node b' k' :
  cvar_scan_inv g self job pl stage k0 seen b k ->
  place_step g self job pl stage b k node = Ok (b', k') ->
  cvar_scan_inv g self job pl stage k0 (seen ++ [node]) b' k'.
Proof.
  intros Hinv Hstep. unfold place_step in Hstep. unfold cvar_scan_inv.
  rewrite evaluated_of_snoc.
  destruct (gpu_short stage node) eqn:Hgpu.
  { inversion Hstep; subst b' k'. rewrite app_nil_r. exact Hinv. }
  bind_inv Hstep fmt Hfmt. bind_inv Hstep ck Hck. destruct ck as [c kc]. simpl in Hstep.
  pose proof (sample_cost_cursor _ _ _ _ _ Hck) as Hkc. subst kc.
  destruct Hinv as (Hk & Hall & Hbest). subst k.
  set (E := evaluated_of stage seen) in *.
  set (adj := adjusted_cvar self node c) in *.
  assert (Hsm : sampled g self job pl stage (k0 + 16 * length E) node fmt adj).
  { split; [exact Hfmt|]. exists c. split; [exact Hck|reflexivity]. }
  assert (Hk' : k' = (k0 + 16 * length (E ++ [node]))%nat).
  { rewrite length_app. simpl length.
    destruct (best_cvar b) as [a0|]; [destruct (Qlt_bool adj a0)|];
      inversion Hstep; lia. }
  assert (Hall' : forall j x, nth_error (E ++ [node]) j = Some x ->
            exists fc ac, sampled g self job pl stage (k0 + 16 * j) x fc ac).
  { intros j x Hj. apply nth_error_snoc in Hj. destruct Hj as [[_ Hj]|[-> ->]].
    - apply (Hall j x Hj).
    - exists fmt, adj. exact Hsm. }
  assert (Hnew : (forall j x fc ac, nth_error E j = Some x ->
                     sampled g self job pl stage (k0 + 16 * j) x fc ac -> adj < ac) ->
                 exists i n f a,
                   nth_error (E ++ [node]) i = Some n
                   /\ decision_for stage node fmt = decision_for stage n f
                   /\ Some adj = Some a
                   /\ sampled g self job pl stage (k0 + 16 * i) n f a
                   /\ forall j x fc ac,
                        nth_error (E ++ [node]) j = Some x ->
                        sampled g self job pl stage (k0 + 16 * j) x fc ac ->
                        a <= ac /\ ((j < i)%nat -> a < ac)).
  { intros H. exists (length E), node, fmt, adj.
    split; [rewrite nth_error_app2 by lia; rewrite Nat.sub_diag; reflexivity|].
    split; [reflexivity|]. split; [reflexivity|]. split; [exact Hsm|].
    intros j x fc ac Hj Hs. apply nth_error_snoc in Hj. destruct Hj as [[Hlt Hj]|[-> ->]].
    - pose proof (H j x fc ac Hj Hs) as Hlt'. split; [apply Qlt_le_weak; exact Hlt'|].
      intros _. exact Hlt'.
    - destruct (sampled_unique _ _ _ _ _ _ _ _ Hsm Hs) as [_ <-].
      split; [apply Qle_refl|lia]. }
  split; [exact Hk'|]. split; [exact Hall'|].
  destruct (best_dec b) as [d|] eqn:Hd.
  - destruct Hbest as (i & n & f & a & Hi & Hdn & Ha & Hsa & Hleast).
    rewrite Ha in Hstep.
    destruct (Qlt_bool adj a) eqn:Hcmp; inversion Hstep; subst b'; clear Hstep; simpl.
    + apply Qlt_bool_true in Hcmp. apply Hnew. intros j x fc ac Hj Hs.
      destruct (Hleast j x fc ac Hj Hs) as [Hle _]. eapply Qlt_le_trans; eauto.
    + apply Qlt_bool_false in Hcmp. rewrite Hd.
      assert (Hlt : (i < length E)%nat) by (apply nth_error_Some; congruence).
      exists i, n, f, a. split; [rewrite nth_error_app1 by exact Hlt; exact Hi|].
      split; [exact Hdn|]. split; [exact Ha|]. split; [exact Hsa|].
      intros j x fc ac Hj Hs. apply nth_error_snoc in Hj. destruct Hj as [[_ Hj]|[-> ->]].
      * apply (Hleast j x fc ac Hj Hs).
      * destruct (sampled_unique _ _ _ _ _ _ _ _ Hsm Hs) as [_ <-].
        split; [exact Hcmp|lia].
  - destruct Hbest as [HE Hc]. rewrite Hc in Hstep.
    inversion Hstep; subst b'; clear Hstep; simpl.
    apply Hnew. intros j x fc ac Hj _. rewrite HE in Hj. destruct j; discriminate.
Qed.

Lemma cvar_place_scan_inv pl stage k0 cands : forall seen b k b' k',
  cvar_scan_inv g self job pl stage k0 seen b k ->
  place_scan g self job pl stage b k cands = Ok (b', k') ->
  cvar_scan_inv g self job pl stage k0 (seen ++ cands) b' k'.
Proof.
  induction cands as [|node rest IH]; intros seen b k b' k' Hinv Hscan; simpl in Hscan.
  - inversion Hscan; subst b' k'. rewrite app_nil_r. exact Hinv.
  - bind_inv Hscan bk Hbk. destruct bk as [b1 k1]. simpl in Hscan.
    replace (seen ++ node :: rest)%list with ((seen ++ [node]) ++ rest)%list
      by (rewrite <- app_assoc; reflexivity).
    eapply IH; [|exact Hscan]. eapply cvar_place_step_inv; eauto.
Qed.

(** The inner loop run over all candidates of a stage. *)
Lemma cvar_place_scan_best pl stage k b k' :
  place_scan g self job pl stage best_init k (_candidate_nodes self stage) = Ok (b, k') ->
  cvar_scan_inv g self job pl stage k (_candidate_nodes self stage) b k'.
Proof.
  intros H.
  apply (cvar_place_scan_inv pl stage k _ [] best_init k b k'
           (cvar_scan_inv_init pl stage k) H).
Qed.

Lemma cvar_place_scan_cursor pl stage k b k' :
  place_scan g self job pl stage best_init k (_candidate_nodes self stage) = Ok (b, k') ->
  k' = (k + 16 * length (evaluated self stage))%nat.
Proof.
  intros H. apply cvar_place_scan_best in H. destruct H as (Hk & _). exact Hk.
Qed.

Lemma cvar_place_scan_none_iff pl stage k b k' :
  place_scan g self job pl stage best_init k (_candidate_nodes self stage) = Ok (b, k') ->
  (best_dec b = None <-> evaluated self stage = []).
Proof.
  intros H. apply cvar_place_scan_best in H. destruct H as (_ & _ & Hb).
  destruct (best_dec b) as [d|].
  - destruct Hb as (i & n & f & a & Hi & _). split; [discriminate|].
    intros He. unfold evaluated in He. unfold evaluated_of in Hi. rewrite He in Hi.
    destruct i; discriminate.
  - destruct Hb as [He _]. split; [intros _; exact He|reflexivity].
Qed.

Lemma cvar_place_stages_cons stage rest pl k :
  place_stages g self job (stage :: rest) pl k
  = (do bk <~ place_scan g self job pl stage best_init k (_candidate_nodes self stage);
     match best_dec (fst bk) with
     | Some d => place_stages g self job rest (<[js_id stage := d]> pl) (snd bk)
     | None => place_stages g self job rest pl (snd bk)
     end).
Proof. reflexivity. Qed.

Lemma cvar_place_stages_app stages1 : forall stages2 pl k,
  place_stages g self job (stages1 ++ stages2) pl k
  = (do r <~ place_stages g self job stages1 pl k;
     place_stages g self job stages2 (fst r) (snd r)).
Proof.
  induction stages1 as [|stage rest IH]; intros stages2 pl k; [reflexivity|].
  change ((stage :: rest) ++ stages2)%list with (stage :: (rest ++ stages2))%list.
  rewrite !cvar_place_stages_cons.
  destruct (place_scan g self job pl stage best_init k (_candidate_nodes self stage))
    as [bk|e]; [|reflexivity].
  cbn [bind]. destruct (best_dec (fst bk)); apply IH.
Qed.

Lemma cvar_place_stages_entries (P : string -> PlacementDecision -> Prop) :
  (forall stage pl k b k' d,
      In stage (job_stages job) ->
      place_scan g self job pl stage best_init k (_candidate_nodes self stage) = Ok (b, k') ->
      best_dec b = Some d ->
      P (js_id stage) d) ->
  forall stages pl k res k',
    incl stages (job_stages job) ->
    map_Forall P pl ->
    place_stages g self job stages pl k = Ok (res, k') ->
    map_Forall P res.
Proof.
  intros HP. induction stages as [|stage rest IH]; intros pl k res k' Hincl Hpl Hrun;
    simpl in Hrun.
  - inversion Hrun; subst res k'. exact Hpl.
  - bind_inv Hrun bk Hbk. destruct bk as [b k1]. simpl in Hrun.
    assert (Hrest : incl rest (job_stages job)) by (intros x Hx; apply Hincl; right; exact Hx).
    destruct (best_dec b) as [d|] eqn:Hd.
    + eapply IH; [exact Hrest| |exact Hrun].
      apply map_Forall_insert_2; [|exact Hpl].
      eapply HP; eauto. apply Hincl. left. reflexivity.
    + eapply IH; eauto.
Qed.

(** Every entry of the mapping was written for the last stage of its id
    that has a node to evaluate, and is the decision for the evaluated node
    of least adjusted cost, the earlier one when two are equal; the
    placements and the cursor are what the stages before have made
    them. *)
Lemma cvar_place_stages_run stages : forall k pl k',
  place_stages g self job stages ∅ k = Ok (pl, k') ->
  forall sid d, pl !! sid = Some d ->
  exists before stage after pl0 k0 i n fmt a,
    stages = (before ++ stage :: after)%list
    /\ js_id stage = sid
    /\ (forall later, In later after -> js_id later = sid -> evaluated self later = [])
    /\ place_stages g self job before ∅ k = Ok (pl0, k0)
    /\ nth_error (evaluated self stage) i = Some n
    /\ d = decision_for stage n fmt
    /\ sampled g self job pl0 stage (k0 + 16 * i) n fmt a
    /\ (forall j c, nth_error (evaluated self stage) j = Some c ->
          exists fc ac, sampled g self job pl0 stage (k0 + 16 * j) c fc ac
                        /\ a <= ac /\ ((j < i)%nat -> a < ac)).
Proof.
  induction stages as [|x l IH] using rev_ind; intros k pl k' Hrun sid d Hd.
  - inversion Hrun; subst pl. rewrite lookup_empty in Hd. discriminate.
  - rewrite cvar_place_stages_app in Hrun. bind_inv Hrun r Hr. destruct r as [pl1 k1].
    cbn [fst snd] in Hrun. rewrite cvar_place_stages_cons in Hrun. bind_inv Hrun bk Hbk.
    destruct bk as [b k2]. cbn [fst snd] in Hrun.
    assert (Hold : pl1 !! sid = Some d ->
              (js_id x = sid -> evaluated self x = []) ->
              exists before stage after pl0 k0 i n fmt a,
                (l ++ [x])%list = (before ++ stage :: after)%list
                /\ js_id stage = sid
                /\ (forall later, In later after -> js_id later = sid ->
                      evaluated self later = [])
                /\ place_stages g self job before ∅ k = Ok (pl0, k0)
                /\ nth_error (evaluated self stage) i = Some n
                /\ d = decision_for stage n fmt
                /\ sampled g self job pl0 stage (k0 + 16 * i) n fmt a
                /\ (forall j c, nth_error (evaluated self stage) j = Some c ->
                      exists fc ac, sampled g self job pl0 stage (k0 + 16 * j) c fc ac
                                    /\ a <= ac /\ ((j < i)%nat -> a < ac))).
    { intros Hd1 Hx.
      destruct (IH k pl1 k1 Hr sid d Hd1)
        as (before & stage & after & pl0 & k0 & i & n & fmt & a & Hl & Hid & Hlater & Hrest).
      exists before, stage, (after ++ [x])%list, pl0, k0, i, n, fmt, a.
      split; [rewrite Hl, <- app_assoc; reflexivity|]. split; [exact Hid|].
      split; [|exact Hrest].
      intros later Hin Hlid. apply in_app_or in Hin. destruct Hin as [Hin|[<-|[]]].
      - apply Hlater; assumption.
      - apply Hx. exact Hlid. }
    pose proof (cvar_place_scan_none_iff _ _ _ _ _ Hbk) as Hiff.
    pose proof (cvar_place_scan_best _ _ _ _ _ Hbk) as (_ & Hall & Hbest).
    destruct (best_dec b) as [d0|] eqn:Hd0.
    + cbn [place_stages] in Hrun. inversion Hrun; subst pl k'; clear Hrun.
      destruct (decide (js_id x = sid)) as [Heq|Hne].
      * rewrite <- Heq, lookup_insert_eq in Hd. inversion Hd; subst d0; clear Hd.
        destruct Hbest as (i & n & fmt & a & Hi & Hdn & _ & Hsa & Hleast).
        exists l, x, [], pl1, k1, i, n, fmt, a.
        split; [reflexivity|]. split; [exact Heq|]. split; [intros later []|].
        split; [exact Hr|]. split; [exact Hi|]. split; [exact Hdn|]. split; [exact Hsa|].
        intros j c Hj. destruct (Hall j c Hj) as (fc & ac & Hs).
        exists fc, ac. split; [exact Hs|]. apply (Hleast j c fc ac Hj Hs).
      * rewrite lookup_insert_ne in Hd by exact Hne. apply Hold; [exact Hd|].
        intros Heq. contradiction.
    + cbn [place_stages] in Hrun. inversion Hrun; subst pl k'; clear Hrun.
      apply Hold; [exact Hd|]. intros _. apply Hiff. reflexivity.
Qed.

End CvarLoops.

(** ** Candidate sets and placed nodes *)

Lemma resilient_candidate_ok_iff (stage : JobStage) (node : Node) :
  ResilientPolicy.candidate_ok stage node = true <->
  available node = true
  /\ ((0 < gpu_vram_gb (js_compute stage))%Z ->
      inject_Z (gpu_vram_gb (js_compute stage)) <= hw_gpu_vram_gb (hardware node))
  /\ inject_Z (cpu (js_compute stage)) <= allocatable_cpu (k8s node)
  /\ inject_Z (mem_gb (js_compute stage)) <= allocatable_mem_gb (k8s node).
Proof.
  unfold ResilientPolicy.candidate_ok.
  destruct (available node); simpl; [|intuition discriminate].
  destruct (0 <? gpu_vram_gb (js_compute stage))%Z eqn:Hg; simpl.
  - apply Z.ltb_lt in Hg.
    destruct (Qlt_bool (hw_gpu_vram_gb (hardware node)) _) eqn:H1.
    { apply Qlt_bool_true in H1. split; [discriminate|].
      intros (_ & H & _). specialize (H Hg). exfalso. apply (Qlt_not_le _ _ H1 H). }
    apply Qlt_bool_false in H1.
    destruct (Qlt_bool (allocatable_cpu (k8s node)) _) eqn:H2.
    { apply Qlt_bool_true in H2. split; [discriminate|].
      intros (_ & _ & H & _). exfalso. apply (Qlt_not_le _ _ H2 H). }
    apply Qlt_bool_false in H2.
    destruct (Qlt_bool (allocatable_mem_gb (k8s node)) _) eqn:H3.
    { apply Qlt_bool_true in H3. split; [discriminate|].
      intros (_ & _ & _ & H). exfalso. apply (Qlt_not_le _ _ H3 H). }
    apply Qlt_bool_false in H3. intuition.
  - apply Z.ltb_ge in Hg.
    destruct (Qlt_bool (allocatable_cpu (k8s node)) _) eqn:H2.
    { apply Qlt_bool_true in H2. split; [discriminate|].
      intros (_ & _ & H & _). exfalso. apply (Qlt_not_le _ _ H2 H). }
    apply Qlt_bool_false in H2.
    destruct (Qlt_bool (allocatable_mem_gb (k8s node)) _) eqn:H3.
    { apply Qlt_bool_true in H3. split; [discriminate|].
      intros (_ & _ & _ & H). exfalso. apply (Qlt_not_le _ _ H3 H). }
    apply Qlt_bool_false in H3. split; [|reflexivity]. intros _.
    split; [reflexivity|]. split; [lia|]. split; assumption.
Qed.

Lemma cvar_gpu_short_false (stage : JobStage) (node : Node) :
  RiskAwareCvarPolicy.gpu_short stage node = false ->
  (0 < gpu_vram_gb (js_compute stage))%Z ->
  inject_Z (gpu_vram_gb (js_compute stage)) <= hw_gpu_vram_gb (hardware node).
Proof.
  unfold RiskAwareCvarPolicy.gpu_short. intros H Hg.
  apply Z.ltb_lt in Hg. rewrite Hg in H. simpl in H.
  apply Qlt_bool_false in H. exact H.
Qed.

(** C5: the resilient policy's candidates of a stage are exactly the
    available nodes of the snapshot that meet the stage's GPU demand and
    whose allocatable cpu and memory are at least the stage's cpu and
    mem_gb, so every candidate passes the two allocatable tests; the CVaR
    policy's candidates are exactly the available nodes of the snapshot,
    whatever their allocatable cpu and memory. *)
Theorem C5_candidate_sets (rp : ResilientPolicy.t) (cp : RiskAwareCvarPolicy.t)
    (stage : JobStage) (node : Node) :
  (In node (ResilientPolicy._candidate_nodes rp stage) <->
     In node (list_nodes (ResilientPolicy.state rp))
     /\ available node = true
     /\ ((0 < gpu_vram_gb (js_compute stage))%Z ->
         inject_Z (gpu_vram_gb (js_compute stage)) <= hw_gpu_vram_gb (hardware node))
     /\ inject_Z (cpu (js_compute stage)) <= allocatable_cpu (k8s node)
     /\ inject_Z (mem_gb (js_compute stage)) <= allocatable_mem_gb (k8s node))
  /\ (In node (RiskAwareCvarPolicy._candidate_nodes cp stage) <->
        In node (list_nodes (RiskAwareCvarPolicy.state cp)) /\ available node = true).
Proof.
  split.
  - unfold ResilientPolicy._candidate_nodes. rewrite filter_In.
    rewrite resilient_candidate_ok_iff. reflexivity.
  - unfold RiskAwareCvarPolicy._candidate_nodes. rewrite filter_In. reflexivity.
Qed.

Lemma resilient_place_valid {fl : Float64} (rp : ResilientPolicy.t) (job : Job)
    (pl : gmap string PlacementDecision) :
  ResilientPolicy.place rp job = Ok pl ->
  map_Forall (decision_valid (list_nodes (ResilientPolicy.state rp)) (job_stages job)) pl.
Proof.
  intros H. apply place_Ok_inv in H. destruct H as [prev H].
  apply (place_stages_entries rp job
           (decision_valid (list_nodes (ResilientPolicy.state rp)) (job_stages job)))
    with (stages := job_stages job) (pl := ∅) (prev := ∅) (res := (pl, prev));
    [| |apply map_Forall_empty|exact H].
  - intros stage prev0 b n Hin Hscan Hn.
    apply place_scan_best in Hscan. destruct Hscan as (_ & Hbest & _).
    destruct (Hbest n Hn) as (Hcand & _).
    unfold ResilientPolicy._candidate_nodes in Hcand. apply filter_In in Hcand.
    destruct Hcand as [Hnode Hok]. apply resilient_candidate_ok_iff in Hok.
    destruct Hok as (Hav & Hgpu & _).
    exists stage, n. simpl. repeat split; auto.
  - intros x Hx. exact Hx.
Qed.

Lemma evaluated_In (cp : RiskAwareCvarPolicy.t) (stage : JobStage) (i : nat) (n : Node) :
  nth_error (evaluated cp stage) i = Some n ->
  In n (list_nodes (RiskAwareCvarPolicy.state cp)) /\ available n = true
  /\ RiskAwareCvarPolicy.gpu_short stage n = false.
Proof.
  intros H. apply nth_error_In in H. unfold evaluated in H. apply filter_In in H.
  destruct H as [Hc Hg]. unfold RiskAwareCvarPolicy._candidate_nodes in Hc.
  apply filter_In in Hc. destruct Hc as [Hn Ha].
  split; [exact Hn|]. split; [exact Ha|]. apply negb_true_iff. exact Hg.
Qed.

Lemma cvar_place_valid (g : Q -> Q -> nat -> Q) (cp : RiskAwareCvarPolicy.t) (job : Job)
    (k : nat) (pl : gmap string PlacementDecision) (k' : nat) :
  RiskAwareCvarPolicy.place g cp job k = Ok (pl, k') ->
  map_Forall (decision_valid (list_nodes (RiskAwareCvarPolicy.state cp)) (job_stages job)) pl.
Proof.
  intros H. unfold RiskAwareCvarPolicy.place in H.
  eapply (cvar_place_stages_entries g cp job); [| |apply map_Forall_empty|exact H].
  - intros stage pl0 k0 b k1 d Hin Hscan Hd.
    apply cvar_place_scan_best in Hscan. destruct Hscan as (_ & _ & Hbest).
    rewrite Hd in Hbest. destruct Hbest as (i & n & fmt & a & Hi & -> & _).
    destruct (evaluated_In cp stage i n Hi) as (Hnode & Hav & Hgpu).
    exists stage, n. simpl. repeat split; auto.
    apply cvar_gpu_short_false. exact Hgpu.
  - intros x Hx. exact Hx.
Qed.

(** C2: in every mapping that [place] of the resilient policy or of the
    CVaR policy returns, each decision is stored under the id of a stage of
    the job, and names a node of the state snapshot that is available and
    whose GPU memory is at least that stage's [gpu_vram_gb] whenever the
    stage asks for any. *)
Theorem C2_placed_nodes_available_and_gpu_fit :
  (forall (fl : Float64) (rp : ResilientPolicy.t) (job : Job)
          (pl : gmap string PlacementDecision),
      ResilientPolicy.place rp job = Ok pl ->
      forall sid d, pl !! sid = Some d ->
        decision_valid (list_nodes (ResilientPolicy.state rp)) (job_stages job) sid d)
  /\ (forall (g : Q -> Q -> nat -> Q) (cp : RiskAwareCvarPolicy.t) (job : Job) (k : nat)
             (pl : gmap string PlacementDecision) (k' : nat),
        RiskAwareCvarPolicy.place g cp job k = Ok (pl, k') ->
        forall sid d, pl !! sid = Some d ->
          decision_valid (list_nodes (RiskAwareCvarPolicy.state cp)) (job_stages job) sid d).
Proof.
  split.
  - intros fl rp job pl H sid d Hd. exact (resilient_place_valid rp job pl H sid d Hd).
  - intros g cp job k pl k' H sid d Hd. exact (cvar_place_valid g cp job k pl k' H sid d Hd).
Qed.

(** ** The resilient policy's composite score *)

Section ResilientScore.

Context {fl : Float64}.

Lemma isclose_eq (x : Q) : x == 1 -> isclose x 1 = true.
Proof.
  intros Hx. unfold isclose.
  assert (H : Qeq_bool x 1 = true) by (apply Qeq_bool_iff; exact Hx).
  rewrite H. reflexivity.
Qed.

Lemma resilient_origin_latency (self : ResilientPolicy.t) (job : Job) (node : Node) :
  ResilientPolicy._compute_origin_latency self job node
  = origin_delay (ResilientPolicy.state self) (ResilientPolicy.cluster_manager self) job node.
Proof.
  unfold ResilientPolicy._compute_origin_latency, origin_delay.
  destruct (job_origin job) as [o|]; [|reflexivity].
  destruct (ResilientPolicy.cluster_manager self) as [m|]; [|reflexivity].
  destruct (get_cluster (ResilientPolicy.state self) (name node)) as [c|]; [|reflexivity].
  destruct (String.eqb c ""); reflexivity.
Qed.

Lemma predecessor_node_placed (prev : gmap string Node) (stage : JobStage) (p : option Node) :
  predecessor_node (js_predecessor stage) prev = Ok p ->
  p = placed_predecessor prev stage.
Proof.
  unfold predecessor_node, placed_predecessor.
  destruct (js_predecessor stage) as [| b | z | q | s | l | kv]; simpl;
    try (intros H; inversion H; reflexivity).
  - destruct b; intros H; inversion H; reflexivity.
  - destruct (z =? 0)%Z; intros H; inversion H; reflexivity.
  - destruct (Qeq_bool q 0); intros H; inversion H; reflexivity.
  - destruct s as [|a s']; simpl; intros H; inversion H; reflexivity.
  - destruct l; simpl; intros H; inversion H; reflexivity.
  - destruct kv; simpl; intros H; inversion H; reflexivity.
Qed.

Lemma candidate_latency_spec (self : ResilientPolicy.t) (job : Job)
    (prev : gmap string Node) (stage : JobStage) (node : Node) (fmt : string) (lat : Q) :
  ResilientPolicy.candidate_latency_ms self job prev stage node fmt = Ok lat ->
  lat = latency_spec self job prev stage node fmt.
Proof.
  unfold ResilientPolicy.candidate_latency_ms, latency_spec. intros H.
  bind_inv H p Hp. apply predecessor_node_placed in Hp. subst p.
  inversion H; clear H. unfold has_predecessor, has_origin.
  rewrite resilient_origin_latency.
  destruct (job_origin job); destruct (truthy (js_predecessor stage)); reflexivity.
Qed.

Lemma score_capacity_fit_spec (stage : JobStage) (node : Node) :
  ResilientPolicy._score_capacity_fit stage node = capacity_fit stage node.
Proof.
  unfold ResilientPolicy._score_capacity_fit, capacity_fit, cpu_margin, mem_margin, Qlt_bool.
  destruct (Qle_bool (allocatable_cpu (k8s node)) 0);
    destruct (Qle_bool (allocatable_mem_gb (k8s node)) 0); reflexivity.
Qed.

Lemma utilization_score_spec (node : Node) :
  ResilientPolicy._utilization_score node = utilization_headroom node.
Proof.
  unfold ResilientPolicy._utilization_score, utilization_headroom, utilization_headroom_spec.
  destruct (tel node); reflexivity.
Qed.

Lemma composite_is_spec (self : ResilientPolicy.t) (stage : JobStage) (node : Node) (lat : Q) :
  ResilientPolicy.composite self stage node lat
  = composite_spec (ResilientPolicy.capacity_weight self)
      (ResilientPolicy.resiliency_weight self)
      (ResilientPolicy.utilization_weight self)
      (capacity_fit stage node)
      (compute_node_score (ResilientPolicy.resiliency_scorer self) (name node))
      (utilization_headroom node) lat.
Proof.
  unfold ResilientPolicy.composite, composite_spec.
  rewrite score_capacity_fit_spec, utilization_score_spec. reflexivity.
Qed.

Lemma margin_le_1 (d : Z) (alloc : Q) :
  0 < alloc -> (0 <= d)%Z -> rnd (1 - rnd (rnd (inject_Z d) / alloc)) <= 1.
Proof.
  intros Ha Hd. apply rnd_le_1.
  assert (H : 0 <= rnd (rnd (inject_Z d) / alloc)).
  { apply rnd_nonneg. apply Qle_shift_div_l; [exact Ha|]. rewrite Qmult_0_l.
    apply rnd_nonneg. change 0 with (inject_Z 0). rewrite <- Zle_Qle. exact Hd. }
  lra.
Qed.



Lemma scored_resilient (self : ResilientPolicy.t) (job : Job) (prev : gmap string Node)
    (stage : JobStage) (n : Node) (s : Q) :
  scored self job prev stage n s -> resilient_scored self job prev stage n s.
Proof.
  intros (fmt & lat & Hf & Hl & ->). exists fmt. split; [exact Hf|].
  apply candidate_latency_spec in Hl. subst lat. apply composite_is_spec.
Qed.

Lemma first_of_greatest_impl (score score' : Node -> Q -> Prop) (cands : list Node)
    (n : Node) (s : Q) :
  (forall c sc, score c sc -> score' c sc) ->
  first_of_greatest score cands n s -> first_of_greatest score' cands n s.
Proof.
  intros Himp (before & after & Hc & Hn & Hb & Ha).
  exists before, after. split; [exact Hc|]. split; [apply Himp; exact Hn|]. split.
  - intros c Hin. destruct (Hb c Hin) as (sc & Hsc & Hlt). eauto.
  - intros c Hin. destruct (Ha c Hin) as (sc & Hsc & Hle). eauto.
Qed.

Lemma first_of_greatest_greatest (score : Node -> Q -> Prop) (cands : list Node)
    (n : Node) (s : Q) :
  first_of_greatest score cands n s -> greatest score cands n s.
Proof.
  intros (before & after & Hc & Hn & Hb & Ha). split; [|split; [exact Hn|]].
  - rewrite Hc. apply in_or_app. right. left. reflexivity.
  - intros c Hin. rewrite Hc in Hin. apply in_app_or in Hin.
    destruct Hin as [Hin|[<-|Hin]].
    + destruct (Hb c Hin) as (sc & Hsc & Hlt). exists sc. split; [exact Hsc|].
      apply Qlt_le_weak. exact Hlt.
    + exists s. split; [exact Hn|apply Qle_refl].
    + apply (Ha c Hin).
Qed.


(** Every entry of the mapping that [place] returns names the first of
    the candidates of greatest score of the stage it was written for. *)
Lemma resilient_place_first (self : ResilientPolicy.t) (job : Job)
    (pl : gmap string PlacementDecision) (sid : string) (d : PlacementDecision) :
  ResilientPolicy.place self job = Ok pl -> pl !! sid = Some d ->
  resilient_placed self job first_of_greatest sid d.
Proof.
  intros Hpl Hd. apply place_Ok_inv in Hpl. destruct Hpl as [prev Hrun].
  destruct (place_stages_run self job (job_stages job) pl prev Hrun sid d Hd)
    as (before & stage & after & pl0 & prev0 & n & s & Hst & Hid & Hlater & Hrun0 & Hnodes
        & (fmt & Hfmt & Hdn) & Hfirst).
  exists before, stage, after, pl0, prev0, n, fmt.
  repeat (split; [assumption|]).
  apply (first_of_greatest_impl _ (resilient_scored self job prev0 stage)) in Hfirst;
    [|intros c sc; apply scored_resilient].
  assert (Hs : s = resilient_score self job prev0 stage n fmt).
  { destruct Hfirst as (_ & _ & _ & (fmt' & Hf' & Hs) & _).
    rewrite Hfmt in Hf'. inversion Hf'; subst fmt'. exact Hs. }
  rewrite <- Hs. exact Hfirst.
Qed.

Lemma init_weights new_scorer st simulator cm (cw rw uw : Q) :
  let total := rnd (rnd (cw + rw) + uw) in
  (isclose total 1 = true ->
     ResilientPolicy.__init__ new_scorer st simulator cm cw rw uw
     = Ok {| ResilientPolicy.state := st; ResilientPolicy.sim := simulator;
             ResilientPolicy.cluster_manager := cm;
             ResilientPolicy.capacity_weight := cw;
             ResilientPolicy.resiliency_weight := rw;
             ResilientPolicy.utilization_weight := uw;
             ResilientPolicy.resiliency_scorer := new_scorer st |})
  /\ (isclose total 1 = false -> ~ total == 0 ->
     ResilientPolicy.__init__ new_scorer st simulator cm cw rw uw
     = Ok {| ResilientPolicy.state := st; ResilientPolicy.sim := simulator;
             ResilientPolicy.cluster_manager := cm;
             ResilientPolicy.capacity_weight := rnd (cw / total);
             ResilientPolicy.resiliency_weight := rnd (rw / total);
             ResilientPolicy.utilization_weight := rnd (uw / total);
             ResilientPolicy.resiliency_scorer := new_scorer st |})
  /\ (isclose total 1 = false -> total == 0 ->
     ResilientPolicy.__init__ new_scorer st simulator cm cw rw uw = Raise ZeroDivisionError).
Proof.
  intros total. unfold ResilientPolicy.__init__, ResilientPolicy.normalize_weights.
  fold total. split; [|split].
  - intros H. rewrite H. reflexivity.
  - intros H Hz. rewrite H. simpl.
    destruct (Qeq_bool total 0) eqn:E; [apply Qeq_bool_iff in E; contradiction|].
    reflexivity.
  - intros H Hz. rewrite H. simpl.
    apply Qeq_bool_iff in Hz. rewrite Hz. reflexivity.
Qed.

(** The constructor called with the default weights keeps them. *)
Lemma init_default_weights new_scorer st simulator cm :
  ResilientPolicy.__init__ new_scorer st simulator cm (rnd (3 # 10)) (rnd (5 # 10))
                           (rnd (2 # 10))
  = Ok {| ResilientPolicy.state := st; ResilientPolicy.sim := simulator;
          ResilientPolicy.cluster_manager := cm;
          ResilientPolicy.capacity_weight := rnd (3 # 10);
          ResilientPolicy.resiliency_weight := rnd (5 # 10);
          ResilientPolicy.utilization_weight := rnd (2 # 10);
          ResilientPolicy.resiliency_scorer := new_scorer st |}.
Proof.
  apply init_weights. apply isclose_eq. apply rnd_default_weights.
Qed.

End ResilientScore.


(** ** Sorting and the quantile *)

Lemma insert_sorted_perm (x : Q) (l : list Q) : Permutation (insert_sorted x l) (x :: l).
Proof.
  induction l as [|y r IH]; simpl.
  - reflexivity.
  - destruct (Qle_bool x y); [reflexivity|].
    rewrite IH. apply perm_swap.
Qed.

Lemma sort_perm (l : list Q) : Permutation (sort l) l.
Proof.
  induction l as [|x r IH]; simpl.
  - reflexivity.
  - rewrite insert_sorted_perm. apply perm_skip. exact IH.
Qed.

Lemma insert_sorted_sorted (x : Q) (l : list Q) :
  StronglySorted Qle l -> StronglySorted Qle (insert_sorted x l).
Proof.
  induction 1 as [|y r Hr IH Hy]; simpl.
  - constructor; constructor.
  - destruct (Qle_bool x y) eqn:E.
    + apply Qle_bool_iff in E. constructor; [constructor; assumption|].
      constructor; [exact E|].
      eapply List.Forall_impl; [|exact Hy]. intros z Hz. eapply Qle_trans; eauto.
    + assert (Hyx : y <= x).
      { apply Qlt_le_weak. apply Qlt_bool_true. unfold Qlt_bool. rewrite E. reflexivity. }
      constructor; [exact IH|].
      eapply Permutation_Forall; [symmetry; apply insert_sorted_perm|].
      constructor; assumption.
Qed.

Lemma sort_sorted (l : list Q) : StronglySorted Qle (sort l).
Proof.
  induction l as [|x r IH]; simpl.
  - constructor.
  - apply insert_sorted_sorted. exact IH.
Qed.

Lemma sorted_last_greatest (a : list Q) (d : Q) :
  StronglySorted Qle a -> forall s, In s a -> s <= nth (length a - 1) a d.
Proof.
  induction 1 as [|y r Hr IH Hy]; intros s Hs; [destruct Hs|].
  destruct r as [|z r'].
  - destruct Hs as [<-|[]]. simpl. apply Qle_refl.
  - assert (Hidx : (length (y :: z :: r') - 1 = S (length (z :: r') - 1))%nat)
      by (simpl; lia).
    rewrite Hidx. change (nth (S ?n) (y :: ?r) d) with (nth n r d).
    destruct Hs as [<-|Hs].
    + rewrite List.Forall_forall in Hy. apply Hy. apply nth_In. simpl. lia.
    + apply IH. exact Hs.
Qed.

Lemma sorted_head_least (x : Q) (r : list Q) :
  StronglySorted Qle (x :: r) -> forall s, In s (x :: r) -> x <= s.
Proof.
  intros H s Hs. inversion H as [|? ? _ Hall]; subst.
  destruct Hs as [<-|Hs]; [apply Qle_refl|].
  rewrite List.Forall_forall in Hall. apply Hall. exact Hs.
Qed.

Lemma Qsum_const (q : Q) (l : list Q) :
  (forall s, In s l -> s == q) -> Qsum l == inject_Z (Z.of_nat (length l)) * q.
Proof.
  induction l as [|x r IH]; intros H.
  - simpl. ring.
  - change (Qsum (x :: r)) with (x + Qsum r).
    rewrite IH by (intros s Hs; apply H; right; exact Hs).
    rewrite (H x) by (left; reflexivity).
    cbn [length]. rewrite Nat2Z.inj_succ. unfold Z.succ. rewrite inject_Z_plus. ring.
Qed.

Lemma filter_all {A : Type} (f : A -> bool) (l : list A) :
  (forall x, In x l -> f x = true) -> List.filter f l = l.
Proof.
  induction l as [|x r IH]; intros H; simpl; [reflexivity|].
  rewrite (H x) by (left; reflexivity). f_equal. apply IH.
  intros y Hy. apply H. right. exact Hy.
Qed.

(** At level 1 the quantile is the greatest sample. *)
Lemma quantile_at_one (samples : list Q) (a m : Q) :
  a == 1 -> is_max m samples -> exists q, quantile samples a = Ok q /\ q == m.
Proof.
  intros Ha [Hin Hmax]. unfold quantile.
  assert (Hr : (Qle_bool 0 a && Qle_bool a 1)%bool = true).
  { apply andb_true_iff. split; apply Qle_bool_iff; rewrite Ha; discriminate. }
  rewrite Hr.
  pose proof (sort_perm samples) as Hp. pose proof (sort_sorted samples) as Hs.
  destruct (sort samples) as [|x r] eqn:Hsort.
  { apply Permutation_nil in Hp. subst samples. destruct Hin. }
  set (l := x :: r) in *. eexists. split; [reflexivity|].
  assert (Hfl : Qfloor (a * inject_Z (Z.of_nat (length l - 1))) = Z.of_nat (length l - 1)).
  { rewrite <- (Qfloor_Z (Z.of_nat (length l - 1))) at 2. apply Qfloor_comp.
    rewrite Ha. apply Qmult_1_l. }
  rewrite Hfl, Nat2Z.id.
  assert (Hhi : Nat.min (S (length l - 1)) (length l - 1) = (length l - 1)%nat) by lia.
  rewrite Hhi.
  assert (Hq : nth (length l - 1) l x
               + (nth (length l - 1) l x - nth (length l - 1) l x)
                 * (a * inject_Z (Z.of_nat (length l - 1)) - inject_Z (Z.of_nat (length l - 1)))
               == nth (length l - 1) l x) by ring.
  rewrite Hq. apply Qle_antisym.
  - apply Hmax. apply (Permutation_in _ Hp). apply nth_In. unfold l. simpl. lia.
  - apply sorted_last_greatest; [exact Hs|].
    apply (Permutation_in _ (Permutation_sym Hp)). exact Hin.
Qed.

Lemma quantile_one (samples : list Q) (m : Q) :
  is_max m samples -> exists q, quantile samples 1 = Ok q /\ q == m.
Proof.
  apply quantile_at_one. reflexivity.
Qed.

(** At level 0 the quantile is at most every sample. *)
Lemma quantile_at_zero (samples : list Q) (a : Q) :
  a == 0 -> samples <> [] ->
  exists q, quantile samples a = Ok q /\ forall s, In s samples -> q <= s.
Proof.
  intros Ha Hne. unfold quantile.
  assert (Hr : (Qle_bool 0 a && Qle_bool a 1)%bool = true).
  { apply andb_true_iff. split; apply Qle_bool_iff; rewrite Ha; discriminate. }
  rewrite Hr.
  pose proof (sort_perm samples) as Hp. pose proof (sort_sorted samples) as Hs.
  destruct (sort samples) as [|x r] eqn:Hsort.
  { apply Permutation_nil in Hp. contradiction. }
  set (l := x :: r) in *. eexists. split; [reflexivity|].
  assert (Hz : a * inject_Z (Z.of_nat (length l - 1)) == inject_Z 0).
  { rewrite Ha. apply Qmult_0_l. }
  assert (Hfl : Qfloor (a * inject_Z (Z.of_nat (length l - 1))) = 0%Z).
  { rewrite (Qfloor_comp _ _ Hz). apply Qfloor_Z. }
  rewrite Hfl. change (Z.to_nat 0) with 0%nat.
  intros s Hin.
  assert (Hq : nth 0 l x + (nth (Nat.min 1 (length l - 1)) l x - nth 0 l x)
                 * (a * inject_Z (Z.of_nat (length l - 1)) - inject_Z 0)
               == x).
  { rewrite Hz. unfold l. simpl. ring. }
  rewrite Hq. apply (sorted_head_least x r Hs).
  apply (Permutation_in _ (Permutation_sym Hp)). exact Hin.
Qed.

Lemma quantile_zero (samples : list Q) :
  samples <> [] ->
  exists q, quantile samples 0 = Ok q /\ forall s, In s samples -> q <= s.
Proof.
  apply quantile_at_zero. reflexivity.
Qed.

Lemma tail_mean_at_one (samples : list Q) (a m : Q) :
  a == 1 -> is_max m samples ->
  exists v, RiskAwareCvarPolicy.tail_mean samples a = Ok v /\ v == m.
Proof.
  intros Ha Hm. destruct (quantile_at_one samples a m Ha Hm) as (q & Hq & Hqm).
  destruct Hm as [Hin Hmax].
  unfold RiskAwareCvarPolicy.tail_mean. rewrite Hq. simpl.
  set (tail := List.filter (fun s => Qle_bool q s) samples).
  assert (Hall : forall s, In s tail -> s == m).
  { intros s Hs. apply filter_In in Hs. destruct Hs as [Hs Hle].
    apply Qle_bool_iff in Hle. apply Qle_antisym; [apply Hmax; exact Hs|].
    rewrite <- Hqm. exact Hle. }
  assert (Hmt : In m tail).
  { apply filter_In. split; [exact Hin|]. apply Qle_bool_iff. rewrite Hqm. apply Qle_refl. }
  destruct tail as [|t0 tl] eqn:Ht; [destruct Hmt|].
  eexists. split; [reflexivity|].
  unfold mean. rewrite (Qsum_const m (t0 :: tl) Hall).
  field. change 0 with (inject_Z 0). rewrite inject_Z_injective. simpl. lia.
Qed.

Lemma tail_mean_one (samples : list Q) (m : Q) :
  is_max m samples ->
  exists v, RiskAwareCvarPolicy.tail_mean samples 1 = Ok v /\ v == m.
Proof.
  apply tail_mean_at_one. reflexivity.
Qed.

Lemma tail_mean_at_zero (samples : list Q) (a : Q) :
  a == 0 -> samples <> [] ->
  RiskAwareCvarPolicy.tail_mean samples a = Ok (mean samples).
Proof.
  intros Ha Hne. destruct (quantile_at_zero samples a Ha Hne) as (q & Hq & Hle).
  unfold RiskAwareCvarPolicy.tail_mean. rewrite Hq. simpl.
  rewrite filter_all by (intros s Hs; apply Qle_bool_iff; apply Hle; exact Hs).
  destruct samples; [contradiction|reflexivity].
Qed.

Lemma tail_mean_zero (samples : list Q) :
  samples <> [] ->
  RiskAwareCvarPolicy.tail_mean samples 0 = Ok (mean samples).
Proof.
  apply tail_mean_at_zero. reflexivity.
Qed.

Example quantile_linear_interpolation :
  exists q, quantile [4; 1; 3; 2] (95 # 100) = Ok q /\ q == 385 # 100.
Proof.
  eexists. split; [vm_compute; reflexivity|reflexivity].
Qed.


(** ** The CVaR policy's tail cost *)

Section CvarCost.

Variable g : Q -> Q -> nat -> Q.
Variable self : RiskAwareCvarPolicy.t.
Variable job : Job.

Lemma cvar_origin_latency (node : Node) :
  RiskAwareCvarPolicy._compute_origin_latency self job node
  = origin_delay (RiskAwareCvarPolicy.state self) (RiskAwareCvarPolicy.cluster_manager self)
                 job node.
Proof.
  unfold RiskAwareCvarPolicy._compute_origin_latency, origin_delay.
  destruct (job_origin job) as [o|]; [|reflexivity].
  destruct (RiskAwareCvarPolicy.cluster_manager self) as [m|]; [|reflexivity].
  destruct (get_cluster (RiskAwareCvarPolicy.state self) (name node)) as [c|]; [|reflexivity].
  destruct (String.eqb c ""); reflexivity.
Qed.

Lemma origin_lat_spec (pl : gmap string PlacementDecision) :
  RiskAwareCvarPolicy.origin_lat self job pl = plan_origin_latency self job pl.
Proof.
  unfold RiskAwareCvarPolicy.origin_lat, plan_origin_latency.
  destruct (job_origin job) as [o|] eqn:Ho; [|reflexivity].
  destruct (job_stages job) as [|first rest]; [reflexivity|].
  destruct (pl !! js_id first) as [d|]; [|reflexivity].
  destruct (get_node (RiskAwareCvarPolicy.state self) (node_name d)) as [n|]; [|reflexivity].
  apply cvar_origin_latency.
Qed.

Lemma tail_mean_spec (samples : list Q) (a : Q) :
  RiskAwareCvarPolicy.tail_mean samples a = cvar_spec samples a.
Proof.
  unfold RiskAwareCvarPolicy.tail_mean, cvar_spec.
  destruct (quantile samples a) as [q|e]; [|reflexivity]. simpl.
  destruct (List.filter _ samples); reflexivity.
Qed.

Lemma sample_cost_spec (pl : gmap string PlacementDecision) (k : nat) :
  RiskAwareCvarPolicy._sample_cost g self job pl 16 k
  = (do c <~ cvar_spec (costs_spec g self job pl k) (RiskAwareCvarPolicy.alpha self);
     Ok (c, (k + 16)%nat)).
Proof.
  unfold RiskAwareCvarPolicy._sample_cost. rewrite sample_loop_map.
  cbn [fst snd app]. rewrite tail_mean_spec. unfold costs_spec.
  rewrite origin_lat_spec. reflexivity.
Qed.

Lemma costs_spec_nonempty (pl : gmap string PlacementDecision) (k : nat) :
  costs_spec g self job pl k <> [].
Proof.
  unfold costs_spec. simpl. discriminate.
Qed.

Lemma sampled_scored pl0 k0 stage i n fmt a :
  sampled g self job pl0 stage (k0 + 16 * i) n fmt a ->
  cvar_scored g self job pl0 k0 stage i n a.
Proof.
  intros (Hf & c & Hc & ->). rewrite sample_cost_spec in Hc.
  bind_inv Hc v Hv. inversion Hc; subst c.
  exists fmt, v. split; [exact Hf|]. split; [exact Hv|reflexivity].
Qed.

(** Every entry of the mapping that [place] returns is the decision for
    the evaluated node of least adjusted cost of the stage it was written
    for. *)
Lemma cvar_place_least (k : nat) (pl : gmap string PlacementDecision) (k' : nat)
    (sid : string) (d : PlacementDecision) :
  RiskAwareCvarPolicy.place g self job k = Ok (pl, k') -> pl !! sid = Some d ->
  cvar_placed g self job k sid d.
Proof.
  intros Hpl Hd. unfold RiskAwareCvarPolicy.place in Hpl.
  destruct (cvar_place_stages_run g self job (job_stages job) k pl k' Hpl sid d Hd)
    as (before & stage & after & pl0 & k0 & i & n & fmt & a & Hst & Hid & Hlater & Hrun
        & Hi & Hdn & Hs & Hleast).
  exists before, stage, after, pl0, k0, i, n, fmt, a.
  repeat (split; [assumption|]).
  split; [destruct Hs as [Hf _]; exact Hf|].
  split; [rewrite Hdn, <- Hid; reflexivity|].
  split; [apply sampled_scored with (fmt := fmt); exact Hs|].
  intros j c Hj. destruct (Hleast j c Hj) as (fc & ac & Hsc & Hle).
  exists ac. split; [apply sampled_scored with (fmt := fc); exact Hsc|exact Hle].
Qed.

End CvarCost.


(** ** The fabric's jobs *)

Example parse_spec_oversized :
  parse_job_spec (str_compound Fabric.env) (int_str Fabric.env) Fabric.spec_oversized
  = Ok Fabric.job_oversized.
Proof. reflexivity. Qed.

Example parse_spec_single :
  parse_job_spec (str_compound Fabric.env) (int_str Fabric.env) Fabric.spec_single
  = Ok Fabric.job_single.
Proof. reflexivity. Qed.

Example parse_spec_two_roots :
  parse_job_spec (str_compound Fabric.env) (int_str Fabric.env) Fabric.spec_two_roots
  = Ok Fabric.job_two_roots.
Proof. reflexivity. Qed.

Example parse_origin_without_cluster :
  job_origin <$> (match parse_job_spec (str_compound Fabric.env) (int_str Fabric.env)
                          (Fabric.job_spec [("origin", JObj [("node", JStr "n1")])]
                                           [Fabric.stage_spec "s1" 1]) with
                  | Ok job => Some job
                  | Raise _ => None
                  end)
  = Some (Some {| origin_cluster := "dc-core"; origin_node := JStr "n1" |}).
Proof. reflexivity. Qed.

Example py_int_examples (int_s : string -> option Z) :
  py_int int_s (JInt 7) = Ok 7%Z
  /\ py_int int_s (JFloat (-7 # 2)) = Ok (-3)%Z
  /\ py_int int_s (JBool true) = Ok 1%Z
  /\ py_int int_s JNull = Raise TypeError
  /\ py_int int_s (JArr []) = Raise TypeError.
Proof. repeat split. Qed.

Example require_examples :
  _require "id" (JObj [("id", JStr "s1")]) = Ok (JStr "s1")
  /\ _require "id" (JObj [("id", JStr "")]) = Raise (JobSpecError "missing required field: id")
  /\ _require "id" (JObj []) = Raise (JobSpecError "missing required field: id")
  /\ _require "id" (JStr "abc") = Raise (JobSpecError "missing required field: id")
  /\ _require "id" (JStr "valid") = Raise TypeError
  /\ _require "id" (JInt 5) = Raise TypeError.
Proof. repeat split. Qed.

Example default_weights_are_kept (fl : Float64) :
  ResilientPolicy.normalize_weights (rnd (3 # 10)) (rnd (5 # 10)) (rnd (2 # 10))
  = Ok (rnd (3 # 10), rnd (5 # 10), rnd (2 # 10)).
Proof.
  unfold ResilientPolicy.normalize_weights.
  rewrite (isclose_eq _ rnd_default_weights). reflexivity.
Qed.

Example zero_weights_raise :
  ResilientPolicy.normalize_weights (fl := Fabric.exact) 0 0 0 = Raise ZeroDivisionError.
Proof. reflexivity. Qed.

(** ** The generator and the CVaR policy *)

Section TwoGenerators.

Import RiskAwareCvarPolicy.

Variables g1 g2 : Q -> Q -> nat -> Q.
Variable self : RiskAwareCvarPolicy.t.
Variable job : Job.

Lemma sample_cost_agree pl k :
  agree g1 g2 k (k + 16) ->
  _sample_cost g1 self job pl 16 k = _sample_cost g2 self job pl 16 k.
Proof.
  intros H. rewrite !sample_cost_spec. f_equal. f_equal. unfold costs_spec.
  apply map_ext_in. intros i Hi. apply in_seq in Hi. rewrite (H 0 (15 # 100) i) by lia.
  reflexivity.
Qed.

Lemma place_step_cursor g pl stage b k node b' k' :
  place_step g self job pl stage b k node = Ok (b', k') -> (k <= k')%nat.
Proof.
  unfold place_step. destruct (gpu_short stage node).
  - intros H. inversion H. lia.
  - intros H. bind_inv H fmt Hfmt. bind_inv H ck Hck. destruct ck as [c kc].
    apply sample_cost_cursor in Hck. simpl in H.
    destruct (match best_cvar b with Some c0 => _ | None => _ end); inversion H; lia.
Qed.

Lemma place_scan_cursor g pl stage cands : forall b k b' k',
  place_scan g self job pl stage b k cands = Ok (b', k') -> (k <= k')%nat.
Proof.
  induction cands as [|node rest IH]; intros b k b' k' H; simpl in H.
  - inversion H. lia.
  - bind_inv H bk Hbk. destruct bk as [b1 k1]. simpl in H.
    apply place_step_cursor in Hbk. apply IH in H. lia.
Qed.

Lemma place_stages_cursor g stages : forall pl k res k',
  place_stages g self job stages pl k = Ok (res, k') -> (k <= k')%nat.
Proof.
  induction stages as [|stage rest IH]; intros pl k res k' H; simpl in H.
  - inversion H. lia.
  - bind_inv H bk Hbk. destruct bk as [b k1]. simpl in H.
    apply place_scan_cursor in Hbk.
    destruct (best_dec b); apply IH in H; lia.
Qed.

Lemma place_step_agree pl stage b k node b' k' :
  place_step g1 self job pl stage b k node = Ok (b', k') ->
  agree g1 g2 k k' ->
  place_step g2 self job pl stage b k node = Ok (b', k').
Proof.
  unfold place_step. destruct (gpu_short stage node); [auto|].
  intros H Hag. bind_inv H fmt Hfmt. rewrite Hfmt. cbn [bind].
  bind_inv H ck Hck. destruct ck as [c kc].
  pose proof (sample_cost_cursor _ _ _ _ _ _ _ _ Hck) as Hkc. subst kc. simpl in H.
  assert (Hk' : k' = (k + 16)%nat).
  { destruct (match best_cvar b with Some c0 => _ | None => _ end); inversion H; reflexivity. }
  subst k'. rewrite <- (sample_cost_agree _ _ Hag). rewrite Hck. simpl. exact H.
Qed.

Lemma place_scan_agree pl stage cands : forall b k b' k',
  place_scan g1 self job pl stage b k cands = Ok (b', k') ->
  agree g1 g2 k k' ->
  place_scan g2 self job pl stage b k cands = Ok (b', k').
Proof.
  induction cands as [|node rest IH]; intros b k b' k' H Hag; simpl in *; [exact H|].
  bind_inv H bk Hbk. destruct bk as [b1 k1]. simpl in H.
  pose proof (place_step_cursor _ _ _ _ _ _ _ _ Hbk) as H1.
  pose proof (place_scan_cursor _ _ _ _ _ _ _ _ H) as H2.
  rewrite (place_step_agree _ _ _ _ _ _ _ Hbk) by (intros m s i Hi; apply Hag; lia).
  simpl. apply IH; [exact H|]. intros m s i Hi. apply Hag. lia.
Qed.

Lemma place_stages_agree stages : forall pl k res k',
  place_stages g1 self job stages pl k = Ok (res, k') ->
  agree g1 g2 k k' ->
  place_stages g2 self job stages pl k = Ok (res, k').
Proof.
  induction stages as [|stage rest IH]; intros pl k res k' H Hag; simpl in *; [exact H|].
  bind_inv H bk Hbk. destruct bk as [b k1]. simpl in H.
  pose proof (place_scan_cursor _ _ _ _ _ _ _ _ Hbk) as H1.
  assert (H2 : (k1 <= k')%nat) by (destruct (best_dec b); apply place_stages_cursor in H; lia).
  rewrite (place_scan_agree _ _ _ _ _ _ _ Hbk) by (intros m s i Hi; apply Hag; lia).
  simpl. destruct (best_dec b); (apply IH; [exact H|]); intros m s i Hi; apply Hag; lia.
Qed.

End TwoGenerators.

(** C3, the claim refuted: the constructor of the CVaR policy takes no
    seed and [place] draws from the process-global generator, so two
    invocations on the same policy object, the same job and the same state
    differ when the generator is not reset in between.  On the fabric the
    first invocation takes draws 0 to 31 and places [s1] on [n1]; the
    second starts where the first left the generator, takes draws 32 to 63
    and places [s1] on [n2]. *)
Lemma C3_counterexample :
  exists pl1 pl2,
    RiskAwareCvarPolicy.place Fabric.draws Fabric.cvar Fabric.job_single 0
      = Ok (pl1, 32%nat)
    /\ RiskAwareCvarPolicy.place Fabric.draws Fabric.cvar Fabric.job_single 32
       = Ok (pl2, 64%nat)
    /\ node_name <$> pl1 !! "s1" = Some "n1"
    /\ node_name <$> pl2 !! "s1" = Some "n2".
Proof.
  eexists _, _. split; [vm_compute; reflexivity|].
  split; [vm_compute; reflexivity|]. split; vm_compute; reflexivity.
Qed.

(** C3, amended: [place] of the CVaR policy depends on the generator only
    through the draws it takes.  If an invocation started with the
    generator at cursor [k] returns a mapping and leaves the cursor at
    [k'], then an invocation on the same policy, job and state, started at
    the same cursor of a generator that gives the same draws from [k] up to
    [k'] (as after seeding the global generator with the same seed),
    returns the same mapping and leaves the same cursor. *)
Theorem C3_same_draws_same_placements (g1 g2 : Q -> Q -> nat -> Q)
    (self : RiskAwareCvarPolicy.t) (job : Job) (k : nat)
    (pl : gmap string PlacementDecision) (k' : nat) :
  RiskAwareCvarPolicy.place g1 self job k = Ok (pl, k') ->
  agree g1 g2 k k' ->
  RiskAwareCvarPolicy.place g2 self job k = Ok (pl, k').
Proof.
  unfold RiskAwareCvarPolicy.place. apply place_stages_agree.
Qed.

(** Two generators that differ only from draw 32 on give the fabric's job
    the same placement. *)
Lemma C3_witness :
  exists pl,
    RiskAwareCvarPolicy.place
      (fun mean sigma i => if (i <? 32)%nat then Fabric.draws mean sigma i else 7)
      Fabric.cvar Fabric.job_single 0 = Ok (pl, 32%nat)
    /\ node_name <$> pl !! "s1" = Some "n1".
Proof.
  eexists. split.
  - apply (C3_same_draws_same_placements Fabric.draws
             (fun mean sigma i => if (i <? 32)%nat then Fabric.draws mean sigma i else 7)
             Fabric.cvar Fabric.job_single 0 _ 32).
    + vm_compute. reflexivity.
    + intros m s i Hi. destruct (Nat.ltb_spec i 32); [reflexivity|lia].
  - vm_compute. reflexivity.
Defined.

(** ** The origin delay *)






(** ** The [/plan] handler *)

Lemma string_length_append (s t : string) :
  String.length (s ++ t) = (String.length s + String.length t)%nat.
Proof.
  induction s as [|c s IH]; [reflexivity|].
  change (S (String.length (s ++ t)) = S (String.length s + String.length t)).
  rewrite IH. reflexivity.
Qed.

Lemma append_inv_tail (t : string) : forall s1 s2, s1 ++ t = s2 ++ t -> s1 = s2.
Proof.
  induction s1 as [|a s1 IH]; intros [|c s2] H.
  - reflexivity.
  - apply (f_equal String.length) in H. rewrite !string_length_append in H.
    simpl in H. lia.
  - apply (f_equal String.length) in H. rewrite !string_length_append in H.
    simpl in H. lia.
  - change (String a (s1 ++ t) = String c (s2 ++ t)) in H.
    inversion H; subst. f_equal. apply IH. assumption.
Qed.

Lemma backup_key_inj : Inj (=) (=) backup_key.
Proof.
  intros s1 s2 H. unfold backup_key in H. apply (append_inv_tail _ _ _ H).
Qed.

Lemma shadow_plan_of_lookup (pl : gmap string PlacementDecision) (sid : string) :
  shadow_plan_of pl !! backup_key sid = node_name <$> pl !! sid.
Proof.
  unfold shadow_plan_of. rewrite lookup_kmap; [|exact backup_key_inj].
  rewrite lookup_fmap. reflexivity.
Qed.

Lemma shadow_plan_of_keys (pl : gmap string PlacementDecision) (key nm : string) :
  shadow_plan_of pl !! key = Some nm ->
  exists sid, key = backup_key sid /\ node_name <$> pl !! sid = Some nm.
Proof.
  unfold shadow_plan_of. intros H. apply lookup_kmap_Some in H; [|exact backup_key_inj].
  destruct H as (sid & -> & H). exists sid. split; [reflexivity|].
  rewrite lookup_fmap in H. exact H.
Qed.

Lemma placements_of_lookup (pl : gmap string PlacementDecision) (sid : string) :
  placements_of pl !! sid
  = (fun d => {| stage_id := sid; node_name := node_name d;
                 exec_format := exec_format d |}) <$> pl !! sid.
Proof.
  unfold placements_of. rewrite map_lookup_imap. destruct (pl !! sid); reflexivity.
Qed.

Section HandlerProperties.

Variable env : Env.
Variable state0 : DTState.
Variable cluster_manager : option ClusterManager.
Variable uuid_hex : string.
Variable k : nat.

(** The handler's answer once the job is parsed and the policy has
    returned. *)
Lemma plan_placed (body job_spec strategy : json) (job : Job) (p : policy)
    (pl : gmap string PlacementDecision) :
  py_get body "job" JNull = Ok job_spec ->
  truthy job_spec = true ->
  py_get body "strategy" (JStr "greedy") = Ok strategy ->
  parse_job_spec (str_compound env) (int_str env) job_spec = Ok job ->
  select_policy env state0 cluster_manager strategy = Ok p ->
  policy_place env state0 cluster_manager p job k = Ok pl ->
  plan env state0 cluster_manager uuid_hex k body
  = if bool_decide (pl = ∅)
    then Response400 "no feasible placements found" (Some (List.map js_id (job_stages job)))
    else Response200 (plan_response env state0 uuid_hex job pl).
Proof.
  intros Hj Ht Hs Hp Hsel Hpl. unfold plan.
  rewrite Hj. simpl. rewrite Ht. simpl. rewrite Hs. simpl. rewrite Hp.
  rewrite Hsel. simpl. rewrite Hpl. simpl.
  destruct (bool_decide (pl = ∅)); reflexivity.
Qed.

(** A plan is answered only from a parsed job and a non-empty mapping. *)
Lemma plan_200_inv (body : json) (r : PlanResponse) :
  plan env state0 cluster_manager uuid_hex k body = Response200 r ->
  exists job_spec strategy job p pl,
    py_get body "job" JNull = Ok job_spec
    /\ py_get body "strategy" (JStr "greedy") = Ok strategy
    /\ parse_job_spec (str_compound env) (int_str env) job_spec = Ok job
    /\ select_policy env state0 cluster_manager strategy = Ok p
    /\ policy_place env state0 cluster_manager p job k = Ok pl
    /\ pl <> ∅
    /\ r = plan_response env state0 uuid_hex job pl.
Proof.
  unfold plan. intros H.
  destruct (py_get body "job" JNull) as [job_spec|e] eqn:Hj; simpl in H; [|discriminate].
  destruct (truthy job_spec); simpl in H; [|discriminate].
  destruct (py_get body "strategy" (JStr "greedy")) as [strategy|e] eqn:Hs; simpl in H;
    [|discriminate].
  destruct (parse_job_spec (str_compound env) (int_str env) job_spec) as [job|e] eqn:Hp.
  2:{ destruct e; discriminate. }
  destruct (select_policy env state0 cluster_manager strategy) as [p|e] eqn:Hsel;
    simpl in H; [|discriminate].
  destruct (policy_place env state0 cluster_manager p job k) as [pl|e] eqn:Hpl;
    simpl in H; [|discriminate].
  destruct (bool_decide (pl = ∅)) eqn:He; [discriminate|].
  apply bool_decide_eq_false in He.
  inversion H; subst r. exists job_spec, strategy, job, p, pl. repeat split; auto.
Qed.

End HandlerProperties.

(** C1, the claim refuted: on the fabric, the resilient policy places [s1]
    and finds no node for [s2], which asks for 100 cpus; the mapping has
    one entry for two stages, and the handler answers with a plan that
    holds [s1] only. *)
Lemma C1_counterexample :
  exists pl r,
    select_policy Fabric.env Fabric.st (Some Fabric.cm) (JStr "resilient")
      = Ok (Resilient Fabric.resilient)
    /\ ResilientPolicy.place (fl := Fabric.exact) Fabric.resilient Fabric.job_oversized = Ok pl
    /\ (size pl < length (job_stages Fabric.job_oversized))%nat
    /\ plan Fabric.env Fabric.st (Some Fabric.cm) "0a1b2c3d" 0
         (Fabric.request "resilient" Fabric.spec_oversized) = Response200 r
    /\ node_name <$> placements r !! "s1" = Some "n1"
    /\ placements r !! "s2" = None.
Proof.
  eexists _, _. split; [reflexivity|]. split; [vm_compute; reflexivity|].
  split; [vm_compute; lia|]. split; [vm_compute; reflexivity|].
  split; vm_compute; reflexivity.
Qed.

(** C1, amended: for a request whose job parses and whose policy returns a
    mapping, the handler answers 400 with ["no feasible placements found"]
    and the ids of all the job's stages when the mapping is empty, and
    otherwise answers with a plan whose placements are the stages of the
    mapping, whether or not every stage of the job is among them. *)
Theorem C1_plan_fails_on_empty_mapping (env : Env) (state0 : DTState)
    (cm : option ClusterManager) (uuid_hex : string) (k : nat)
    (body job_spec strategy : json) (job : Job) (p : policy)
    (pl : gmap string PlacementDecision) :
  py_get body "job" JNull = Ok job_spec ->
  truthy job_spec = true ->
  py_get body "strategy" (JStr "greedy") = Ok strategy ->
  parse_job_spec (str_compound env) (int_str env) job_spec = Ok job ->
  select_policy env state0 cm strategy = Ok p ->
  policy_place env state0 cm p job k = Ok pl ->
  (pl = ∅ ->
     plan env state0 cm uuid_hex k body
     = Response400 "no feasible placements found" (Some (List.map js_id (job_stages job))))
  /\ (pl <> ∅ ->
        exists r,
          plan env state0 cm uuid_hex k body = Response200 r
          /\ forall sid, is_Some (placements r !! sid) <-> is_Some (pl !! sid)).
Proof.
  intros Hj Ht Hs Hp Hsel Hpl.
  pose proof (plan_placed env state0 cm uuid_hex k body job_spec strategy job p pl
                Hj Ht Hs Hp Hsel Hpl) as H.
  split.
  - intros He. rewrite H. rewrite bool_decide_eq_true_2 by exact He. reflexivity.
  - intros Hne. rewrite H. rewrite bool_decide_eq_false_2 by exact Hne.
    eexists. split; [reflexivity|]. intros sid. simpl.
    rewrite placements_of_lookup. rewrite fmap_is_Some. reflexivity.
Qed.

(** The fabric's request for the oversized job is answered with a plan. *)
Lemma C1_witness :
  exists r,
    plan Fabric.env Fabric.st (Some Fabric.cm) "0a1b2c3d" 0
      (Fabric.request "resilient" Fabric.spec_oversized) = Response200 r
    /\ forall sid,
         is_Some (placements r !! sid)
         <-> is_Some (({["s1" := {| stage_id := "s1"; node_name := "n1";
                                    exec_format := "native" |}]}
                       : gmap string PlacementDecision) !! sid).
Proof.
  apply (C1_plan_fails_on_empty_mapping Fabric.env Fabric.st (Some Fabric.cm) "0a1b2c3d" 0
           (Fabric.request "resilient" Fabric.spec_oversized) Fabric.spec_oversized
           (JStr "resilient") Fabric.job_oversized (Resilient Fabric.resilient)).
  - reflexivity.
  - reflexivity.
  - reflexivity.
  - reflexivity.
  - reflexivity.
  - vm_compute. reflexivity.
  - intros H. apply (f_equal (fun m => m !! "s1")) in H. vm_compute in H. discriminate.
Defined.

(** C4, the claim refuted: on the fabric both nodes are candidates of the
    single stage [s1]; the plan places [s1] on [n1] and its shadow plan
    names [n1] again as the backup, although [n2] is eligible; the client's
    offline fallback answers the same. *)
Lemma C4_counterexample :
  exists r r',
    plan Fabric.env Fabric.st (Some Fabric.cm) "0a1b2c3d" 0
      (Fabric.request "resilient" Fabric.spec_single) = Response200 r
    /\ node_name <$> placements r !! "s1" = Some "n1"
    /\ shadow_plan r !! "s1_backup" = Some "n1"
    /\ In Fabric.n2 (ResilientPolicy._candidate_nodes Fabric.resilient
                       (Fabric.mk_stage "s1" 1))
    /\ name Fabric.n2 <> "n1"
    /\ DTClient.plan Fabric.env Fabric.client "0a1b2c3d" 0 Fabric.spec_single
         (JStr "resilient") = Ok r'
    /\ node_name <$> placements r' !! "s1" = Some "n1"
    /\ shadow_plan r' !! "s1_backup" = Some "n1".
Proof.
  eexists _, _. split; [vm_compute; reflexivity|].
  split; [vm_compute; reflexivity|]. split; [vm_compute; reflexivity|].
  split; [right; left; reflexivity|]. split; [discriminate|].
  split; [vm_compute; reflexivity|]. split; vm_compute; reflexivity.
Qed.

Lemma client_plan_Ok_inv (env : Env) (self : DTClient.t) (uuid_hex : string) (k : nat)
    (job_spec strategy : json) (r : PlanResponse) :
  DTClient.plan env self uuid_hex k job_spec strategy = Ok r ->
  exists pl, pl <> ∅ /\ placements r = placements_of pl /\ shadow_plan r = shadow_plan_of pl.
Proof.
  unfold DTClient.plan. intros H.
  bind_inv H job Hjob. bind_inv H p Hp. bind_inv H pl Hpl.
  destruct (bool_decide (pl = ∅)) eqn:He; [discriminate|].
  apply bool_decide_eq_false in He. inversion H; subst r. simpl. eauto.
Qed.

Lemma shadow_plan_names_primary (pl : gmap string PlacementDecision) :
  (forall sid, shadow_plan_of pl !! backup_key sid = node_name <$> placements_of pl !! sid)
  /\ (forall key nm,
        shadow_plan_of pl !! key = Some nm ->
        exists sid, key = backup_key sid /\ node_name <$> placements_of pl !! sid = Some nm).
Proof.
  split.
  - intros sid. rewrite shadow_plan_of_lookup, placements_of_lookup.
    destruct (pl !! sid); reflexivity.
  - intros key nm H. destruct (shadow_plan_of_keys pl key nm H) as (sid & Hk & Hn).
    exists sid. split; [exact Hk|]. rewrite placements_of_lookup.
    destruct (pl !! sid); [exact Hn|discriminate].
Qed.

(** C4, amended: in every plan that the handler returns, and in every plan
    that the client's offline fallback returns, the shadow-plan entry of a
    stage, stored under the stage id followed by ["_backup"], names the
    node of that stage's own placement, and the shadow plan has no other
    entry. *)
Theorem C4_shadow_plan_names_primary (env : Env) (r : PlanResponse) :
  ((exists state0 cm uuid_hex k body,
       plan env state0 cm uuid_hex k body = Response200 r)
   \/ (exists self uuid_hex k job_spec strategy,
         DTClient.plan env self uuid_hex k job_spec strategy = Ok r)) ->
  (forall sid, shadow_plan r !! backup_key sid = node_name <$> placements r !! sid)
  /\ (forall key nm,
        shadow_plan r !! key = Some nm ->
        exists sid, key = backup_key sid /\ node_name <$> placements r !! sid = Some nm).
Proof.
  intros [(state0 & cm & uuid_hex & k & body & H)|(self & uuid_hex & k & js & strategy & H)].
  - apply plan_200_inv in H.
    destruct H as (job_spec & strategy & job & p & pl & _ & _ & _ & _ & _ & _ & ->).
    simpl. apply shadow_plan_names_primary.
  - apply client_plan_Ok_inv in H. destruct H as (pl & _ & -> & ->).
    apply shadow_plan_names_primary.
Qed.

(** The fabric's plan for the single-stage job: the backup of [s1] is the
    node of [s1]. *)
Lemma C4_witness :
  shadow_plan_of {["s1" := Fabric.on_n1 "s1"]} !! backup_key "s1"
  = node_name <$> placements_of {["s1" := Fabric.on_n1 "s1"]} !! "s1".
Proof.
  refine (proj1 (C4_shadow_plan_names_primary Fabric.env
                   (plan_response Fabric.env Fabric.st "0a1b2c3d" Fabric.job_single
                      {["s1" := Fabric.on_n1 "s1"]}) _) "s1").
  left. exists Fabric.st, (Some Fabric.cm), "0a1b2c3d", 0%nat,
          (Fabric.request "resilient" Fabric.spec_single).
  vm_compute. reflexivity.
Defined.

(** ** Parsing *)

Lemma py_get_Ok (d : json) (key : string) (dflt v : json) :
  py_get d key dflt = Ok v ->
  exists kv, d = JObj kv /\ v = match assoc key kv with Some x => x | None => dflt end.
Proof.
  destruct d; simpl; intros H; try discriminate. inversion H. eauto.
Qed.

Lemma py_get_absent (d : json) (key : string) (dflt v : json) :
  py_get d key dflt = Ok v -> member d key = None -> v = dflt.
Proof.
  intros H Hm. apply py_get_Ok in H. destruct H as (kv & -> & ->).
  simpl in Hm. rewrite Hm. reflexivity.
Qed.

Lemma py_get_member (d : json) (key : string) (v : json) :
  py_get d key JNull = Ok v -> v = default JNull (member d key).
Proof.
  intros H. apply py_get_Ok in H. destruct H as (kv & -> & ->).
  simpl. destruct (assoc key kv); reflexivity.
Qed.

Lemma py_get_sub_object (kv : list (string * json)) (key : string) (dflt : json) :
  py_get (py_or (JObj kv) (JObj [])) key dflt
  = Ok (match assoc key kv with Some x => x | None => dflt end).
Proof.
  destruct kv; reflexivity.
Qed.

Section ParsingProperties.

Variable str_compound : json -> string.
Variable int_str : string -> option Z.

Lemma parse_job_spec_not_object (job_spec : json) :
  is_dict job_spec = false ->
  parse_job_spec str_compound int_str job_spec = Raise (JobSpecError "job spec must be an object").
Proof.
  unfold parse_job_spec. intros ->. reflexivity.
Qed.

Lemma parse_job_spec_no_stages (job_spec : json) :
  stages_missing_or_empty job_spec ->
  parse_job_spec str_compound int_str job_spec
  = Raise (JobSpecError "job spec must include at least one stage").
Proof.
  intros H. unfold parse_job_spec.
  destruct H as [kv H|kv H|kv kv' H H'|kv kv' H H'|kv kv' H H'];
    cbn [is_dict negb py_get bind]; rewrite H; try reflexivity;
    rewrite py_get_sub_object; cbn [bind]; rewrite H'; reflexivity.
Qed.

Lemma parse_stage_defaults (stage_spec : json) (st : JobStage) :
  parse_stage str_compound int_str stage_spec = Ok st -> stage_defaults stage_spec st.
Proof.
  unfold parse_stage, stage_defaults, sub_object. intros H.
  bind_inv H id_raw Hid.
  bind_inv H compute_raw Hcompute. apply py_get_member in Hcompute. subst compute_raw.
  bind_inv H constraints_raw Hcons. apply py_get_member in Hcons. subst constraints_raw.
  bind_inv H cpu_raw Hcpu. bind_inv H cpu_v Hcpu_v.
  bind_inv H mem_raw Hmem. bind_inv H mem_v Hmem_v.
  bind_inv H dur_raw Hdur. bind_inv H dur_v Hdur_v.
  bind_inv H gpu_raw Hgpu. bind_inv H gpu_v Hgpu_v.
  bind_inv H wt_raw Hwt.
  bind_inv H arch_raw Harch. bind_inv H arch_v Harch_v.
  bind_inv H formats_raw Hformats. bind_inv H formats_v Hformats_v.
  bind_inv H locality Hloc. bind_inv H max_lat Hmax. bind_inv H pred_raw Hpred.
  inversion H; subst st; clear H. simpl.
  repeat split; intros Habs.
  - rewrite (py_get_absent _ _ _ _ Hcpu Habs) in Hcpu_v. inversion Hcpu_v. reflexivity.
  - rewrite (py_get_absent _ _ _ _ Hmem Habs) in Hmem_v. inversion Hmem_v. reflexivity.
  - rewrite (py_get_absent _ _ _ _ Hdur Habs) in Hdur_v. inversion Hdur_v. reflexivity.
  - rewrite (py_get_absent _ _ _ _ Hgpu Habs) in Hgpu_v. inversion Hgpu_v. reflexivity.
  - rewrite (py_get_absent _ _ _ _ Hwt Habs). reflexivity.
  - rewrite (py_get_absent _ _ _ _ Harch Habs) in Harch_v. inversion Harch_v. reflexivity.
  - rewrite (py_get_absent _ _ _ _ Hformats Habs) in Hformats_v. inversion Hformats_v.
    reflexivity.
Qed.

Lemma parse_stages_defaults (stages_spec : list json) : forall stages,
  parse_stages str_compound int_str stages_spec = Ok stages ->
  Forall2 stage_defaults stages_spec stages.
Proof.
  induction stages_spec as [|sp rest IH]; intros stages H; simpl in H.
  - inversion H. constructor.
  - bind_inv H st Hst. bind_inv H sts Hsts. inversion H; subst stages.
    constructor; [apply parse_stage_defaults; exact Hst|apply IH; exact Hsts].
Qed.

Lemma parse_origin_default (metadata o : json) (origin : option JobOrigin) :
  parse_origin str_compound metadata = Ok origin ->
  member metadata "origin" = Some o ->
  truthy o = true ->
  member o "cluster" = None ->
  exists nd, origin = Some {| origin_cluster := "dc-core"; origin_node := nd |}.
Proof.
  unfold parse_origin. intros H Hm Ht Hc.
  bind_inv H origin_raw Hraw. apply py_get_member in Hraw. rewrite Hm in Hraw.
  simpl in Hraw. subst origin_raw.
  unfold py_or in H. rewrite Ht in H. rewrite Ht in H.
  bind_inv H cluster_raw Hcl. bind_inv H node_raw Hnd.
  rewrite (py_get_absent _ _ _ _ Hcl Hc) in H. inversion H. eauto.
Qed.

Lemma parse_origin_falsy (metadata o : json) :
  member metadata "origin" = Some o ->
  truthy o = false ->
  is_dict metadata = true ->
  parse_origin str_compound metadata = Ok None.
Proof.
  unfold parse_origin. intros Hm Ht Hd.
  destruct metadata; try discriminate. simpl in Hm. simpl. rewrite Hm. simpl.
  unfold py_or. rewrite Ht. reflexivity.
Qed.

Lemma parse_origin_none (metadata : json) (origin : option JobOrigin) :
  parse_origin str_compound metadata = Ok origin ->
  (member metadata "origin" = None -> origin = None)
  /\ (forall o, member metadata "origin" = Some o -> truthy o = false -> origin = None).
Proof.
  unfold parse_origin. intros H.
  bind_inv H origin_raw Hraw. apply py_get_member in Hraw. subst origin_raw. split.
  - intros Hm. rewrite Hm in H. simpl in H. inversion H. reflexivity.
  - intros o Hm Ht. rewrite Hm in H. simpl in H. unfold py_or in H. rewrite Ht in H.
    simpl in H. inversion H. reflexivity.
Qed.

End ParsingProperties.

(** C9: [parse_job_spec] raises [JobSpecError] on every job specification
    that is not an object and on every one whose [spec.stages] list is
    missing or empty, and for a request whose [job] entry is such a
    specification the handler answers 400 with an error message and no
    plan. *)
Theorem C9_bad_job_spec_is_rejected :
  (forall str_c int_s job_spec,
      is_dict job_spec = false ->
      parse_job_spec str_c int_s job_spec = Raise (JobSpecError "job spec must be an object"))
  /\ (forall str_c int_s job_spec,
        stages_missing_or_empty job_spec ->
        parse_job_spec str_c int_s job_spec
        = Raise (JobSpecError "job spec must include at least one stage"))
  /\ (forall env state0 cm uuid_hex k body job_spec,
        py_get body "job" JNull = Ok job_spec ->
        is_dict job_spec = false \/ stages_missing_or_empty job_spec ->
        exists msg, plan env state0 cm uuid_hex k body = Response400 msg None).
Proof.
  split; [|split].
  - apply parse_job_spec_not_object.
  - apply parse_job_spec_no_stages.
  - intros env state0 cm uuid_hex k body job_spec Hj Hbad.
    assert (Hparse : exists msg,
               parse_job_spec (str_compound env) (int_str env) job_spec = Raise (JobSpecError msg)).
    { destruct Hbad as [Hd|Hs].
      - eexists. apply parse_job_spec_not_object. exact Hd.
      - eexists. apply parse_job_spec_no_stages. exact Hs. }
    destruct Hparse as (msg & Hparse).
    destruct (py_get_Ok _ _ _ _ Hj) as (kvb & Hbody & _).
    unfold plan. rewrite Hj. cbn [bind].
    destruct (truthy job_spec); cbn [negb]; [|eauto].
    subst body. cbn [py_get bind]. rewrite Hparse. eauto.
Qed.

(** Requests of the fabric with a string as job specification and with a
    specification without stages. *)
Lemma C9_witness :
  (exists msg,
      plan Fabric.env Fabric.st (Some Fabric.cm) "0a1b2c3d" 0
        (JObj [("job", JStr "job-0")]) = Response400 msg None)
  /\ (exists msg,
        plan Fabric.env Fabric.st (Some Fabric.cm) "0a1b2c3d" 0
          (JObj [("job", Fabric.job_spec [] [])]) = Response400 msg None).
Proof.
  split.
  - apply (proj2 (proj2 C9_bad_job_spec_is_rejected) Fabric.env Fabric.st (Some Fabric.cm)
             "0a1b2c3d" 0%nat (JObj [("job", JStr "job-0")]) (JStr "job-0")).
    + reflexivity.
    + left. reflexivity.
  - apply (proj2 (proj2 C9_bad_job_spec_is_rejected) Fabric.env Fabric.st (Some Fabric.cm)
             "0a1b2c3d" 0%nat (JObj [("job", Fabric.job_spec [] [])]) (Fabric.job_spec [] [])).
    + reflexivity.
    + right. eapply empty_stages; reflexivity.
Defined.

(** C10, the claim refuted: an origin object with no entry omits its
    cluster, and the parsed job has no origin at all. *)
Lemma C10_counterexample :
  exists job,
    parse_job_spec (str_compound Fabric.env) (int_str Fabric.env) Fabric.spec_empty_origin = Ok job
    /\ member (sub_object Fabric.spec_empty_origin "metadata") "origin" = Some (JObj [])
    /\ member (JObj []) "cluster" = None
    /\ job_origin job = None.
Proof.
  eexists. repeat split.
Qed.

(** C10, amended: when [parse_job_spec] returns a job, a [deadline_ms]
    that the metadata do not give is 60000; in each stage the compute
    fields [cpu], [mem_gb], [duration_ms] and [gpu_vram_gb] that are not
    given are 0 and [workload_type] is ["cpu_bound"], [arch] is
    [["amd64"]] and [formats] is [["native"]] when the constraints do not
    give them; an origin object that is not empty and gives no cluster
    yields an origin of cluster ["dc-core"]; and an origin that is missing,
    null or an empty object yields a job without origin. *)
Theorem C10_parse_defaults (str_c : json -> string) (int_s : string -> option Z)
    (job_spec : json) (job : Job) :
  parse_job_spec str_c int_s job_spec = Ok job -> job_defaults job_spec job.
Proof.
  unfold parse_job_spec. intros H.
  destruct (negb (is_dict job_spec)); [discriminate|].
  bind_inv H metadata_raw Hmeta. apply py_get_member in Hmeta. subst metadata_raw.
  bind_inv H spec_raw Hspec. apply py_get_member in Hspec. subst spec_raw.
  bind_inv H stages_raw Hstages. apply py_get_member in Hstages. subst stages_raw.
  bind_inv H stages_spec Hlist.
  destruct stages_spec as [|sp0 sps]; [discriminate|].
  bind_inv H name_raw Hname. bind_inv H deadline_raw Hdl. bind_inv H deadline Hdl_v.
  bind_inv H origin Horigin. bind_inv H stages Hst.
  inversion H; subst job; clear H.
  unfold job_defaults, stage_specs_of, sub_object. simpl.
  split; [|split; [|split; [|split]]].
  - intros Habs. rewrite (py_get_absent _ _ _ _ Hdl Habs) in Hdl_v.
    inversion Hdl_v. reflexivity.
  - rewrite Hlist. apply (parse_stages_defaults str_c int_s). exact Hst.
  - intros o Hm Ht Hc. apply (parse_origin_default str_c _ o origin Horigin Hm Ht Hc).
  - apply (parse_origin_none str_c _ origin Horigin).
  - apply (parse_origin_none str_c _ origin Horigin).
Qed.

(** The fabric's job whose stage gives neither [gpu_vram_gb] nor a
    workload type nor constraints. *)
Lemma C10_witness : job_defaults Fabric.spec_single Fabric.job_single.
Proof.
  apply (C10_parse_defaults (str_compound Fabric.env) (int_str Fabric.env)). reflexivity.
Defined.
(** ** The properties on the fabric *)

(** Closes a comparison of two rational constants. *)
Ltac qcompare :=
  match goal with
  | |- (_ <= _)%Q => apply Qle_bool_iff; reflexivity
  | |- (_ < _)%Q => apply Qlt_bool_true; reflexivity
  | |- (_ <= _)%Z => apply Z.leb_le; reflexivity
  | |- (_ < _)%Z => apply Z.ltb_lt; reflexivity
  end.

(** The fabric's resilient policy places [s1] of the single-stage job on
    [n1], an available node. *)
Lemma C2_witness :
  decision_valid (list_nodes Fabric.st) (job_stages Fabric.job_single) "s1"
    (Fabric.on_n1 "s1")
  /\ decision_valid (list_nodes Fabric.st) (job_stages Fabric.job_single) "s1"
       (Fabric.on_n1 "s1").
Proof.
  split.
  - apply (proj1 C2_placed_nodes_available_and_gpu_fit Fabric.exact Fabric.resilient
             Fabric.job_single {["s1" := Fabric.on_n1 "s1"]}).
    + vm_compute. reflexivity.
    + vm_compute. reflexivity.
  - apply (proj2 C2_placed_nodes_available_and_gpu_fit Fabric.draws Fabric.cvar
             Fabric.job_single 0%nat {["s1" := Fabric.on_n1 "s1"]} 32%nat).
    + vm_compute. reflexivity.
    + vm_compute. reflexivity.
Defined.

(** On the fabric [n1] is a candidate of [s1] for both policies. *)
Lemma C5_witness :
  In Fabric.n1 (ResilientPolicy._candidate_nodes Fabric.resilient (Fabric.mk_stage "s1" 1))
  /\ In Fabric.n1 (RiskAwareCvarPolicy._candidate_nodes Fabric.cvar (Fabric.mk_stage "s1" 1)).
Proof.
  split.
  - apply (proj1 (C5_candidate_sets Fabric.resilient Fabric.cvar (Fabric.mk_stage "s1" 1)
                    Fabric.n1)).
    split; [left; reflexivity|]. split; [reflexivity|].
    split; [intros H; vm_compute in H; discriminate|]. split; qcompare.
  - apply (proj2 (C5_candidate_sets Fabric.resilient Fabric.cvar (Fabric.mk_stage "s1" 1)
                    Fabric.n1)).
    split; [left; reflexivity|reflexivity].
Defined.





(* ===================================================================== *)
(** * Further properties *)
(* ===================================================================== *)

(** ** Which stages the resilient policy places *)

Section ResilientPlaced.

Import ResilientPolicy.

Context {fl : Float64}.
Variable self : ResilientPolicy.t.
Variable job : Job.

Lemma place_stages_dom stages : forall pl prev res,
  place_stages self job stages pl prev = Ok res ->
  forall sid,
    is_Some (fst res !! sid) <->
    is_Some (pl !! sid)
    \/ exists stage, In stage stages /\ js_id stage = sid
                     /\ _candidate_nodes self stage <> [].
Proof.
  induction stages as [|stage rest IH]; intros pl prev res H sid; simpl in H.
  - inversion H; subst res. split; [auto|]. intros [Hs|(st & [] & _)]. exact Hs.
  - bind_inv H b Hb. pose proof (place_scan_none_iff _ _ _ _ _ Hb) as Hiff.
    destruct (best_node b) as [n|] eqn:Hn.
    + assert (Hne : _candidate_nodes self stage <> []).
      { intros He. apply Hiff in He. discriminate. }
      rewrite (IH _ _ _ H sid). split.
      * intros [Hs|(st & Hin & Hid & Hc)].
        -- destruct (decide (js_id stage = sid)) as [Heq|Hneq].
           ++ right. exists stage. split; [left; reflexivity|]. split; assumption.
           ++ left. rewrite lookup_insert_ne in Hs by exact Hneq. exact Hs.
        -- right. exists st. split; [right; exact Hin|]. split; assumption.
      * intros [Hs|(st & [Heq|Hin] & Hid & Hc)].
        -- left. destruct (decide (js_id stage = sid)) as [Heq|Hneq].
           ++ subst sid. rewrite lookup_insert_eq. eauto.
           ++ rewrite lookup_insert_ne by exact Hneq. exact Hs.
        -- subst st. left. subst sid. rewrite lookup_insert_eq. eauto.
        -- right. exists st. split; [exact Hin|]. split; assumption.
    + assert (He : _candidate_nodes self stage = []) by (apply Hiff; reflexivity).
      rewrite (IH _ _ _ H sid). split.
      * intros [Hs|(st & Hin & Hid & Hc)]; [left; exact Hs|].
        right. exists st. split; [right; exact Hin|]. split; assumption.
      * intros [Hs|(st & [Heq|Hin] & Hid & Hc)]; [left; exact Hs| |].
        -- subst st. contradiction.
        -- right. exists st. split; [exact Hin|]. split; assumption.
Qed.

End ResilientPlaced.

Lemma resilient_place_keys {fl : Float64} (self : ResilientPolicy.t) (job : Job)
    (pl : gmap string PlacementDecision) (sid : string) :
  ResilientPolicy.place self job = Ok pl ->
  (is_Some (pl !! sid) <->
   exists stage, In stage (job_stages job) /\ js_id stage = sid
                 /\ ResilientPolicy._candidate_nodes self stage <> []).
Proof.
  intros H. apply place_Ok_inv in H. destruct H as [prev H].
  rewrite (place_stages_dom self job _ _ _ _ H sid). split.
  - intros [Hs|Hex]; [|exact Hex]. rewrite lookup_empty in Hs. destruct Hs as [x Hx].
    discriminate.
  - intros Hex. right. exact Hex.
Qed.

(** X1: when [place] of the resilient policy returns, a stage id has an
    entry in the mapping exactly when a stage of the job with that id has
    at least one candidate node: a stage is dropped if and only if its
    candidate list is empty. *)
Theorem X1_resilient_places_stages_with_candidates {fl : Float64}
    (self : ResilientPolicy.t) (job : Job)
    (pl : gmap string PlacementDecision) (sid : string) :
  ResilientPolicy.place self job = Ok pl ->
  (is_Some (pl !! sid) <->
   exists stage, In stage (job_stages job) /\ js_id stage = sid
                 /\ ResilientPolicy._candidate_nodes self stage <> []).
Proof.
  apply resilient_place_keys.
Qed.

(** On the fabric [s1] of the oversized job has candidates and is placed;
    [s2] has none and is not. *)
Lemma X1_witness :
  (is_Some (({["s1" := Fabric.on_n1 "s1"]} : gmap string PlacementDecision) !! "s1") <->
   exists stage, In stage (job_stages Fabric.job_oversized) /\ js_id stage = "s1"
                 /\ ResilientPolicy._candidate_nodes Fabric.resilient stage <> []).
Proof.
  apply (X1_resilient_places_stages_with_candidates (fl := Fabric.exact)
           Fabric.resilient Fabric.job_oversized).
  vm_compute. reflexivity.
Defined.

(** ** Which stages the CVaR policy places, and the draws it takes *)

Lemma quantile_in_range (samples : list Q) (a : Q) :
  0 <= a -> a <= 1 -> samples <> [] -> exists q, quantile samples a = Ok q.
Proof.
  intros H0 H1 Hne. unfold quantile.
  apply Qle_bool_iff in H0. apply Qle_bool_iff in H1. rewrite H0, H1. simpl.
  pose proof (sort_perm samples) as Hp.
  destruct (sort samples) as [|x r]; [|eauto].
  apply Permutation_nil in Hp. contradiction.
Qed.

Lemma quantile_out_of_range (samples : list Q) (a : Q) :
  a < 0 \/ 1 < a -> quantile samples a = Raise ValueError.
Proof.
  intros H. unfold quantile.
  destruct (Qle_bool 0 a) eqn:E0; [|reflexivity].
  destruct (Qle_bool a 1) eqn:E1; [|reflexivity].
  apply Qle_bool_iff in E0. apply Qle_bool_iff in E1.
  exfalso. destruct H as [H|H]; [apply (Qlt_not_le _ _ H E0)|apply (Qlt_not_le _ _ H E1)].
Qed.

Section CvarPlaced.

Import RiskAwareCvarPolicy.

Variable g : Q -> Q -> nat -> Q.
Variable self : RiskAwareCvarPolicy.t.
Variable job : Job.

Lemma sample_cost_in_range pl k :
  0 <= alpha self -> alpha self <= 1 ->
  exists c, _sample_cost g self job pl 16 k = Ok (c, (k + 16)%nat).
Proof.
  intros H0 H1. rewrite sample_cost_spec. unfold cvar_spec.
  destruct (quantile_in_range (costs_spec g self job pl k) (alpha self) H0 H1
              (costs_spec_nonempty g self job pl k)) as (q & Hq).
  rewrite Hq. cbn [bind]. eauto.
Qed.

Lemma sample_cost_out_of_range pl k :
  alpha self < 0 \/ 1 < alpha self ->
  _sample_cost g self job pl 16 k = Raise ValueError.
Proof.
  intros H. rewrite sample_cost_spec. unfold cvar_spec.
  rewrite (quantile_out_of_range _ _ H). reflexivity.
Qed.

Lemma cvar_place_stages_count stages : forall pl k res k',
  place_stages g self job stages pl k = Ok (res, k') ->
  k' = (k + draws_needed self stages)%nat.
Proof.
  induction stages as [|stage rest IH]; intros pl k res k' H; simpl in H.
  - inversion H. simpl. lia.
  - bind_inv H bk Hbk. destruct bk as [b k1]. simpl in H.
    apply cvar_place_scan_cursor in Hbk.
    simpl. destruct (best_dec b); apply IH in H; lia.
Qed.

Lemma cvar_place_stages_dom stages : forall pl k res k',
  place_stages g self job stages pl k = Ok (res, k') ->
  forall sid,
    is_Some (res !! sid) <->
    is_Some (pl !! sid)
    \/ exists stage, In stage stages /\ js_id stage = sid /\ evaluated self stage <> [].
Proof.
  induction stages as [|stage rest IH]; intros pl k res k' H sid; simpl in H.
  - inversion H; subst res. split; [auto|]. intros [Hs|(st & [] & _)]. exact Hs.
  - bind_inv H bk Hbk. destruct bk as [b k1]. simpl in H.
    pose proof (cvar_place_scan_none_iff _ _ _ _ _ _ _ _ Hbk) as Hiff.
    destruct (best_dec b) as [d|] eqn:Hd.
    + assert (Hne : evaluated self stage <> []).
      { intros He. apply Hiff in He. discriminate. }
      rewrite (IH _ _ _ _ H sid). split.
      * intros [Hs|(st & Hin & Hid & Hc)].
        -- destruct (decide (js_id stage = sid)) as [Heq|Hneq].
           ++ right. exists stage. split; [left; reflexivity|]. split; assumption.
           ++ left. rewrite lookup_insert_ne in Hs by exact Hneq. exact Hs.
        -- right. exists st. split; [right; exact Hin|]. split; assumption.
      * intros [Hs|(st & [Heq|Hin] & Hid & Hc)].
        -- left. destruct (decide (js_id stage = sid)) as [Heq|Hneq].
           ++ subst sid. rewrite lookup_insert_eq. eauto.
           ++ rewrite lookup_insert_ne by exact Hneq. exact Hs.
        -- subst st. left. subst sid. rewrite lookup_insert_eq. eauto.
        -- right. exists st. split; [exact Hin|]. split; assumption.
    + assert (He : evaluated self stage = []) by (apply Hiff; reflexivity).
      rewrite (IH _ _ _ _ H sid). split.
      * intros [Hs|(st & Hin & Hid & Hc)]; [left; exact Hs|].
        right. exists st. split; [right; exact Hin|]. split; assumption.
      * intros [Hs|(st & [Heq|Hin] & Hid & Hc)]; [left; exact Hs| |].
        -- subst st. contradiction.
        -- right. exists st. split; [exact Hin|]. split; assumption.
Qed.

Lemma evaluated_of_cons stage node rest :
  evaluated_of stage (node :: rest)
  = if gpu_short stage node then evaluated_of stage rest
    else node :: evaluated_of stage rest.
Proof.
  unfold evaluated_of. simpl. destruct (gpu_short stage node); reflexivity.
Qed.

(** With a level in range and a format for every evaluated node every loop
    returns. *)
Lemma cvar_place_scan_total pl stage cands :
  0 <= alpha self -> alpha self <= 1 ->
  (forall n, In n (evaluated_of stage cands) ->
     exists fmt, choose_exec_format (sim self) stage n = Ok fmt) ->
  forall b k, exists b' k', place_scan g self job pl stage b k cands = Ok (b', k').
Proof.
  intros H0 H1. induction cands as [|node rest IH]; intros Hf b k; simpl; [eauto|].
  rewrite evaluated_of_cons in Hf.
  unfold place_step. destruct (gpu_short stage node); simpl; [apply IH; exact Hf|].
  destruct (Hf node (or_introl eq_refl)) as (fmt & Hfmt). rewrite Hfmt. cbn [bind].
  destruct (sample_cost_in_range (<[js_id stage := decision_for stage node fmt]> pl) k H0 H1)
    as (c & Hc).
  rewrite Hc. simpl.
  destruct (match best_cvar b with Some c0 => _ | None => _ end); simpl; apply IH;
    intros n Hn; apply Hf; right; exact Hn.
Qed.

Lemma cvar_place_stages_total stages :
  0 <= alpha self -> alpha self <= 1 ->
  cvar_formats_ok self stages ->
  forall pl k, exists res k', place_stages g self job stages pl k = Ok (res, k').
Proof.
  intros H0 H1. induction stages as [|stage rest IH]; intros Hf pl k; simpl; [eauto|].
  destruct (cvar_place_scan_total pl stage (_candidate_nodes self stage) H0 H1
              (fun n Hn => Hf stage n (or_introl eq_refl) Hn) best_init k)
    as (b & k1 & Hb).
  rewrite Hb. simpl.
  destruct (best_dec b); apply IH; intros st n Hst Hn; apply (Hf st n); auto; right; exact Hst.
Qed.

(** When the loops return, a cost has been sampled for every evaluated
    node of every stage. *)
Lemma cvar_place_stages_sampled stages : forall pl k res k',
  place_stages g self job stages pl k = Ok (res, k') ->
  forall stage n, In stage stages -> In n (evaluated self stage) ->
  exists pl0 kn fmt a, sampled g self job pl0 stage kn n fmt a.
Proof.
  induction stages as [|stage rest IH]; intros pl k res k' H st n Hst Hn; [destruct Hst|].
  simpl in H. bind_inv H bk Hbk. destruct bk as [b k1]. simpl in H.
  destruct Hst as [<-|Hst].
  - apply cvar_place_scan_best in Hbk. destruct Hbk as (_ & Hall & _).
    apply In_nth_error in Hn. destruct Hn as [j Hj].
    destruct (Hall j n Hj) as (fc & ac & Hs). eauto.
  - destruct (best_dec b); eapply IH; eauto.
Qed.

Lemma cvar_place_stages_formats stages pl k res k' :
  place_stages g self job stages pl k = Ok (res, k') -> cvar_formats_ok self stages.
Proof.
  intros H stage n Hst Hn.
  destruct (cvar_place_stages_sampled stages pl k res k' H stage n Hst Hn)
    as (pl0 & kn & fmt & a & Hf & _).
  eauto.
Qed.

(** With a level out of range no loop that evaluates a node returns. *)
Lemma cvar_place_stages_level stages pl k res k' :
  alpha self < 0 \/ 1 < alpha self ->
  place_stages g self job stages pl k = Ok (res, k') ->
  forall stage, In stage stages -> evaluated self stage = [].
Proof.
  intros Ha H stage Hst. destruct (evaluated self stage) as [|n r] eqn:He; [reflexivity|].
  destruct (cvar_place_stages_sampled stages pl k res k' H stage n Hst)
    as (pl0 & kn & fmt & a & _ & c & Hc & _).
  { rewrite He. left. reflexivity. }
  rewrite (sample_cost_out_of_range _ _ Ha) in Hc. discriminate.
Qed.

(** With a level out of range the inner loop raises at the first node it
    evaluates, once it has a format for it. *)
Lemma cvar_place_scan_out_of_range pl stage cands :
  alpha self < 0 \/ 1 < alpha self ->
  (forall n, In n (evaluated_of stage cands) ->
     exists fmt, choose_exec_format (sim self) stage n = Ok fmt) ->
  forall b k,
    place_scan g self job pl stage b k cands
    = match evaluated_of stage cands with
      | [] => Ok (b, k)
      | _ :: _ => Raise ValueError
      end.
Proof.
  intros H. induction cands as [|node rest IH]; intros Hf b k; [reflexivity|].
  rewrite evaluated_of_cons in Hf. rewrite evaluated_of_cons.
  cbn [place_scan]. unfold place_step.
  destruct (gpu_short stage node); cbn [bind fst snd]; [apply IH; exact Hf|].
  destruct (Hf node (or_introl eq_refl)) as (fmt & Hfmt). rewrite Hfmt. cbn [bind].
  rewrite (sample_cost_out_of_range _ _ H). reflexivity.
Qed.

Lemma cvar_place_stages_out_of_range stages :
  alpha self < 0 \/ 1 < alpha self ->
  cvar_formats_ok self stages ->
  (exists stage, In stage stages /\ evaluated self stage <> []) ->
  forall pl k, place_stages g self job stages pl k = Raise ValueError.
Proof.
  intros H. induction stages as [|stage rest IH]; intros Hf (st & Hin & Hne) pl k.
  - destruct Hin.
  - simpl. rewrite (cvar_place_scan_out_of_range pl stage _ H)
      by (intros n Hn; apply (Hf stage n (or_introl eq_refl) Hn)).
    change (evaluated_of stage (_candidate_nodes self stage)) with (evaluated self stage).
    destruct (evaluated self stage) as [|x r] eqn:He; [|reflexivity].
    simpl. apply IH.
    + intros s n Hs Hn. apply (Hf s n); [right; exact Hs|exact Hn].
    + destruct Hin as [Heq|Hin].
      * subst st. contradiction.
      * exists st. split; assumption.
Qed.

End CvarPlaced.

Lemma cvar_place_keys (g : Q -> Q -> nat -> Q)
    (self : RiskAwareCvarPolicy.t) (job : Job) (k : nat)
    (pl : gmap string PlacementDecision) (k' : nat) (sid : string) :
  RiskAwareCvarPolicy.place g self job k = Ok (pl, k') ->
  (is_Some (pl !! sid) <->
   exists stage, In stage (job_stages job) /\ js_id stage = sid
                 /\ evaluated self stage <> []).
Proof.
  intros H. unfold RiskAwareCvarPolicy.place in H.
  rewrite (cvar_place_stages_dom g self job _ _ _ _ _ H sid). split.
  - intros [Hs|Hex]; [|exact Hex]. rewrite lookup_empty in Hs. destruct Hs as [x Hx].
    discriminate.
  - intros Hex. right. exact Hex.
Qed.

(** X2: when [place] of the CVaR policy returns, a stage id has an entry
    in the mapping exactly when a stage of the job with that id has an
    available node that meets its GPU demand. *)
Theorem X2_cvar_places_stages_with_eligible_nodes (g : Q -> Q -> nat -> Q)
    (self : RiskAwareCvarPolicy.t) (job : Job) (k : nat)
    (pl : gmap string PlacementDecision) (k' : nat) (sid : string) :
  RiskAwareCvarPolicy.place g self job k = Ok (pl, k') ->
  (is_Some (pl !! sid) <->
   exists stage, In stage (job_stages job) /\ js_id stage = sid
                 /\ evaluated self stage <> []).
Proof.
  apply cvar_place_keys.
Qed.

Lemma X2_witness :
  (is_Some (({["s1" := Fabric.on_n1 "s1"]} : gmap string PlacementDecision) !! "s1") <->
   exists stage, In stage (job_stages Fabric.job_single) /\ js_id stage = "s1"
                 /\ evaluated Fabric.cvar stage <> []).
Proof.
  apply (X2_cvar_places_stages_with_eligible_nodes Fabric.draws Fabric.cvar
           Fabric.job_single 0 _ 32).
  vm_compute. reflexivity.
Defined.

(** X3: an invocation of the CVaR policy's [place] that returns has taken
    exactly sixteen draws from the generator for each evaluated node
    (available and passing the GPU test) of each stage, in that order of
    stages; no node, no draw. *)
Theorem X3_cvar_draws_taken (g : Q -> Q -> nat -> Q) (self : RiskAwareCvarPolicy.t)
    (job : Job) (k : nat) (pl : gmap string PlacementDecision) (k' : nat) :
  RiskAwareCvarPolicy.place g self job k = Ok (pl, k') ->
  k' = (k + draws_needed self (job_stages job))%nat.
Proof.
  unfold RiskAwareCvarPolicy.place. apply cvar_place_stages_count.
Qed.

Lemma X3_witness : 32%nat = (0 + draws_needed Fabric.cvar (job_stages Fabric.job_single))%nat.
Proof.
  apply (X3_cvar_draws_taken Fabric.draws Fabric.cvar Fabric.job_single 0
           {["s1" := Fabric.on_n1 "s1"]} 32).
  vm_compute. reflexivity.
Defined.

(** X4: with a level [alpha] in [[0, 1]], the CVaR policy's [place]
    returns exactly when the simulator has a format for every node that
    the policy evaluates (an available node that passes the GPU test, of a
    stage of the job); with a level outside, and some stage of the job
    having a node to evaluate, [place] does not return: it raises, and
    what it raises is [ValueError] (from [np.quantile]) when the simulator
    has a format for every evaluated node. *)
Theorem X4_cvar_place_returns_iff_level_in_range (g : Q -> Q -> nat -> Q)
    (self : RiskAwareCvarPolicy.t) (job : Job) (k : nat) :
  (0 <= RiskAwareCvarPolicy.alpha self -> RiskAwareCvarPolicy.alpha self <= 1 ->
   (cvar_formats_ok self (job_stages job) <->
    exists pl, RiskAwareCvarPolicy.place g self job k
               = Ok (pl, (k + draws_needed self (job_stages job))%nat)))
  /\ (RiskAwareCvarPolicy.alpha self < 0 \/ 1 < RiskAwareCvarPolicy.alpha self ->
      (exists stage, In stage (job_stages job) /\ evaluated self stage <> []) ->
      (exists e, RiskAwareCvarPolicy.place g self job k = Raise e)
      /\ (cvar_formats_ok self (job_stages job) ->
          RiskAwareCvarPolicy.place g self job k = Raise ValueError)).
Proof.
  split.
  - intros H0 H1. unfold RiskAwareCvarPolicy.place. split.
    + intros Hf.
      destruct (cvar_place_stages_total g self job (job_stages job) H0 H1 Hf ∅ k)
        as (res & k' & H).
      pose proof (cvar_place_stages_count g self job _ _ _ _ _ H) as Hk. subst k'. eauto.
    + intros (pl & H). apply (cvar_place_stages_formats g self job _ _ _ _ _ H).
  - intros H (stage & Hin & Hne). unfold RiskAwareCvarPolicy.place. split.
    + destruct (RiskAwareCvarPolicy.place_stages g self job (job_stages job) ∅ k)
        as [[pl k']|e] eqn:Hrun; [|eauto].
      exfalso. apply Hne.
      apply (cvar_place_stages_level g self job _ _ _ _ _ H Hrun stage Hin).
    + intros Hf. apply cvar_place_stages_out_of_range; [exact H|exact Hf|].
      exists stage. split; assumption.
Qed.

Lemma X4_witness :
  exists pl, RiskAwareCvarPolicy.place Fabric.draws Fabric.cvar Fabric.job_single 0
             = Ok (pl, (0 + draws_needed Fabric.cvar (job_stages Fabric.job_single))%nat).
Proof.
  apply (proj1 (X4_cvar_place_returns_iff_level_in_range Fabric.draws Fabric.cvar
                  Fabric.job_single 0)); [qcompare|qcompare|].
  intros stage n _ _. exists "native". reflexivity.
Defined.

(** ** When the resilient policy raises *)

Lemma predecessor_node_hashable (pred : json) (prev : gmap string Node) :
  unhashable_truthy pred = false -> exists p, predecessor_node pred prev = Ok p.
Proof.
  unfold predecessor_node. destruct pred as [| | | | |l|kv]; simpl; intros H;
    try (destruct (negb _); eauto; fail); eauto.
  - destruct b; eauto.
  - destruct l; [eauto|discriminate].
  - destruct kv; [eauto|discriminate].
Qed.

Lemma predecessor_node_unhashable (pred : json) (prev : gmap string Node) :
  unhashable_truthy pred = true -> predecessor_node pred prev = Raise TypeError.
Proof.
  unfold predecessor_node. destruct pred as [| | | | |l|kv]; simpl; try discriminate.
  - destruct l; [discriminate|reflexivity].
  - destruct kv; [discriminate|reflexivity].
Qed.

Section ResilientRaises.

Import ResilientPolicy.

Context {fl : Float64}.
Variable self : ResilientPolicy.t.
Variable job : Job.

Lemma place_scan_total prev stage cands :
  unhashable_truthy (js_predecessor stage) = false ->
  (forall n, In n cands -> exists fmt, choose_exec_format (sim self) stage n = Ok fmt) ->
  forall b, exists b', place_scan self job prev stage b cands = Ok b'.
Proof.
  intros Hh. induction cands as [|node rest IH]; intros Hf b; simpl; [eauto|].
  unfold place_step.
  destruct (Hf node (or_introl eq_refl)) as (fmt & Hfmt). rewrite Hfmt. cbn [bind].
  unfold candidate_latency_ms.
  destruct (predecessor_node_hashable _ prev Hh) as (p & Hp). rewrite Hp. cbn [bind].
  match goal with |- context [if ?c then _ else _] => destruct c end; cbn [bind];
    apply IH; intros n Hn; apply Hf; right; exact Hn.
Qed.


Lemma place_stages_total stages :
  resilient_formats_ok self stages ->
  (forall stage, In stage stages -> _candidate_nodes self stage <> [] ->
     unhashable_truthy (js_predecessor stage) = false) ->
  forall pl prev, exists res, place_stages self job stages pl prev = Ok res.
Proof.
  induction stages as [|stage rest IH]; intros Hf Hall pl prev; simpl; [eauto|].
  assert (Hscan : exists b, place_scan self job prev stage best_init
                              (_candidate_nodes self stage) = Ok b).
  { destruct (_candidate_nodes self stage) as [|n l] eqn:Hc; [simpl; eauto|].
    apply place_scan_total.
    - apply Hall; [left; reflexivity|]. rewrite Hc. discriminate.
    - intros x Hx. apply (Hf stage x); [left; reflexivity|]. rewrite Hc. exact Hx. }
  destruct Hscan as (b & Hb). rewrite Hb. cbn [bind].
  assert (Hfr : resilient_formats_ok self rest)
    by (intros st x Hst Hx; apply (Hf st x); [right; exact Hst|exact Hx]).
  assert (Hr : forall st, In st rest -> _candidate_nodes self st <> [] ->
                 unhashable_truthy (js_predecessor st) = false)
    by (intros st Hst; apply Hall; right; exact Hst).
  destruct (best_node b); apply IH; assumption.
Qed.

(** When the loops return, every candidate of every stage has been
    scored. *)
Lemma place_stages_scored stages : forall pl prev res,
  place_stages self job stages pl prev = Ok res ->
  forall stage n, In stage stages -> In n (_candidate_nodes self stage) ->
  exists prev0 s, scored self job prev0 stage n s.
Proof.
  induction stages as [|stage rest IH]; intros pl prev res H st n Hst Hn; [destruct Hst|].
  simpl in H. bind_inv H b Hb. destruct Hst as [<-|Hst].
  - apply place_scan_best in Hb. destruct Hb as (_ & _ & Hall).
    destruct (Hall n Hn) as (sc & s & Hsc & _). eauto.
  - destruct (best_node b); eapply IH; eauto.
Qed.

Lemma scored_hashable prev stage n s :
  scored self job prev stage n s -> unhashable_truthy (js_predecessor stage) = false.
Proof.
  intros (fmt & lat & _ & Hlat & _).
  destruct (unhashable_truthy (js_predecessor stage)) eqn:Hu; [|reflexivity].
  unfold candidate_latency_ms in Hlat.
  rewrite (predecessor_node_unhashable _ prev Hu) in Hlat. discriminate.
Qed.


End ResilientRaises.

Lemma resilient_place_returns_iff {fl : Float64} (self : ResilientPolicy.t) (job : Job) :
  (exists pl, ResilientPolicy.place self job = Ok pl) <->
  resilient_formats_ok self (job_stages job)
  /\ (forall stage, In stage (job_stages job) ->
        ResilientPolicy._candidate_nodes self stage <> [] ->
        unhashable_truthy (js_predecessor stage) = false).
Proof.
  split.
  - intros (pl & H). apply place_Ok_inv in H. destruct H as [prev H]. split.
    + intros stage n Hst Hn.
      destruct (place_stages_scored self job _ _ _ _ H stage n Hst Hn)
        as (prev0 & s & fmt & lat & Hf & _).
      eauto.
    + intros stage Hst Hne.
      destruct (ResilientPolicy._candidate_nodes self stage) as [|n l] eqn:Hc;
        [contradiction|].
      destruct (place_stages_scored self job _ _ _ _ H stage n Hst) as (prev0 & s & Hs).
      { rewrite Hc. left. reflexivity. }
      apply (scored_hashable self job prev0 stage n s Hs).
  - intros (Hf & Hh). unfold ResilientPolicy.place.
    destruct (place_stages_total self job (job_stages job) Hf Hh ∅ ∅) as (res & H).
    rewrite H. cbn [bind]. eauto.
Qed.



(** ** Ties between candidates *)

(** X6: every entry of the mapping that the resilient policy returns is
    the decision for the last stage of its id that has candidates, and
    names the first, in the order of the node list, of the candidates of
    greatest composite of that stage, the stages before it having been
    placed as the policy places them: the candidates before it score
    strictly less, those after it at most as much, the scores being those
    of binary64 arithmetic. *)
Theorem X6_resilient_ties_go_to_first_candidate {fl : Float64} (self : ResilientPolicy.t)
    (job : Job) (pl : gmap string PlacementDecision) (sid : string)
    (d : PlacementDecision) :
  ResilientPolicy.place self job = Ok pl ->
  pl !! sid = Some d ->
  resilient_placed self job first_of_greatest sid d.
Proof.
  apply resilient_place_first.
Qed.

Lemma X6_witness :
  resilient_placed (fl := Fabric.exact) Fabric.resilient Fabric.job_single first_of_greatest
    "s1" (Fabric.on_n1 "s1").
Proof.
  apply (X6_resilient_ties_go_to_first_candidate (fl := Fabric.exact) Fabric.resilient
           Fabric.job_single {["s1" := Fabric.on_n1 "s1"]}).
  - vm_compute. reflexivity.
  - vm_compute. reflexivity.
Defined.

(** ** Complete and empty mappings *)

Lemma size_of_keys {A : Type} (pl : gmap string A) (ids : list string) :
  NoDup ids -> (forall sid, is_Some (pl !! sid) <-> In sid ids) ->
  size pl = length ids.
Proof.
  intros Hnd Hkeys. rewrite <- size_dom.
  assert (Hdom : dom pl = list_to_set ids).
  { apply set_eq. intros sid. rewrite elem_of_dom, elem_of_list_to_set, list_elem_of_In.
    apply Hkeys. }
  rewrite Hdom. apply size_list_to_set. exact Hnd.
Qed.

Lemma size_insert_le {A : Type} (pl : gmap string A) (sid : string) (x : A) :
  (size (<[sid := x]> pl) <= S (size pl))%nat.
Proof.
  destruct (pl !! sid) eqn:H.
  - rewrite map_size_insert_Some by eauto. lia.
  - rewrite map_size_insert_None by exact H. lia.
Qed.

Lemma resilient_place_stages_size {fl : Float64} (self : ResilientPolicy.t) (job : Job)
    stages :
  forall pl prev res,
    ResilientPolicy.place_stages self job stages pl prev = Ok res ->
    (size (fst res) <= size pl + length stages)%nat.
Proof.
  induction stages as [|stage rest IH]; intros pl prev res H; simpl in H.
  - inversion H. simpl. lia.
  - bind_inv H b Hb. destruct (ResilientPolicy.best_node b).
    + apply IH in H. pose proof (size_insert_le pl (js_id stage)
        {| stage_id := js_id stage; node_name := name n;
           exec_format := ResilientPolicy.best_format b |}). simpl. lia.
    + apply IH in H. simpl. lia.
Qed.

Lemma cvar_place_stages_size (g : Q -> Q -> nat -> Q) (self : RiskAwareCvarPolicy.t)
    (job : Job) stages : forall pl k res k',
    RiskAwareCvarPolicy.place_stages g self job stages pl k = Ok (res, k') ->
    (size res <= size pl + length stages)%nat.
Proof.
  induction stages as [|stage rest IH]; intros pl k res k' H; simpl in H.
  - inversion H. simpl. lia.
  - bind_inv H bk Hbk. destruct bk as [b k1]. simpl in H.
    destruct (RiskAwareCvarPolicy.best_dec b) as [d|].
    + apply IH in H. pose proof (size_insert_le pl (js_id stage) d). simpl. lia.
    + apply IH in H. simpl. lia.
Qed.

(** X7: the mapping that the resilient policy returns never has more
    entries than the job has stages, and it has exactly one entry per stage
    when the stage ids are distinct and every stage has a candidate
    node. *)
Theorem X7_resilient_mapping_size {fl : Float64} (self : ResilientPolicy.t) (job : Job)
    (pl : gmap string PlacementDecision) :
  ResilientPolicy.place self job = Ok pl ->
  (size pl <= length (job_stages job))%nat
  /\ (NoDup (List.map js_id (job_stages job)) ->
      (forall stage, In stage (job_stages job) ->
         ResilientPolicy._candidate_nodes self stage <> []) ->
      size pl = length (job_stages job)).
Proof.
  intros H. split.
  - apply place_Ok_inv in H. destruct H as [prev H].
    apply resilient_place_stages_size in H.
    rewrite map_size_empty in H. exact H.
  - intros Hnd Hall. rewrite <- (length_map js_id (job_stages job)).
    apply size_of_keys; [exact Hnd|]. intros sid.
    rewrite (resilient_place_keys self job pl sid H).
    rewrite in_map_iff. split.
    + intros (stage & Hin & Hid & _). exists stage. split; assumption.
    + intros (stage & Hid & Hin). exists stage. split; [exact Hin|].
      split; [exact Hid|apply Hall; exact Hin].
Qed.

Lemma X7_witness :
  (size ({["s1" := Fabric.on_n1 "s1"; "s2" := Fabric.on_n1 "s2"]}
         : gmap string PlacementDecision)
   <= length (job_stages Bench.job_two_small))%nat
  /\ (NoDup (List.map js_id (job_stages Bench.job_two_small)) ->
      (forall stage, In stage (job_stages Bench.job_two_small) ->
         ResilientPolicy._candidate_nodes Fabric.resilient stage <> []) ->
      size ({["s1" := Fabric.on_n1 "s1"; "s2" := Fabric.on_n1 "s2"]}
            : gmap string PlacementDecision)
      = length (job_stages Bench.job_two_small)).
Proof.
  apply (X7_resilient_mapping_size (fl := Fabric.exact) Fabric.resilient Bench.job_two_small).
  vm_compute. reflexivity.
Defined.

(** X8: the mapping that the CVaR policy returns never has more entries
    than the job has stages, and it has exactly one entry per stage when
    the stage ids are distinct and every stage has an available node that
    meets its GPU demand. *)
Theorem X8_cvar_mapping_size (g : Q -> Q -> nat -> Q) (self : RiskAwareCvarPolicy.t)
    (job : Job) (k : nat) (pl : gmap string PlacementDecision) (k' : nat) :
  RiskAwareCvarPolicy.place g self job k = Ok (pl, k') ->
  (size pl <= length (job_stages job))%nat
  /\ (NoDup (List.map js_id (job_stages job)) ->
      (forall stage, In stage (job_stages job) -> evaluated self stage <> []) ->
      size pl = length (job_stages job)).
Proof.
  intros H. split.
  - unfold RiskAwareCvarPolicy.place in H. apply cvar_place_stages_size in H.
    rewrite map_size_empty in H. exact H.
  - intros Hnd Hall. rewrite <- (length_map js_id (job_stages job)).
    apply size_of_keys; [exact Hnd|]. intros sid.
    rewrite (cvar_place_keys g self job k pl k' sid H).
    rewrite in_map_iff. split.
    + intros (stage & Hin & Hid & _). exists stage. split; assumption.
    + intros (stage & Hid & Hin). exists stage. split; [exact Hin|].
      split; [exact Hid|apply Hall; exact Hin].
Qed.

Lemma X8_witness :
  (size ({["s1" := Fabric.on_n1 "s1"]} : gmap string PlacementDecision)
   <= length (job_stages Fabric.job_single))%nat
  /\ (NoDup (List.map js_id (job_stages Fabric.job_single)) ->
      (forall stage, In stage (job_stages Fabric.job_single) ->
         evaluated Fabric.cvar stage <> []) ->
      size ({["s1" := Fabric.on_n1 "s1"]} : gmap string PlacementDecision)
      = length (job_stages Fabric.job_single)).
Proof.
  apply (X8_cvar_mapping_size Fabric.draws Fabric.cvar Fabric.job_single 0 _ 32).
  vm_compute. reflexivity.
Defined.

Lemma filter_nil_of_all_false {A : Type} (f : A -> bool) (l : list A) :
  (forall x, In x l -> f x = false) -> List.filter f l = [].
Proof.
  induction l as [|x r IH]; intros H; simpl; [reflexivity|].
  rewrite (H x (or_introl eq_refl)). apply IH. intros y Hy. apply H. right. exact Hy.
Qed.

Lemma resilient_no_candidate_when_down (self : ResilientPolicy.t) (stage : JobStage) :
  (forall n, In n (list_nodes (ResilientPolicy.state self)) -> available n = false) ->
  ResilientPolicy._candidate_nodes self stage = [].
Proof.
  intros H. unfold ResilientPolicy._candidate_nodes. apply filter_nil_of_all_false.
  intros n Hn. unfold ResilientPolicy.candidate_ok. rewrite (H n Hn). reflexivity.
Qed.

Lemma resilient_place_stages_no_candidates {fl : Float64} (self : ResilientPolicy.t)
    (job : Job) stages :
  (forall stage, ResilientPolicy._candidate_nodes self stage = []) ->
  forall pl prev, ResilientPolicy.place_stages self job stages pl prev = Ok (pl, prev).
Proof.
  intros H. induction stages as [|stage rest IH]; intros pl prev; simpl; [reflexivity|].
  rewrite (H stage). simpl. apply IH.
Qed.

Lemma cvar_place_stages_no_candidates (g : Q -> Q -> nat -> Q)
    (self : RiskAwareCvarPolicy.t) (job : Job) stages :
  (forall stage, RiskAwareCvarPolicy._candidate_nodes self stage = []) ->
  forall pl k, RiskAwareCvarPolicy.place_stages g self job stages pl k = Ok (pl, k).
Proof.
  intros H. induction stages as [|stage rest IH]; intros pl k; simpl; [reflexivity|].
  rewrite (H stage). simpl. apply IH.
Qed.

Lemma places_nothing_when_down (env : Env) (state0 : DTState)
    (cm : option ClusterManager) (strategy : json) (p : policy) (job : Job) (k : nat) :
  (forall n, In n (list_nodes (plan_state env state0)) -> available n = false) ->
  select_policy env state0 cm strategy = Ok p ->
  p <> GreedyLatency ->
  policy_place env state0 cm p job k = Ok ∅.
Proof.
  intros Hdown Hsel Hp. unfold select_policy in Hsel. bind_inv Hsel nm Hnm.
  destruct (String.eqb nm "resilient").
  - bind_inv Hsel rp Hrp. inversion Hsel; subst p. simpl.
    unfold ResilientPolicy.__init__ in Hrp. bind_inv Hrp w Hw. inversion Hrp; subst rp.
    unfold ResilientPolicy.place. rewrite resilient_place_stages_no_candidates; [reflexivity|].
    intros stage. apply resilient_no_candidate_when_down. exact Hdown.
  - destruct (String.eqb nm "cvar"); inversion Hsel; subst p; [|contradiction].
    simpl. unfold RiskAwareCvarPolicy.place.
    rewrite cvar_place_stages_no_candidates; [reflexivity|].
    intros stage. unfold RiskAwareCvarPolicy._candidate_nodes. simpl.
    apply filter_nil_of_all_false. exact Hdown.
Qed.

(** X9: when no node of the state is available, the resilient and the
    CVaR policy return an empty mapping for every job, and the handler
    answers a request for either policy, whose job parses, with 400, ["no
    feasible placements found"] and the ids of all the job's stages. *)
Theorem X9_no_available_node_no_plan (env : Env) (state0 : DTState)
    (cm : option ClusterManager) (uuid_hex : string) (k : nat)
    (body job_spec strategy : json) (job : Job) (p : policy) :
  (forall n, In n (list_nodes (plan_state env state0)) -> available n = false) ->
  py_get body "job" JNull = Ok job_spec ->
  truthy job_spec = true ->
  py_get body "strategy" (JStr "greedy") = Ok strategy ->
  parse_job_spec (str_compound env) (int_str env) job_spec = Ok job ->
  select_policy env state0 cm strategy = Ok p ->
  p <> GreedyLatency ->
  policy_place env state0 cm p job k = Ok ∅
  /\ plan env state0 cm uuid_hex k body
     = Response400 "no feasible placements found" (Some (List.map js_id (job_stages job))).
Proof.
  intros Hdown Hj Ht Hs Hparse Hsel Hp.
  pose proof (places_nothing_when_down env state0 cm strategy p job k Hdown Hsel Hp) as Hpl.
  split; [exact Hpl|].
  rewrite (plan_placed env state0 cm uuid_hex k body job_spec strategy job p ∅
             Hj Ht Hs Hparse Hsel Hpl).
  reflexivity.
Qed.

Lemma X9_witness :
  policy_place Fabric.env Bench.st_down (Some Fabric.cm) (Resilient Bench.resilient_down)
    Fabric.job_single 0 = Ok ∅
  /\ plan Fabric.env Bench.st_down (Some Fabric.cm) "0a1b2c3d" 0
       (Fabric.request "resilient" Fabric.spec_single)
     = Response400 "no feasible placements found" (Some ["s1"]).
Proof.
  apply (X9_no_available_node_no_plan Fabric.env Bench.st_down (Some Fabric.cm) "0a1b2c3d" 0
           (Fabric.request "resilient" Fabric.spec_single) Fabric.spec_single
           (JStr "resilient") Fabric.job_single (Resilient Bench.resilient_down)).
  - intros n [<-|[<-|[]]]; reflexivity.
  - reflexivity.
  - reflexivity.
  - reflexivity.
  - reflexivity.
  - reflexivity.
  - discriminate.
Defined.

(** ** Bounds of the scores *)

(** X10: the capacity score of the resilient policy is never negative and
    is at most 1 when the stage's cpu or memory demand is not negative; its
    utilisation score is never negative and is at most 1 when the node has
    no telemetry or one of its two utilisations is not negative. *)
Theorem X10_resilient_scores_bounded {fl : Float64} (stage : JobStage) (node : Node) :
  0 <= ResilientPolicy._score_capacity_fit stage node
  /\ ((0 <= cpu (js_compute stage))%Z \/ (0 <= mem_gb (js_compute stage))%Z ->
      ResilientPolicy._score_capacity_fit stage node <= 1)
  /\ 0 <= ResilientPolicy._utilization_score node
  /\ ((forall t, tel node = Some t -> 0 <= cpu_util t \/ 0 <= mem_util t) ->
      ResilientPolicy._utilization_score node <= 1).
Proof.
  split; [|split; [|split]].
  - unfold ResilientPolicy._score_capacity_fit.
    destruct (_ || _)%bool; [apply Qle_refl|apply Q.le_max_l].
  - intros Hd. unfold ResilientPolicy._score_capacity_fit.
    destruct (Qle_bool (allocatable_cpu (k8s node)) 0) eqn:E1; [simpl; discriminate|].
    destruct (Qle_bool (allocatable_mem_gb (k8s node)) 0) eqn:E2; [simpl; discriminate|].
    simpl.
    assert (Hc : 0 < allocatable_cpu (k8s node)).
    { apply Qlt_bool_true. unfold Qlt_bool. rewrite E1. reflexivity. }
    assert (Hm : 0 < allocatable_mem_gb (k8s node)).
    { apply Qlt_bool_true. unfold Qlt_bool. rewrite E2. reflexivity. }
    apply Q.max_lub; [discriminate|].
    destruct Hd as [Hd|Hd].
    + eapply Qle_trans; [apply Q.le_min_l|]. apply margin_le_1; assumption.
    + eapply Qle_trans; [apply Q.le_min_r|]. apply margin_le_1; assumption.
  - unfold ResilientPolicy._utilization_score. apply Q.le_max_l.
  - intros Ht. unfold ResilientPolicy._utilization_score.
    apply Q.max_lub; [discriminate|]. apply rnd_le_1.
    destruct (tel node) as [t|]; [|lra].
    assert (Hmax : 0 <= Qmax (cpu_util t) (mem_util t)).
    { destruct (Ht t eq_refl) as [H|H].
      - eapply Qle_trans; [exact H|apply Q.le_max_l].
      - eapply Qle_trans; [exact H|apply Q.le_max_r]. }
    assert (0 <= rnd (Qmax (cpu_util t) (mem_util t) / 100)).
    { apply rnd_nonneg. apply Qle_shift_div_l; [reflexivity|]. lra. }
    lra.
Qed.

(** ** Bounds of the quantile and of the tail mean *)

Lemma sorted_nth_le (a : list Q) (d : Q) :
  StronglySorted Qle a ->
  forall i j, (i <= j)%nat -> (j < length a)%nat -> nth i a d <= nth j a d.
Proof.
  induction 1 as [|y r Hr IH Hy]; intros i j Hij Hj; simpl in Hj; [lia|].
  destruct i as [|i]; destruct j as [|j]; simpl.
  - apply Qle_refl.
  - rewrite List.Forall_forall in Hy. apply Hy. apply nth_In. lia.
  - lia.
  - apply IH; lia.
Qed.

Lemma Qsum_bounds (l : list Q) (lo hi : Q) :
  (forall x, In x l -> lo <= x /\ x <= hi) ->
  inject_Z (Z.of_nat (length l)) * lo <= Qsum l
  /\ Qsum l <= inject_Z (Z.of_nat (length l)) * hi.
Proof.
  induction l as [|x r IH]; intros H.
  - cbn [length Qsum fold_right]. change (inject_Z (Z.of_nat 0)) with 0. split; lra.
  - change (Qsum (x :: r)) with (x + Qsum r). cbn [length].
    rewrite Nat2Z.inj_succ. unfold Z.succ. rewrite inject_Z_plus.
    destruct (IH (fun y Hy => H y (or_intror Hy))) as [H1 H2].
    destruct (H x (or_introl eq_refl)) as [H3 H4].
    change (inject_Z 1) with 1. split; lra.
Qed.

Lemma mean_bounds (l : list Q) (lo hi : Q) :
  l <> [] -> (forall x, In x l -> lo <= x /\ x <= hi) ->
  lo <= mean l /\ mean l <= hi.
Proof.
  intros Hne H. destruct (Qsum_bounds l lo hi H) as [H1 H2]. unfold mean.
  assert (Hlen : 0 < inject_Z (Z.of_nat (length l))).
  { change 0 with (inject_Z 0). rewrite <- Zlt_Qlt.
    destruct l; [contradiction|]. simpl. lia. }
  split.
  - apply Qle_shift_div_l; [exact Hlen|]. rewrite Qmult_comm. exact H1.
  - apply Qle_shift_div_r; [exact Hlen|]. rewrite Qmult_comm. exact H2.
Qed.

Lemma quantile_bounds (samples : list Q) (a m : Q) :
  0 <= a -> a <= 1 -> is_max m samples ->
  exists q, quantile samples a = Ok q
            /\ q <= m
            /\ forall lo, (forall s, In s samples -> lo <= s) -> lo <= q.
Proof.
  intros H0 H1 [Hin Hmax]. unfold quantile.
  pose proof H0 as H0b. pose proof H1 as H1b.
  apply Qle_bool_iff in H0b. apply Qle_bool_iff in H1b. rewrite H0b, H1b. cbn [andb].
  pose proof (sort_perm samples) as Hp. pose proof (sort_sorted samples) as Hs.
  destruct (sort samples) as [|x r] eqn:Ha.
  { apply Permutation_nil in Hp. subst samples. destruct Hin. }
  set (arr := x :: r) in *. eexists. split; [reflexivity|].
  set (n1 := (length arr - 1)%nat).
  set (pos := a * inject_Z (Z.of_nat n1)).
  assert (Hn1 : 0 <= inject_Z (Z.of_nat n1)).
  { change 0 with (inject_Z 0). rewrite <- Zle_Qle. lia. }
  assert (Hpos0 : 0 <= pos) by (unfold pos; apply Qmult_le_0_compat; assumption).
  assert (Hpos1 : pos <= inject_Z (Z.of_nat n1)).
  { unfold pos. rewrite <- (Qmult_1_l (inject_Z (Z.of_nat n1))) at 2.
    apply Qmult_le_compat_r; assumption. }
  assert (Hfl0 : (0 <= Qfloor pos)%Z).
  { change 0%Z with (Qfloor 0). apply Qfloor_resp_le. exact Hpos0. }
  assert (Hfl1 : (Qfloor pos <= Z.of_nat n1)%Z).
  { rewrite <- (Qfloor_Z (Z.of_nat n1)). apply Qfloor_resp_le. exact Hpos1. }
  set (lo := Z.to_nat (Qfloor pos)).
  assert (Hlo : (lo <= n1)%nat) by (unfold lo; lia).
  set (hi := Nat.min (S lo) n1).
  assert (Hhi : (lo <= hi /\ hi <= n1)%nat) by (unfold hi; lia).
  assert (Hlen : (n1 < length arr)%nat) by (unfold n1, arr; simpl; lia).
  set (gamma := pos - inject_Z (Qfloor pos)).
  assert (Hg0 : 0 <= gamma).
  { unfold gamma. pose proof (Qfloor_le pos). lra. }
  assert (Hg1 : gamma <= 1).
  { unfold gamma. pose proof (Qlt_floor pos) as Hlt.
    rewrite inject_Z_plus in Hlt. change (inject_Z 1) with 1 in Hlt. lra. }
  assert (Hlh : nth lo arr x <= nth hi arr x).
  { apply sorted_nth_le; [exact Hs|lia|lia]. }
  assert (Hq1 : nth lo arr x <= nth lo arr x + (nth hi arr x - nth lo arr x) * gamma).
  { assert (0 <= (nth hi arr x - nth lo arr x) * gamma).
    { apply Qmult_le_0_compat; [lra|exact Hg0]. }
    lra. }
  assert (Hq2 : nth lo arr x + (nth hi arr x - nth lo arr x) * gamma <= nth hi arr x).
  { assert ((nth hi arr x - nth lo arr x) * gamma <= (nth hi arr x - nth lo arr x) * 1).
    { rewrite !(Qmult_comm (nth hi arr x - nth lo arr x)).
      apply Qmult_le_compat_r; [exact Hg1|lra]. }
    lra. }
  split.
  - eapply Qle_trans; [exact Hq2|]. apply Hmax.
    apply (Permutation_in _ Hp). apply nth_In. lia.
  - intros l Hl. eapply Qle_trans; [|exact Hq1]. apply Hl.
    apply (Permutation_in _ Hp). apply nth_In. lia.
Qed.

(** X11: for a level in [[0, 1]] and samples with a greatest element [m],
    the quantile lies between the least and the greatest sample, the tail
    of the samples at or above it is never empty (the fallback to the
    quantile is never taken), and the tail mean lies between the quantile
    and [m]. *)
Theorem X11_tail_mean_between_quantile_and_greatest (samples : list Q) (a m : Q) :
  0 <= a -> a <= 1 -> is_max m samples ->
  exists q v,
    quantile samples a = Ok q
    /\ (forall lo, (forall s, In s samples -> lo <= s) -> lo <= q)
    /\ List.filter (fun s => Qle_bool q s) samples <> []
    /\ RiskAwareCvarPolicy.tail_mean samples a = Ok v
    /\ q <= v /\ v <= m.
Proof.
  intros H0 H1 Hm. destruct (quantile_bounds samples a m H0 H1 Hm) as (q & Hq & Hqm & Hmin).
  destruct Hm as [Hin Hmax].
  assert (Hmt : In m (List.filter (fun s => Qle_bool q s) samples)).
  { apply filter_In. split; [exact Hin|]. apply Qle_bool_iff. exact Hqm. }
  assert (Hall : forall s, In s (List.filter (fun s => Qle_bool q s) samples) ->
                           q <= s /\ s <= m).
  { intros s Hs. apply filter_In in Hs. destruct Hs as [Hs Hle].
    apply Qle_bool_iff in Hle. split; [exact Hle|apply Hmax; exact Hs]. }
  unfold RiskAwareCvarPolicy.tail_mean. rewrite Hq. cbn [bind].
  destruct (List.filter (fun s => Qle_bool q s) samples) as [|t0 tl] eqn:Ht;
    [destruct Hmt|].
  exists q, (mean (t0 :: tl)). split; [reflexivity|]. split; [exact Hmin|].
  split; [rewrite Ht; discriminate|]. split; [reflexivity|].
  apply mean_bounds; [discriminate|exact Hall].
Qed.

Lemma X11_witness :
  exists q v,
    quantile [4; 1; 3; 2] (95 # 100) = Ok q
    /\ (forall lo, (forall s, In s [4; 1; 3; 2] -> lo <= s) -> lo <= q)
    /\ List.filter (fun s => Qle_bool q s) [4; 1; 3; 2] <> []
    /\ RiskAwareCvarPolicy.tail_mean [4; 1; 3; 2] (95 # 100) = Ok v
    /\ q <= v /\ v <= 4.
Proof.
  apply (X11_tail_mean_between_quantile_and_greatest [4; 1; 3; 2] (95 # 100) 4).
  - qcompare.
  - qcompare.
  - split; [left; reflexivity|]. intros s [<-|[<-|[<-|[<-|[]]]]]; qcompare.
Defined.

(** ** Choosing the policy *)

Lemma lower_ascii_idempotent (c : ascii) : lower_ascii (lower_ascii c) = lower_ascii c.
Proof.
  destruct c as [[] [] [] [] [] [] [] []]; reflexivity.
Qed.

Lemma lower_idempotent (s : string) : lower (lower s) = lower s.
Proof.
  induction s as [|c s IH]; simpl; [reflexivity|].
  rewrite lower_ascii_idempotent, IH. reflexivity.
Qed.

Lemma lower_empty_iff (s : string) : String.eqb (lower s) "" = String.eqb s "".
Proof.
  destruct s; reflexivity.
Qed.

(** X12: the handler's choice of policy does not depend on the case of
    the strategy name; a name that is neither ["resilient"] nor ["cvar"]
    once lowered, and any falsy strategy, gives the greedy policy; a
    strategy that is truthy and not a string raises [AttributeError]. *)
Theorem X12_select_policy_by_name (env : Env) (state0 : DTState)
    (cm : option ClusterManager) :
  (forall s, select_policy env state0 cm (JStr s)
             = select_policy env state0 cm (JStr (lower s)))
  /\ (forall s, lower s <> "resilient" -> lower s <> "cvar" ->
                select_policy env state0 cm (JStr s) = Ok GreedyLatency)
  /\ (forall strategy, truthy strategy = false ->
                       select_policy env state0 cm strategy = Ok GreedyLatency)
  /\ (forall strategy, truthy strategy = true -> (forall s, strategy <> JStr s) ->
                       select_policy env state0 cm strategy = Raise AttributeError).
Proof.
  split; [|split; [|split]].
  - intros s. unfold select_policy. cbn [truthy]. rewrite lower_empty_iff.
    destruct (String.eqb s "") eqn:E; cbn [negb bind]; [reflexivity|].
    rewrite lower_idempotent. reflexivity.
  - intros s H1 H2. unfold select_policy. cbn [truthy].
    destruct (String.eqb s "") eqn:E; cbn [negb bind].
    + reflexivity.
    + apply String.eqb_neq in H1. apply String.eqb_neq in H2. rewrite H1, H2. reflexivity.
  - intros strategy H. unfold select_policy. rewrite H. reflexivity.
  - intros strategy H Hs. unfold select_policy. rewrite H.
    destruct strategy; try reflexivity. exfalso. apply (Hs s). reflexivity.
Qed.

Lemma X12_witness :
  select_policy Fabric.env Fabric.st (Some Fabric.cm) (JStr "CVaR")
  = select_policy Fabric.env Fabric.st (Some Fabric.cm) (JStr (lower "CVaR")).
Proof.
  apply (proj1 (X12_select_policy_by_name Fabric.env Fabric.st (Some Fabric.cm))).
Defined.

(** ** More on parsing *)

Lemma py_get_dict (d : json) (key : string) :
  is_dict d = true -> py_get d key JNull = Ok (default JNull (member d key)).
Proof.
  destruct d; try discriminate. intros _. simpl. destruct (assoc key kv); reflexivity.
Qed.

Lemma require_Ok (key : string) (payload v : json) :
  _require key payload = Ok v ->
  member payload key = Some v /\ is_None_or_empty_str v = false.
Proof.
  unfold _require. intros H. bind_inv H present Hp.
  destruct present; cbn [negb] in H; [|discriminate].
  bind_inv H x Hx. destruct (is_None_or_empty_str x) eqn:E; [discriminate|].
  inversion H; subst x. split; [|exact E].
  destruct payload; try discriminate. simpl in Hx. simpl.
  destruct (assoc key kv); [inversion Hx; reflexivity|discriminate].
Qed.

Lemma require_missing (key : string) (payload : json) :
  is_dict payload = true -> entry_missing payload key = true ->
  _require key payload = Raise (JobSpecError ("missing required field: " ++ key)).
Proof.
  destruct payload; try discriminate. intros _. unfold entry_missing, _require. simpl.
  destruct (assoc key kv) as [v|]; simpl; [|reflexivity].
  intros H. rewrite H. reflexivity.
Qed.

Section MoreParsing.

Variable str_c : json -> string.
Variable int_s : string -> option Z.

Lemma parse_stage_copied (stage_spec : json) (st : JobStage) :
  parse_stage str_c int_s stage_spec = Ok st -> stage_copied str_c stage_spec st.
Proof.
  unfold parse_stage. intros H.
  bind_inv H id_raw Hid. apply require_Ok in Hid. destruct Hid as [Hid Hne].
  bind_inv H compute_raw Hcompute. bind_inv H constraints_raw Hcons.
  bind_inv H cpu_raw Hcpu. bind_inv H cpu_v Hcpu_v.
  bind_inv H mem_raw Hmem. bind_inv H mem_v Hmem_v.
  bind_inv H dur_raw Hdur. bind_inv H dur_v Hdur_v.
  bind_inv H gpu_raw Hgpu. bind_inv H gpu_v Hgpu_v.
  bind_inv H wt_raw Hwt.
  bind_inv H arch_raw Harch. bind_inv H arch_v Harch_v.
  bind_inv H formats_raw Hformats. bind_inv H formats_v Hformats_v.
  bind_inv H locality Hloc. bind_inv H max_lat Hmax. bind_inv H pred_raw Hpred.
  apply py_get_member in Hpred. inversion H; subst st; clear H.
  exists id_raw. simpl. repeat split; assumption.
Qed.

Lemma parse_stages_copied (stages_spec : list json) : forall stages,
  parse_stages str_c int_s stages_spec = Ok stages ->
  Forall2 (stage_copied str_c) stages_spec stages.
Proof.
  induction stages_spec as [|sp rest IH]; intros stages H; simpl in H.
  - inversion H. constructor.
  - bind_inv H st Hst. bind_inv H sts Hsts. inversion H; subst stages.
    constructor; [apply parse_stage_copied; exact Hst|apply IH; exact Hsts].
Qed.

Lemma parse_job_spec_missing_name (job_spec : json) :
  is_dict job_spec = true ->
  is_dict (sub_object job_spec "spec") = true ->
  stage_specs_of job_spec <> [] ->
  is_dict (sub_object job_spec "metadata") = true ->
  entry_missing (sub_object job_spec "metadata") "name" = true ->
  parse_job_spec str_c int_s job_spec = Raise (JobSpecError "missing required field: name").
Proof.
  intros Hd Hspec Hst Hmeta Hname. unfold parse_job_spec. rewrite Hd. cbn [negb].
  rewrite (py_get_dict job_spec "metadata" Hd). cbn [bind].
  rewrite (py_get_dict job_spec "spec" Hd). cbn [bind].
  fold (sub_object job_spec "spec"). fold (sub_object job_spec "metadata").
  rewrite (py_get_dict (sub_object job_spec "spec") "stages" Hspec). cbn [bind].
  unfold stage_specs_of in Hst.
  destruct (py_list _) as [l|e]; [|contradiction]. cbn [bind].
  destruct l as [|sp0 sps]; [contradiction|].
  rewrite (require_missing "name" _ Hmeta Hname). reflexivity.
Qed.

End MoreParsing.

(** X13: a job specification with at least one stage whose metadata object
    has no [name], or a null or empty one, is rejected with
    [JobSpecError] ["missing required field: name"], and the handler
    answers a request for it with 400 and that message. *)
Theorem X13_missing_name_is_rejected (env : Env) (state0 : DTState)
    (cm : option ClusterManager) (uuid_hex : string) (k : nat) (body job_spec : json) :
  py_get body "job" JNull = Ok job_spec ->
  is_dict job_spec = true ->
  is_dict (sub_object job_spec "spec") = true ->
  stage_specs_of job_spec <> [] ->
  is_dict (sub_object job_spec "metadata") = true ->
  entry_missing (sub_object job_spec "metadata") "name" = true ->
  parse_job_spec (str_compound env) (int_str env) job_spec
  = Raise (JobSpecError "missing required field: name")
  /\ plan env state0 cm uuid_hex k body = Response400 "missing required field: name" None.
Proof.
  intros Hj Hd Hspec Hst Hmeta Hname.
  pose proof (parse_job_spec_missing_name (str_compound env) (int_str env) job_spec Hd Hspec Hst Hmeta Hname)
    as Hparse.
  split; [exact Hparse|].
  destruct (py_get_Ok _ _ _ _ Hj) as (kvb & Hbody & _).
  assert (Ht : truthy job_spec = true).
  { destruct job_spec as [| | | | | |kv]; try discriminate.
    destruct kv; [|reflexivity]. exfalso. apply Hst. reflexivity. }
  unfold plan. rewrite Hj. cbn [bind]. rewrite Ht. cbn [negb].
  subst body. cbn [py_get bind]. rewrite Hparse. reflexivity.
Qed.

Lemma X13_witness :
  parse_job_spec (str_compound Fabric.env) (int_str Fabric.env)
    (JObj [("metadata", JObj [("name", JStr "")]);
           ("spec", JObj [("stages", JArr [Fabric.stage_spec "s1" 1])])])
  = Raise (JobSpecError "missing required field: name")
  /\ plan Fabric.env Fabric.st (Some Fabric.cm) "0a1b2c3d" 0
       (JObj [("job", JObj [("metadata", JObj [("name", JStr "")]);
                            ("spec", JObj [("stages", JArr [Fabric.stage_spec "s1" 1])])])])
     = Response400 "missing required field: name" None.
Proof.
  apply (X13_missing_name_is_rejected Fabric.env Fabric.st (Some Fabric.cm) "0a1b2c3d" 0);
    try reflexivity.
  discriminate.
Defined.

(** X14: a job that [parse_job_spec] returns has one stage for each
    element of [spec.stages], in the same order and at least one; each
    stage carries the id ([str] of a present, non-empty [id]) and the
    predecessor of its specification, and the job's name is [str] of the
    metadata's [name]. *)
Theorem X14_parse_keeps_stages_in_order (str_c : json -> string)
    (int_s : string -> option Z) (job_spec : json)
    (job : Job) :
  parse_job_spec str_c int_s job_spec = Ok job ->
  job_stages job <> []
  /\ length (job_stages job) = length (stage_specs_of job_spec)
  /\ Forall2 (stage_copied str_c) (stage_specs_of job_spec) (job_stages job)
  /\ exists v, member (sub_object job_spec "metadata") "name" = Some v
               /\ job_name job = py_str str_c v.
Proof.
  unfold parse_job_spec. intros H.
  destruct (negb (is_dict job_spec)); [discriminate|].
  bind_inv H metadata_raw Hmeta. apply py_get_member in Hmeta. subst metadata_raw.
  bind_inv H spec_raw Hspec. apply py_get_member in Hspec. subst spec_raw.
  bind_inv H stages_raw Hstages. apply py_get_member in Hstages. subst stages_raw.
  bind_inv H stages_spec Hlist.
  destruct stages_spec as [|sp0 sps]; [discriminate|].
  bind_inv H name_raw Hname. bind_inv H deadline_raw Hdl. bind_inv H deadline Hdl_v.
  bind_inv H origin Horigin. bind_inv H stages Hst.
  inversion H; subst job; clear H.
  apply parse_stages_copied in Hst. apply require_Ok in Hname.
  unfold stage_specs_of, sub_object. rewrite Hlist. simpl.
  split; [|split; [|split]].
  - inversion Hst. discriminate.
  - symmetry. apply (Forall2_length _ _ _ Hst).
  - exact Hst.
  - exists name_raw. split; [apply Hname|reflexivity].
Qed.

Lemma X14_witness :
  job_stages Fabric.job_oversized <> []
  /\ length (job_stages Fabric.job_oversized) = length (stage_specs_of Fabric.spec_oversized)
  /\ Forall2 (stage_copied (str_compound Fabric.env)) (stage_specs_of Fabric.spec_oversized)
       (job_stages Fabric.job_oversized)
  /\ exists v, member (sub_object Fabric.spec_oversized "metadata") "name" = Some v
               /\ job_name Fabric.job_oversized = py_str (str_compound Fabric.env) v.
Proof.
  apply (X14_parse_keeps_stages_in_order (str_compound Fabric.env) (int_str Fabric.env)). reflexivity.
Defined.

(** ** The shape of a plan *)

Lemma size_placements_of (pl : gmap string PlacementDecision) :
  size (placements_of pl) = size pl.
Proof.
  rewrite <- !size_dom. f_equal. apply set_eq. intros sid.
  rewrite !elem_of_dom, placements_of_lookup, fmap_is_Some. reflexivity.
Qed.

Lemma size_shadow_plan_of (pl : gmap string PlacementDecision) :
  size (shadow_plan_of pl) = size pl.
Proof.
  unfold shadow_plan_of. rewrite <- (map_size_fmap node_name pl).
  generalize (node_name <$> pl). intros m.
  induction m as [|sid x m Hnone IH] using map_ind.
  - rewrite kmap_empty. reflexivity.
  - rewrite kmap_insert; [|exact backup_key_inj].
    rewrite map_size_insert_None.
    + rewrite map_size_insert_None by exact Hnone. rewrite IH. reflexivity.
    + rewrite lookup_kmap; [exact Hnone|exact backup_key_inj].
Qed.

(** X15: in every plan that the handler or the client's offline fallback
    returns, each placement is stored under its own [stage_id], the shadow
    plan has as many entries as there are placements, at least one, and the
    plan id is ["plan-"] followed by the eight hex digits. *)
Theorem X15_plan_shape (env : Env) (uuid_hex : string) (k : nat) (r : PlanResponse) :
  ((exists state0 cm body, plan env state0 cm uuid_hex k body = Response200 r)
   \/ (exists self job_spec strategy,
         DTClient.plan env self uuid_hex k job_spec strategy = Ok r)) ->
  (forall sid d, placements r !! sid = Some d -> stage_id d = sid)
  /\ size (shadow_plan r) = size (placements r)
  /\ (0 < size (placements r))%nat
  /\ plan_id r = "plan-" ++ uuid_hex.
Proof.
  assert (Hshape : forall pl : gmap string PlacementDecision, pl <> ∅ ->
            (forall sid d, placements_of pl !! sid = Some d -> stage_id d = sid)
            /\ size (shadow_plan_of pl) = size (placements_of pl)
            /\ (0 < size (placements_of pl))%nat).
  { intros pl Hne. split; [|split].
    - intros sid d Hd. rewrite placements_of_lookup in Hd.
      destruct (pl !! sid); inversion Hd. reflexivity.
    - rewrite size_shadow_plan_of, size_placements_of. reflexivity.
    - rewrite size_placements_of. apply map_size_non_empty_iff in Hne. lia. }
  intros [(state0 & cm & body & H)|(self & js & strategy & H)].
  - apply plan_200_inv in H.
    destruct H as (job_spec & strategy & job & p & pl & _ & _ & _ & _ & _ & Hne & ->).
    simpl. destruct (Hshape pl Hne) as (H1 & H2 & H3). repeat split; assumption.
  - unfold DTClient.plan in H.
    bind_inv H job Hjob. bind_inv H p Hp. bind_inv H pl Hpl.
    destruct (bool_decide (pl = ∅)) eqn:He; [discriminate|].
    apply bool_decide_eq_false in He. inversion H; subst r. simpl.
    destruct (Hshape pl He) as (H1 & H2 & H3). repeat split; assumption.
Qed.

Lemma X15_witness :
  (forall sid d, placements_of {["s1" := Fabric.on_n1 "s1"]} !! sid = Some d ->
                 stage_id d = sid)
  /\ size (shadow_plan_of {["s1" := Fabric.on_n1 "s1"]})
     = size (placements_of {["s1" := Fabric.on_n1 "s1"]})
  /\ (0 < size (placements_of {["s1" := Fabric.on_n1 "s1"]}))%nat
  /\ "plan-0a1b2c3d" = "plan-" ++ "0a1b2c3d".
Proof.
  refine (X15_plan_shape Fabric.env "0a1b2c3d" 0
            (plan_response Fabric.env Fabric.st "0a1b2c3d" Fabric.job_single
               {["s1" := Fabric.on_n1 "s1"]}) _).
  left. exists Fabric.st, (Some Fabric.cm), (Fabric.request "resilient" Fabric.spec_single).
  vm_compute. reflexivity.
Defined.

(** ** The handler and the client's offline fallback *)

Lemma plan_state_nonempty (env : Env) (st : DTState) :
  list_nodes st <> [] -> plan_state env st = st.
Proof.
  unfold plan_state. destruct (list_nodes st); [contradiction|reflexivity].
Qed.

Lemma client_select_policy_eq (env : Env) (st : DTState) (cm : option ClusterManager)
    (strategy : json) :
  list_nodes st <> [] ->
  DTClient._select_policy env
    {| DTClient._state := st; DTClient._cluster_manager := cm;
       DTClient._simulator := new_PredictiveSimulator env st |} strategy
  = select_policy env st cm strategy.
Proof.
  intros Hne. unfold DTClient._select_policy, select_policy, plan_sim.
  rewrite (plan_state_nonempty env st Hne). reflexivity.
Qed.

Lemma client_policy_place_eq (env : Env) (st : DTState) (cm : option ClusterManager)
    (p : policy) (job : Job) (k : nat) :
  list_nodes st <> [] ->
  DTClient.policy_place env
    {| DTClient._state := st; DTClient._cluster_manager := cm;
       DTClient._simulator := new_PredictiveSimulator env st |} p job k
  = policy_place env st cm p job k.
Proof.
  intros Hne. unfold DTClient.policy_place, policy_place, plan_sim.
  rewrite (plan_state_nonempty env st Hne). reflexivity.
Qed.

(** X16: on a state that has nodes, the client's offline fallback, with
    the simulator built from that state, returns a plan exactly when the
    handler answers 200 to the request with the same job specification and
    strategy, and the two plans are the same. *)
Theorem X16_offline_fallback_agrees_with_handler (env : Env) (st : DTState)
    (cm : option ClusterManager) (uuid_hex : string) (k : nat)
    (body job_spec strategy : json) (r : PlanResponse) :
  list_nodes st <> [] ->
  py_get body "job" JNull = Ok job_spec ->
  truthy job_spec = true ->
  py_get body "strategy" (JStr "greedy") = Ok strategy ->
  (DTClient.plan env
     {| DTClient._state := st; DTClient._cluster_manager := cm;
        DTClient._simulator := new_PredictiveSimulator env st |}
     uuid_hex k job_spec strategy = Ok r
   <-> plan env st cm uuid_hex k body = Response200 r).
Proof.
  intros Hne Hj Ht Hs. split.
  - intros H. unfold DTClient.plan in H.
    bind_inv H job Hjob. bind_inv H p Hp. bind_inv H pl Hpl.
    rewrite client_select_policy_eq in Hp by exact Hne.
    rewrite client_policy_place_eq in Hpl by exact Hne.
    rewrite (plan_placed env st cm uuid_hex k body job_spec strategy job p pl
               Hj Ht Hs Hjob Hp Hpl).
    destruct (bool_decide (pl = ∅)); [discriminate|].
    inversion H; subst r. unfold plan_response, plan_sim.
    rewrite (plan_state_nonempty env st Hne). reflexivity.
  - intros H. apply plan_200_inv in H.
    destruct H as (js & strat & job & p & pl & Hj' & Hs' & Hparse & Hsel & Hpl & Hnep & ->).
    rewrite Hj in Hj'. inversion Hj'; subst js.
    rewrite Hs in Hs'. inversion Hs'; subst strat.
    unfold DTClient.plan. rewrite Hparse. cbn [bind].
    rewrite client_select_policy_eq by exact Hne. rewrite Hsel. cbn [bind].
    rewrite client_policy_place_eq by exact Hne. rewrite Hpl. cbn [bind].
    rewrite bool_decide_eq_false_2 by exact Hnep.
    unfold plan_response, plan_sim. rewrite (plan_state_nonempty env st Hne). reflexivity.
Qed.

Lemma X16_witness :
  DTClient.plan Fabric.env
    {| DTClient._state := Fabric.st; DTClient._cluster_manager := Some Fabric.cm;
       DTClient._simulator := new_PredictiveSimulator Fabric.env Fabric.st |}
    "0a1b2c3d" 0 Fabric.spec_single (JStr "resilient")
  = Ok (plan_response Fabric.env Fabric.st "0a1b2c3d" Fabric.job_single
          {["s1" := Fabric.on_n1 "s1"]})
  <-> plan Fabric.env Fabric.st (Some Fabric.cm) "0a1b2c3d" 0
        (Fabric.request "resilient" Fabric.spec_single)
      = Response200 (plan_response Fabric.env Fabric.st "0a1b2c3d" Fabric.job_single
                       {["s1" := Fabric.on_n1 "s1"]}).
Proof.
  apply (X16_offline_fallback_agrees_with_handler Fabric.env Fabric.st (Some Fabric.cm)
           "0a1b2c3d" 0 (Fabric.request "resilient" Fabric.spec_single)
           Fabric.spec_single (JStr "resilient")).
  - discriminate.
  - reflexivity.
  - reflexivity.
  - reflexivity.
Defined.

(** ** The snapshot and the plan *)

Lemma snapshot_plan_state (env : Env) (state0 : DTState) :
  snapshot env state0 = List.map name (list_nodes (plan_state env state0)).
Proof.
  unfold snapshot, plan_state. destruct (list_nodes state0) eqn:E; [|rewrite E; reflexivity].
  destruct (seed_state env state0); [reflexivity|rewrite E; reflexivity].
Qed.

Lemma policy_place_valid (env : Env) (state0 : DTState) (cm : option ClusterManager)
    (s : string) (p : policy) (job : Job) (k : nat) (pl : gmap string PlacementDecision) :
  lower s = "resilient" \/ lower s = "cvar" ->
  select_policy env state0 cm (JStr s) = Ok p ->
  policy_place env state0 cm p job k = Ok pl ->
  map_Forall (decision_valid (list_nodes (plan_state env state0)) (job_stages job)) pl.
Proof.
  intros Hs Hsel Hpl. unfold select_policy in Hsel. bind_inv Hsel nm Hnm.
  assert (Hlow : nm = lower s).
  { cbn [truthy] in Hnm. destruct (String.eqb s "") eqn:E; cbn [negb] in Hnm.
    - apply String.eqb_eq in E. subst s. destruct Hs; discriminate.
    - inversion Hnm. reflexivity. }
  subst nm. destruct Hs as [Hs|Hs]; rewrite Hs in Hsel; cbn [String.eqb Ascii.eqb Bool.eqb] in Hsel.
  - rewrite (init_default_weights (fl := arith env)) in Hsel. cbn [bind] in Hsel.
    inversion Hsel; subst p. simpl in Hpl.
    apply (resilient_place_valid (fl := arith env)) in Hpl. exact Hpl.
  - inversion Hsel; subst p. simpl in Hpl. bind_inv Hpl r Hr. destruct r as [pl' k'].
    inversion Hpl; subst pl. apply cvar_place_valid in Hr. exact Hr.
Qed.

(** X17: every node that a plan of the resilient or of the CVaR policy
    assigns a stage to is listed by [/snapshot] on the same state. *)
Theorem X17_planned_nodes_are_in_snapshot (env : Env) (state0 : DTState)
    (cm : option ClusterManager) (uuid_hex : string) (k : nat) (body : json) (s : string)
    (r : PlanResponse) (sid : string) (d : PlacementDecision) :
  plan env state0 cm uuid_hex k body = Response200 r ->
  py_get body "strategy" (JStr "greedy") = Ok (JStr s) ->
  lower s = "resilient" \/ lower s = "cvar" ->
  placements r !! sid = Some d ->
  In (node_name d) (snapshot env state0).
Proof.
  intros H Hs Hlow Hd. apply plan_200_inv in H.
  destruct H as (js & strat & job & p & pl & _ & Hs' & _ & Hsel & Hpl & _ & ->).
  rewrite Hs in Hs'. inversion Hs'; subst strat.
  simpl in Hd. rewrite placements_of_lookup in Hd.
  destruct (pl !! sid) as [d0|] eqn:Hd0; inversion Hd; subst d; simpl.
  pose proof (policy_place_valid env state0 cm s p job k pl Hlow Hsel Hpl sid d0 Hd0) as Hv.
  destruct Hv as (stage & node & _ & _ & _ & Hin & Hname & _).
  rewrite snapshot_plan_state. rewrite <- Hname. apply in_map. exact Hin.
Qed.

Lemma X17_witness : In "n1" (snapshot Fabric.env Fabric.st).
Proof.
  apply (X17_planned_nodes_are_in_snapshot Fabric.env Fabric.st (Some Fabric.cm)
           "0a1b2c3d" 0 (Fabric.request "resilient" Fabric.spec_single) "resilient"
           (plan_response Fabric.env Fabric.st "0a1b2c3d" Fabric.job_single
              {["s1" := Fabric.on_n1 "s1"]}) "s1" (Fabric.on_n1 "s1")).
  - vm_compute. reflexivity.
  - reflexivity.
  - left. reflexivity.
  - vm_compute. reflexivity.
Defined.

(** ** The policy selector *)

Section Selector.

Import PolicySelector.

Lemma record_policy_performance_history (self : t) (nm : string) (ok : bool) (tm : Q) :
  exists records dropped,
    policy_performance (record_policy_performance self nm ok tm) !! nm = Some records
    /\ (dropped ++ records)%list
       = (default [] (policy_performance self !! nm)
          ++ [{| success := ok; completion_time_ms := tm |}])%list
    /\ last records = Some {| success := ok; completion_time_ms := tm |}
    /\ (length records <= 100)%nat
    /\ length records
       = Nat.min 100 (S (length (default [] (policy_performance self !! nm)))).
Proof.
  unfold record_policy_performance. cbn [policy_performance].
  set (old := default [] (policy_performance self !! nm)).
  set (rec := {| success := ok; completion_time_ms := tm |}).
  assert (Hlen : length (old ++ [rec]) = S (length old)).
  { rewrite length_app. simpl. lia. }
  destruct (100 <? length (old ++ [rec]))%nat eqn:E.
  - apply Nat.ltb_lt in E. unfold last_100.
    exists (skipn (length (old ++ [rec]) - 100) (old ++ [rec])),
           (firstn (length (old ++ [rec]) - 100) (old ++ [rec])).
    split; [apply lookup_insert_eq|]. split; [apply firstn_skipn|].
    split; [|split].
    + rewrite drop_app_le by lia. apply last_snoc.
    + rewrite length_skipn. lia.
    + rewrite length_skipn. lia.
  - apply Nat.ltb_ge in E. exists (old ++ [rec])%list, [].
    split; [apply lookup_insert_eq|]. split; [reflexivity|].
    split; [apply last_snoc|]. split; lia.
Qed.

Lemma record_policy_performance_bounded (self : t) (nm : string) (ok : bool) (tm : Q) :
  histories_bounded self -> histories_bounded (record_policy_performance self nm ok tm).
Proof.
  intros H other records Hl.
  destruct (decide (nm = other)) as [->|Hne].
  - destruct (record_policy_performance_history self other ok tm)
      as (r & d & Hr & _ & _ & Hb & _).
    rewrite Hr in Hl. inversion Hl; subst r. exact Hb.
  - unfold record_policy_performance in Hl. cbn [policy_performance] in Hl.
    rewrite lookup_insert_ne in Hl by exact Hne. apply (H other records Hl).
Qed.

Lemma record_all_bounded (events : list (string * bool * Q)) : forall self,
  histories_bounded self -> histories_bounded (record_all self events).
Proof.
  induction events as [|e rest IH]; intros self H; simpl; [exact H|].
  apply IH. apply record_policy_performance_bounded. exact H.
Qed.

End Selector.

(** X18: [record_policy_performance] leaves for the named policy a history
    that ends with the new record, is a suffix of the old history followed
    by the new record, and has the smaller of 100 and one more than the old
    number of records; the histories of the other policies are unchanged;
    so after any sequence of calls on a selector whose histories had at
    most 100 records, as a new selector's have, every history has at most
    100 records. *)
Theorem X18_performance_history_is_bounded (self : PolicySelector.t)
    (events : list (string * bool * Q)) :
  histories_bounded self ->
  histories_bounded (record_all self events)
  /\ forall nm ok tm,
       (exists records dropped,
           PolicySelector.policy_performance
             (PolicySelector.record_policy_performance self nm ok tm) !! nm = Some records
           /\ (dropped ++ records)%list
              = (default [] (PolicySelector.policy_performance self !! nm)
                 ++ [{| PolicySelector.success := ok;
                        PolicySelector.completion_time_ms := tm |}])%list
           /\ last records = Some {| PolicySelector.success := ok;
                                     PolicySelector.completion_time_ms := tm |}
           /\ length records
              = Nat.min 100
                  (S (length (default [] (PolicySelector.policy_performance self !! nm)))))
       /\ forall other, other <> nm ->
            PolicySelector.policy_performance
              (PolicySelector.record_policy_performance self nm ok tm) !! other
            = PolicySelector.policy_performance self !! other.
Proof.
  intros H. split; [apply record_all_bounded; exact H|].
  intros nm ok tm. split.
  - destruct (record_policy_performance_history self nm ok tm)
      as (r & d & H1 & H2 & H3 & _ & H5).
    exists r, d. repeat split; assumption.
  - intros other Hne. unfold PolicySelector.record_policy_performance.
    cbn [PolicySelector.policy_performance]. apply lookup_insert_ne. congruence.
Qed.

Lemma X18_witness :
  length <$> (PolicySelector.policy_performance
                (PolicySelector.record_policy_performance Bench.selector "greedy" true 100)
              !! "greedy")
  = Some 1%nat.
Proof.
  assert (H : histories_bounded Bench.selector).
  { intros nm records Hl. cbn [Bench.selector PolicySelector.policy_performance] in Hl.
    rewrite lookup_empty in Hl. discriminate. }
  destruct (proj2 (X18_performance_history_is_bounded Bench.selector [] H) "greedy" true 100)
    as [(r & d & H1 & _ & _ & H4) _].
  rewrite H1. cbn [fmap option_fmap option_map]. f_equal. rewrite H4.
  cbn [Bench.selector PolicySelector.policy_performance]. rewrite lookup_empty. reflexivity.
Defined.

Section SelectorChoice.

Import PolicySelector.

Lemma prune_keeps (self : t) (now : Q) (f : failure) :
  In f (recent_failures (_prune_old_failures self now))
  <-> In f (recent_failures self) /\ now - failure_window_seconds self < timestamp f.
Proof.
  unfold _prune_old_failures. cbn [recent_failures]. rewrite filter_In.
  rewrite Qlt_bool_true. reflexivity.
Qed.

Lemma prune_all_expired (self : t) (now : Q) :
  (forall f, In f (recent_failures self) ->
             timestamp f <= now - failure_window_seconds self) ->
  recent_failures (_prune_old_failures self now) = [].
Proof.
  intros H. destruct (recent_failures (_prune_old_failures self now)) as [|f r] eqn:E;
    [reflexivity|].
  assert (Hin : In f (recent_failures (_prune_old_failures self now))).
  { rewrite E. left. reflexivity. }
  apply prune_keeps in Hin. destruct Hin as [Hin Hlt]. specialize (H f Hin).
  exfalso. apply (Qlt_not_le _ _ Hlt H).
Qed.

Lemma unforced (self : t) (force : option string) :
  match force with
  | Some nm => nm = "" \/ policies self !! nm = None
  | None => True
  end ->
  match force with
  | Some nm => if negb (String.eqb nm "") then policies self !! nm else None
  | None => None
  end = None.
Proof.
  destruct force as [nm|]; [|reflexivity]. intros [->|H]; [reflexivity|].
  rewrite H. destruct (negb _); reflexivity.
Qed.

End SelectorChoice.

(** X19: once [record_failure] has recorded a failure, every selection
    that is not forced to a known policy returns the resilient policy as
    long as the failure is younger than the failure window, whatever the
    job and the load of the nodes; the failure is still recorded
    afterwards. *)
Theorem X19_recent_failure_selects_resilient (self : PolicySelector.t) (node : string)
    (stamp now1 now2 : Q) (job : Job) (force : option string) (p : policy) :
  PolicySelector.policies self !! "resilient" = Some p ->
  now1 - PolicySelector.failure_window_seconds self < stamp ->
  now2 - PolicySelector.failure_window_seconds self < stamp ->
  match force with
  | Some nm => nm = "" \/ PolicySelector.policies self !! nm = None
  | None => True
  end ->
  exists self',
    PolicySelector.select_policy_for_job
      (PolicySelector.record_failure self node stamp now1) job force now2
    = Ok (p, self')
    /\ In {| PolicySelector.failure_node := node; PolicySelector.timestamp := stamp |}
          (PolicySelector.recent_failures self').
Proof.
  intros Hp H1 H2 Hf.
  set (f := {| PolicySelector.failure_node := node; PolicySelector.timestamp := stamp |}).
  set (s1 := PolicySelector.record_failure self node stamp now1).
  assert (Hin1 : In f (PolicySelector.recent_failures s1)).
  { unfold s1, PolicySelector.record_failure. apply prune_keeps.
    cbn [PolicySelector.recent_failures PolicySelector.failure_window_seconds].
    split; [apply in_or_app; right; left; reflexivity | exact H1]. }
  assert (Hin2 : In f (PolicySelector.recent_failures
                         (PolicySelector._prune_old_failures s1 now2))).
  { apply prune_keeps. split; [exact Hin1 | exact H2]. }
  exists (PolicySelector._prune_old_failures s1 now2). split; [|exact Hin2].
  unfold PolicySelector.select_policy_for_job.
  rewrite (unforced s1 force Hf).
  unfold PolicySelector._has_recent_failures. cbn [fst snd].
  destruct (PolicySelector.recent_failures (PolicySelector._prune_old_failures s1 now2))
    as [|f0 r] eqn:E; [destruct Hin2|].
  unfold PolicySelector.policy_at.
  change (PolicySelector.policies (PolicySelector._prune_old_failures s1 now2))
    with (PolicySelector.policies self).
  rewrite Hp. reflexivity.
Qed.

Lemma X19_witness :
  exists self',
    PolicySelector.select_policy_for_job
      (PolicySelector.record_failure Bench.selector "n1" 1000 1000) Fabric.job_single
      (Some "fastest") 1299
    = Ok (Resilient Fabric.resilient, self')
    /\ In {| PolicySelector.failure_node := "n1"; PolicySelector.timestamp := 1000 |}
          (PolicySelector.recent_failures self').
Proof.
  apply (X19_recent_failure_selects_resilient Bench.selector "n1" 1000 1000 1299
           Fabric.job_single (Some "fastest") (Resilient Fabric.resilient)).
  - reflexivity.
  - reflexivity.
  - reflexivity.
  - right. reflexivity.
Defined.

(** X20: when every recorded failure is at least as old as the failure
    window, a selection that is not forced forgets them all and chooses by
    the job and the load alone: the resilient policy for a job with a
    deadline under 5000 ms or with an origin, otherwise the CVaR policy
    when the average utilisation of the nodes is above 0.75 and the greedy
    policy when it is not. *)
Theorem X20_expired_failures_are_forgotten (self : PolicySelector.t) (job : Job) (now : Q)
    (pr pc pg : policy) :
  PolicySelector.policies self !! "resilient" = Some pr ->
  PolicySelector.policies self !! "cvar" = Some pc ->
  PolicySelector.policies self !! "greedy" = Some pg ->
  (forall f, In f (PolicySelector.recent_failures self) ->
             PolicySelector.timestamp f <= now - PolicySelector.failure_window_seconds self) ->
  exists p self',
    PolicySelector.select_policy_for_job self job None now = Ok (p, self')
    /\ PolicySelector.recent_failures self' = []
    /\ ((job_deadline_ms job < 5000)%Z \/ job_origin job <> None -> p = pr)
    /\ ((5000 <= job_deadline_ms job)%Z -> job_origin job = None ->
        (3 # 4 < PolicySelector._average_utilization self -> p = pc)
        /\ (PolicySelector._average_utilization self <= 3 # 4 -> p = pg)).
Proof.
  intros Hr Hc Hg Hold.
  pose proof (prune_all_expired self now Hold) as Hnil.
  unfold PolicySelector.select_policy_for_job, PolicySelector._has_recent_failures.
  cbn [fst snd]. rewrite Hnil. unfold PolicySelector.policy_at.
  change (PolicySelector.policies (PolicySelector._prune_old_failures self now))
    with (PolicySelector.policies self).
  change (PolicySelector._average_utilization (PolicySelector._prune_old_failures self now))
    with (PolicySelector._average_utilization self).
  rewrite Hr, Hc, Hg. cbn [bind].
  destruct (job_deadline_ms job <? 5000)%Z eqn:Ed.
  - apply Z.ltb_lt in Ed. cbn [orb]. eexists _, _. split; [reflexivity|].
    split; [exact Hnil|]. split; [reflexivity|]. intros Hge. lia.
  - apply Z.ltb_ge in Ed. cbn [orb]. destruct (job_origin job) as [o|] eqn:Eo.
    + eexists _, _. split; [reflexivity|]. split; [exact Hnil|].
      split; [reflexivity|]. intros _ Hno. discriminate.
    + destruct (Qlt_bool (75 # 100) (PolicySelector._average_utilization self)) eqn:Eu.
      * apply Qlt_bool_true in Eu. eexists _, _. split; [reflexivity|].
        split; [exact Hnil|]. split.
        { intros [Hlt|Hne]; [lia | congruence]. }
        intros _ _. split; [reflexivity|]. intros Hle. exfalso. lra.
      * apply Qlt_bool_false in Eu. eexists _, _. split; [reflexivity|].
        split; [exact Hnil|]. split.
        { intros [Hlt|Hne]; [lia | congruence]. }
        intros _ _. split; [|reflexivity]. intros Hlt. exfalso. lra.
Qed.

Lemma X20_witness :
  exists p self',
    PolicySelector.select_policy_for_job Bench.selector_failed Fabric.job_single None 1500
    = Ok (p, self')
    /\ PolicySelector.recent_failures self' = []
    /\ ((job_deadline_ms Fabric.job_single < 5000)%Z \/ job_origin Fabric.job_single <> None ->
        p = Resilient Fabric.resilient)
    /\ ((5000 <= job_deadline_ms Fabric.job_single)%Z -> job_origin Fabric.job_single = None ->
        (3 # 4 < PolicySelector._average_utilization Bench.selector_failed ->
         p = RiskAwareCvar Fabric.cvar)
        /\ (PolicySelector._average_utilization Bench.selector_failed <= 3 # 4 ->
            p = GreedyLatency)).
Proof.
  apply (X20_expired_failures_are_forgotten Bench.selector_failed Fabric.job_single 1500
           (Resilient Fabric.resilient) (RiskAwareCvar Fabric.cvar) GreedyLatency).
  - reflexivity.
  - reflexivity.
  - reflexivity.
  - intros f [<-|[<-|[]]]; apply Qle_bool_iff; reflexivity.
Defined.

Section NewSelector.

Import PolicySelector.

Variable env : Env.
Variable st : DTState.
Variable simulator : PredictiveSimulator.
Variable cm : option ClusterManager.

#[local] Abbreviation rp := (selector_resilient env st simulator cm).
#[local] Abbreviation cp := (selector_cvar env st simulator cm).
#[local] Abbreviation built := (selector_policies env st simulator cm).

Lemma selector_init :
  __init__ env st simulator cm
  = Ok {| policies := built; recent_failures := []; failure_window_seconds := 300;
          policy_performance := ∅; state := st |}.
Proof.
  unfold __init__. rewrite (init_default_weights (fl := arith env)). reflexivity.
Qed.

Lemma built_lookup (nm : string) (p : policy) :
  built !! nm = Some p <->
  (nm = "cvar" /\ p = RiskAwareCvar cp) \/ (nm = "resilient" /\ p = Resilient rp)
  \/ (nm = "greedy" /\ p = GreedyLatency).
Proof.
  unfold selector_policies. rewrite !lookup_insert_Some, lookup_empty. split.
  - intros [[<- <-]|[_ [[<- <-]|[_ [[<- <-]|[_ H]]]]]]; [tauto..|discriminate].
  - intros [[-> ->]|[[-> ->]|[-> ->]]].
    + left. split; reflexivity.
    + right. split; [discriminate|]. left. split; reflexivity.
    + right. split; [discriminate|]. right. split; [discriminate|].
      left. split; reflexivity.
Qed.

Lemma built_select (self : t) (job : Job) (force : option string) (now : Q) :
  policies self = built ->
  exists p self',
    select_policy_for_job self job force now = Ok (p, self')
    /\ policies self' = built
    /\ (p = GreedyLatency \/ p = Resilient rp \/ p = RiskAwareCvar cp)
    /\ (force = Some "greedy" -> p = GreedyLatency /\ self' = self)
    /\ (force = Some "resilient" -> p = Resilient rp /\ self' = self)
    /\ (force = Some "cvar" -> p = RiskAwareCvar cp /\ self' = self).
Proof.
  intros Hb.
  assert (Hg : built !! "greedy" = Some GreedyLatency) by (apply built_lookup; tauto).
  assert (Hr : built !! "resilient" = Some (Resilient rp)) by (apply built_lookup; tauto).
  assert (Hc : built !! "cvar" = Some (RiskAwareCvar cp)) by (apply built_lookup; tauto).
  unfold select_policy_for_job.
  destruct (match force with
            | Some nm => if negb (String.eqb nm "") then policies self !! nm else None
            | None => None
            end) as [p|] eqn:E.
  - exists p, self. split; [reflexivity|]. split; [exact Hb|].
    destruct force as [nm|]; [|discriminate].
    destruct (negb (String.eqb nm "")); [|discriminate]. rewrite Hb in E.
    split; [apply built_lookup in E; tauto|].
    split; [|split]; intros Hf; inversion Hf; subst nm;
      (split; [congruence | reflexivity]).
  - assert (Hno : forall nm, built !! nm <> None -> force <> Some nm \/ nm = "").
    { intros nm Hnm. destruct force as [nm'|]; [|left; discriminate].
      destruct (String.eqb nm' "") eqn:En.
      - apply String.eqb_eq in En. subst nm'.
        destruct (decide (nm = "")); [right; assumption | left; congruence].
      - cbn [negb] in E. rewrite Hb in E. left. congruence. }
    unfold _has_recent_failures, policy_at. cbn [fst snd].
    change (policies (_prune_old_failures self now)) with (policies self).
    rewrite Hb, Hr, Hc, Hg. cbn [bind].
    assert (Hf : forall nm, built !! nm <> None -> nm <> "" -> force <> Some nm).
    { intros nm H1 H2. destruct (Hno nm H1); [assumption | contradiction]. }
    assert (Hfg : force <> Some "greedy") by (apply Hf; [congruence | discriminate]).
    assert (Hfr : force <> Some "resilient") by (apply Hf; [congruence | discriminate]).
    assert (Hfc : force <> Some "cvar") by (apply Hf; [congruence | discriminate]).
    destruct (recent_failures (_prune_old_failures self now));
      [destruct ((job_deadline_ms job <? 5000)%Z || _)%bool;
       [|destruct (Qlt_bool _ _)]|];
      eexists _, _; (split; [reflexivity|]); (split; [exact Hb|]);
      (split; [tauto|]); (split; [|split]); intros; contradiction.
Qed.

End NewSelector.

(** X21: the constructor of the selector returns a selector with the three
    policies, no failure and no history; and on a selector with these
    policies, which every method keeps, [select_policy_for_job] always
    returns one of the three, never raising [KeyError], whatever the job,
    the time and the forced name: a forced [greedy], [resilient] or [cvar]
    gives that policy and leaves the recorded failures as they are, and
    any other name is ignored. *)
Theorem X21_selector_always_selects (env : Env) (st : DTState)
    (simulator : PredictiveSimulator) (cm : option ClusterManager) :
  exists s,
    PolicySelector.__init__ env st simulator cm = Ok s
    /\ PolicySelector.policies s = selector_policies env st simulator cm
    /\ PolicySelector.recent_failures s = []
    /\ PolicySelector.policy_performance s = ∅
    /\ (forall nm ok tm node stamp now,
          PolicySelector.policies (PolicySelector.record_policy_performance s nm ok tm)
          = PolicySelector.policies s
          /\ PolicySelector.policies (PolicySelector.record_failure s node stamp now)
             = PolicySelector.policies s)
    /\ forall self job force now,
         PolicySelector.policies self = PolicySelector.policies s ->
         exists p self',
           PolicySelector.select_policy_for_job self job force now = Ok (p, self')
           /\ PolicySelector.policies self' = PolicySelector.policies s
           /\ (p = GreedyLatency
               \/ p = Resilient (selector_resilient env st simulator cm)
               \/ p = RiskAwareCvar (selector_cvar env st simulator cm))
           /\ (force = Some "greedy" -> p = GreedyLatency /\ self' = self)
           /\ (force = Some "resilient" ->
               p = Resilient (selector_resilient env st simulator cm) /\ self' = self)
           /\ (force = Some "cvar" ->
               p = RiskAwareCvar (selector_cvar env st simulator cm) /\ self' = self).
Proof.
  eexists. split; [apply selector_init|].
  split; [reflexivity|]. split; [reflexivity|]. split; [reflexivity|]. split.
  - intros. split; reflexivity.
  - intros self job force now Hb. apply built_select. exact Hb.
Qed.

Section SelectorStats.

Import PolicySelector.

Lemma stats_of_bounds (records : list performance) :
  total_jobs (stats_of records) = length records
  /\ 0 <= success_rate (stats_of records) <= 1
  /\ success_rate (stats_of records) * inject_Z (Z.of_nat (length records))
     == inject_Z (Z.of_nat (length (List.filter success records)))
  /\ ((forall r, In r records -> success r = false) ->
      avg_completion_ms (stats_of records) = 0)
  /\ forall lo hi,
       (exists r, In r records /\ success r = true) ->
       (forall r, In r records -> success r = true ->
                  lo <= completion_time_ms r <= hi) ->
       lo <= avg_completion_ms (stats_of records) <= hi.
Proof.
  destruct records as [|r0 rest].
  - cbn. split; [reflexivity|]. split; [split; discriminate|].
    split; [reflexivity|]. split; [reflexivity|].
    intros lo hi (r & [] & _).
  - set (records := r0 :: rest). unfold stats_of. fold records.
    cbn [total_jobs success_rate avg_completion_ms].
    set (n := inject_Z (Z.of_nat (length records))).
    set (k := inject_Z (Z.of_nat (length (List.filter success records)))).
    assert (Hn : 0 < n).
    { unfold n. change 0 with (inject_Z 0). rewrite <- Zlt_Qlt.
      unfold records. cbn [length]. lia. }
    assert (Hk : 0 <= k /\ k <= n).
    { unfold k, n. change 0 with (inject_Z 0). rewrite <- !Zle_Qle.
      pose proof (List.filter_length_le success records). lia. }
    split; [reflexivity|]. split; [|split; [|split]].
    + split.
      * apply Qle_shift_div_l; [exact Hn|]. lra.
      * apply Qle_shift_div_r; [exact Hn|]. lra.
    + rewrite Qmult_comm. apply Qmult_div_r. intros Hz. rewrite Hz in Hn.
      apply (Qlt_irrefl 0 Hn).
    + intros Hnone.
      assert (E : List.filter success records = []).
      { destruct (List.filter success records) as [|r l] eqn:E; [reflexivity|].
        assert (Hin : In r (List.filter success records)) by (rewrite E; left; reflexivity).
        apply filter_In in Hin. destruct Hin as [Hin Hs].
        rewrite (Hnone r Hin) in Hs. discriminate. }
      rewrite E. reflexivity.
    + intros lo hi (r & Hin & Hs) Hb.
      assert (Hne : List.map completion_time_ms (List.filter success records) <> []).
      { intros E. apply map_eq_nil in E.
        assert (Hin' : In r (List.filter success records))
          by (apply filter_In; split; assumption).
        rewrite E in Hin'. destruct Hin'. }
      assert (Hall : forall x,
                 In x (List.map completion_time_ms (List.filter success records)) ->
                 lo <= x /\ x <= hi).
      { intros x Hx. apply in_map_iff in Hx. destruct Hx as (r' & <- & Hr').
        apply filter_In in Hr'. destruct Hr' as [Hr' Hs']. apply (Hb r' Hr' Hs'). }
      pose proof (mean_bounds _ lo hi Hne Hall) as Hm.
      destruct (List.map completion_time_ms (List.filter success records));
        [contradiction | exact Hm].
Qed.

Lemma average_utilization_bounds (self : t) (u : Q) :
  (forall n t, In n (list_nodes (state self)) -> tel n = Some t ->
               0 <= cpu_util t <= u /\ 0 <= mem_util t <= u) ->
  0 <= u ->
  0 <= _average_utilization self <= u / 100.
Proof.
  intros H Hu. unfold _average_utilization.
  assert (Hu' : 0 <= u / 100) by (apply Qle_shift_div_l; lra).
  destruct (list_nodes (state self)) as [|n0 rest] eqn:E; [split; [lra | exact Hu']|].
  apply mean_bounds; [discriminate|].
  intros x Hx. apply in_map_iff in Hx. destruct Hx as (n & <- & Hn).
  unfold node_utilization. destruct (tel n) as [t|] eqn:Et; [|split; [lra | exact Hu']].
  destruct (H n t Hn Et) as [[Hc1 Hc2] [Hm1 Hm2]].
  assert (Hmax : 0 <= Qmax (cpu_util t) (mem_util t) <= u).
  { split.
    - apply Qle_trans with (cpu_util t); [exact Hc1 | apply Q.le_max_l].
    - apply Q.max_lub; assumption. }
  split.
  - apply Qle_shift_div_l; lra.
  - unfold Qdiv. apply Qmult_le_compat_r; [apply Hmax | discriminate].
Qed.

End SelectorStats.

(** X22: [get_policy_stats] reports exactly the policies that have a
    history; for each, [total_jobs] is the number of its records,
    [success_rate] lies in [[0, 1]] and is the share of the successful
    records, and [avg_completion_ms] is 0 when no record is successful and
    otherwise lies between any two bounds of the completion times of the
    successful records (failed ones do not count). *)
Theorem X22_policy_stats (self : PolicySelector.t) (nm : string) :
  (PolicySelector.get_policy_stats self !! nm = None
   <-> PolicySelector.policy_performance self !! nm = None)
  /\ forall records,
       PolicySelector.policy_performance self !! nm = Some records ->
       exists s,
         PolicySelector.get_policy_stats self !! nm = Some s
         /\ PolicySelector.total_jobs s = length records
         /\ 0 <= PolicySelector.success_rate s <= 1
         /\ PolicySelector.success_rate s * inject_Z (Z.of_nat (length records))
            == inject_Z (Z.of_nat (length (List.filter PolicySelector.success records)))
         /\ ((forall r, In r records -> PolicySelector.success r = false) ->
             PolicySelector.avg_completion_ms s = 0)
         /\ forall lo hi,
              (exists r, In r records /\ PolicySelector.success r = true) ->
              (forall r, In r records -> PolicySelector.success r = true ->
                         lo <= PolicySelector.completion_time_ms r <= hi) ->
              lo <= PolicySelector.avg_completion_ms s <= hi.
Proof.
  unfold PolicySelector.get_policy_stats. rewrite lookup_fmap. split.
  - destruct (PolicySelector.policy_performance self !! nm); simpl; split;
      intros H; congruence.
  - intros records Hr. rewrite Hr. cbn [fmap option_fmap option_map].
    eexists. split; [reflexivity|]. apply stats_of_bounds.
Qed.

(** X23: when the utilisations of every node with telemetry lie between 0
    and [u] percent, the average utilisation that the selector computes
    lies between 0 and [u / 100]; so while no node is loaded above 75
    percent a selection that is not forced never returns the CVaR policy:
    it returns the resilient or the greedy one. *)
Theorem X23_light_load_never_selects_cvar (self : PolicySelector.t) (u : Q) (job : Job)
    (now : Q) (pr pc pg : policy) :
  PolicySelector.policies self !! "resilient" = Some pr ->
  PolicySelector.policies self !! "cvar" = Some pc ->
  PolicySelector.policies self !! "greedy" = Some pg ->
  (forall n t, In n (list_nodes (PolicySelector.state self)) -> tel n = Some t ->
               0 <= cpu_util t <= u /\ 0 <= mem_util t <= u) ->
  0 <= u ->
  0 <= PolicySelector._average_utilization self <= u / 100
  /\ (u <= 75 ->
      exists p self',
        PolicySelector.select_policy_for_job self job None now = Ok (p, self')
        /\ (p = pr \/ p = pg)).
Proof.
  intros Hr Hc Hg H Hu.
  pose proof (average_utilization_bounds self u H Hu) as Hb. split; [exact Hb|].
  intros H75.
  assert (Hle : PolicySelector._average_utilization self <= 3 # 4).
  { apply Qle_trans with (u / 100); [apply Hb|]. apply Qle_shift_div_r; lra. }
  unfold PolicySelector.select_policy_for_job, PolicySelector._has_recent_failures,
    PolicySelector.policy_at.
  cbn [fst snd].
  change (PolicySelector.policies (PolicySelector._prune_old_failures self now))
    with (PolicySelector.policies self).
  change (PolicySelector._average_utilization (PolicySelector._prune_old_failures self now))
    with (PolicySelector._average_utilization self).
  rewrite Hr, Hc, Hg. cbn [bind].
  assert (Eu : Qlt_bool (75 # 100) (PolicySelector._average_utilization self) = false).
  { apply Qlt_bool_false. lra. }
  rewrite Eu.
  destruct (PolicySelector.recent_failures (PolicySelector._prune_old_failures self now));
    [destruct ((job_deadline_ms job <? 5000)%Z || _)%bool|];
    eexists _, _; (split; [reflexivity|]); tauto.
Qed.

Lemma X23_witness :
  0 <= PolicySelector._average_utilization Bench.selector <= 50 / 100
  /\ (50 <= 75 ->
      exists p self',
        PolicySelector.select_policy_for_job Bench.selector Fabric.job_single None 1000
        = Ok (p, self')
        /\ (p = Resilient Fabric.resilient \/ p = GreedyLatency)).
Proof.
  apply (X23_light_load_never_selects_cvar Bench.selector 50 Fabric.job_single 1000
           (Resilient Fabric.resilient) (RiskAwareCvar Fabric.cvar) GreedyLatency).
  - reflexivity.
  - reflexivity.
  - reflexivity.
  - intros n t [<-|[<-|[]]] Ht; inversion Ht; subst t; cbn [cpu_util mem_util];
      repeat split; apply Qle_bool_iff; reflexivity.
  - apply Qle_bool_iff. reflexivity.
Defined.

(** ** The chaos runner *)

Section Chaos.

Import ChaosScenarioRunner.

Variable new_PredictiveSimulator : nat -> DTState -> Q -> PredictiveSimulator.
Variable random : nat -> Q.
Variable self : t.
Variable job : Job.
Variable placements : gmap string PlacementDecision.
Variable failure_probability : Q.

#[local] Abbreviation trial_of :=
  (trial new_PredictiveSimulator random self job placements failure_probability).
#[local] Abbreviation failed := (fun i => fst (trial_of i)).
#[local] Abbreviation latency := (fun i => snd (trial_of i)).

Lemma run_trials_spec (n : nat) : forall i results recovery_times failures,
  run_trials new_PredictiveSimulator random self job placements failure_probability
    n i results recovery_times failures
  = ((results ++ List.map latency (seq i n))%list,
     (recovery_times ++ List.map latency (List.filter failed (seq i n)))%list,
     (failures + Z.of_nat (length (List.filter failed (seq i n))))%Z).
Proof.
  induction n as [|n IH]; intros i results recovery_times failures.
  - cbn [run_trials seq List.map List.filter length]. rewrite !app_nil_r.
    rewrite Z.add_0_r. reflexivity.
  - cbn [run_trials seq List.map List.filter].
    destruct (trial_of i) as [f l] eqn:E. cbn [fst snd].
    destruct f; rewrite IH; cbn [List.map length fst snd]; rewrite ?E; cbn [fst snd];
      rewrite <- ?app_assoc; cbn [app];
      try (rewrite Nat2Z.inj_succ, <- Z.add_1_l, Z.add_assoc); reflexivity.
Qed.

Lemma average_mean (xs : list Q) : xs <> [] -> average xs = mean xs.
Proof. destruct xs; [contradiction | reflexivity]. Qed.

Lemma filter_none {A : Type} (f : A -> bool) (l : list A) :
  (forall x, In x l -> f x = false) -> List.filter f l = [].
Proof.
  induction l as [|a l IH]; intros H; [reflexivity|]. cbn [List.filter].
  rewrite (H a) by (left; reflexivity). apply IH. intros x Hx. apply H. right. exact Hx.
Qed.

Lemma run_with_node_failure_Ok (num_trials : Z) (now : Q) :
  num_trials <> 0%Z ->
  let n := Z.to_nat num_trials in
  let results := List.map latency (seq 0 n) in
  let recovery := List.map latency (List.filter failed (seq 0 n)) in
  let summary :=
    {| success_rate :=
         inject_Z (Z.of_nat (length (List.filter (fun r => Qlt_bool 0 r) results)))
         / inject_Z num_trials;
       avg_completion_time_ms := average results;
       recovery_time_ms := average recovery;
       failures_observed := Z.of_nat (length (List.filter failed (seq 0 n)));
       total_trials := num_trials |} in
  run_with_node_failure new_PredictiveSimulator random self job placements
    failure_probability num_trials now
  = Ok (summary,
        {| state := state self; simulator := simulator self;
           executed_scenarios :=
             (executed_scenarios self
              ++ [{| scenario_type := "node_failure"; scenario_timestamp := now;
                     scenario_result := summary |}])%list |}).
Proof.
  intros Hn n results recovery summary. unfold run_with_node_failure.
  rewrite run_trials_spec. cbn [app Z.add].
  apply Z.eqb_neq in Hn. rewrite Hn. reflexivity.
Qed.

End Chaos.

(** X24: [run_with_node_failure] raises [ZeroDivisionError] exactly when
    [num_trials] is 0, recording no scenario; otherwise it returns a
    summary whose [total_trials] is [num_trials], and appends to
    [executed_scenarios] one scenario of type [node_failure] that holds
    this summary, so that [get_scenario_summary] counts one more. *)
Theorem X24_chaos_run_raises_iff_no_trial
    (new_PredictiveSimulator : nat -> DTState -> Q -> PredictiveSimulator)
    (random : nat -> Q) (self : ChaosScenarioRunner.t) (job : Job)
    (placements : gmap string PlacementDecision) (failure_probability : Q)
    (num_trials : Z) (now : Q) :
  (num_trials = 0%Z <->
   ChaosScenarioRunner.run_with_node_failure new_PredictiveSimulator random self job
     placements failure_probability num_trials now = Raise ZeroDivisionError)
  /\ (num_trials <> 0%Z <->
      exists summary self',
        ChaosScenarioRunner.run_with_node_failure new_PredictiveSimulator random self job
          placements failure_probability num_trials now = Ok (summary, self')
        /\ ChaosScenarioRunner.total_trials summary = num_trials
        /\ ChaosScenarioRunner.executed_scenarios self'
           = (ChaosScenarioRunner.executed_scenarios self
              ++ [{| ChaosScenarioRunner.scenario_type := "node_failure";
                     ChaosScenarioRunner.scenario_timestamp := now;
                     ChaosScenarioRunner.scenario_result := summary |}])%list
        /\ fst (ChaosScenarioRunner.get_scenario_summary self')
           = S (fst (ChaosScenarioRunner.get_scenario_summary self))).
Proof.
  assert (H0 : num_trials = 0%Z ->
               ChaosScenarioRunner.run_with_node_failure new_PredictiveSimulator random self
                 job placements failure_probability num_trials now
               = Raise ZeroDivisionError).
  { intros ->. reflexivity. }
  assert (H1 : num_trials <> 0%Z ->
               exists summary self',
                 ChaosScenarioRunner.run_with_node_failure new_PredictiveSimulator random
                   self job placements failure_probability num_trials now
                 = Ok (summary, self')
                 /\ ChaosScenarioRunner.total_trials summary = num_trials
                 /\ ChaosScenarioRunner.executed_scenarios self'
                    = (ChaosScenarioRunner.executed_scenarios self
                       ++ [{| ChaosScenarioRunner.scenario_type := "node_failure";
                              ChaosScenarioRunner.scenario_timestamp := now;
                              ChaosScenarioRunner.scenario_result := summary |}])%list
                 /\ fst (ChaosScenarioRunner.get_scenario_summary self')
                    = S (fst (ChaosScenarioRunner.get_scenario_summary self))).
  { intros Hn. eexists _, _. split; [apply run_with_node_failure_Ok; exact Hn|].
    split; [reflexivity|]. split; [reflexivity|].
    unfold ChaosScenarioRunner.get_scenario_summary.
    cbn [fst ChaosScenarioRunner.executed_scenarios]. rewrite length_app.
    cbn [length]. lia. }
  split; split.
  - exact H0.
  - intros Hr. destruct (Z.eq_dec num_trials 0%Z) as [E|E]; [exact E|].
    destruct (H1 E) as (s & s' & Hs & _). rewrite Hs in Hr. discriminate.
  - exact H1.
  - intros (s & s' & Hs & _) E. rewrite (H0 E) in Hs. discriminate.
Qed.

(** X25: with a positive number of trials the summary of
    [run_with_node_failure] is consistent: the failures observed are
    between 0 and [num_trials], the success rate is between 0 and 1, the
    average completion time lies between any two bounds of the latencies
    that the trials' simulators predict, and so does the recovery time
    when a failure was observed; with no failure observed the recovery
    time is 0. *)
Theorem X25_chaos_summary_is_consistent
    (new_PredictiveSimulator : nat -> DTState -> Q -> PredictiveSimulator)
    (random : nat -> Q) (self : ChaosScenarioRunner.t) (job : Job)
    (placements : gmap string PlacementDecision) (failure_probability : Q)
    (num_trials : Z) (now : Q) (lo hi : Q) :
  (0 < num_trials)%Z ->
  (forall i rate,
      lo <= latency_ms (score_plan
                          (new_PredictiveSimulator i (ChaosScenarioRunner.state self) rate)
                          job placements) <= hi) ->
  exists summary self',
    ChaosScenarioRunner.run_with_node_failure new_PredictiveSimulator random self job
      placements failure_probability num_trials now = Ok (summary, self')
    /\ (0 <= ChaosScenarioRunner.failures_observed summary <= num_trials)%Z
    /\ 0 <= ChaosScenarioRunner.success_rate summary <= 1
    /\ lo <= ChaosScenarioRunner.avg_completion_time_ms summary <= hi
    /\ ((0 < ChaosScenarioRunner.failures_observed summary)%Z ->
        lo <= ChaosScenarioRunner.recovery_time_ms summary <= hi)
    /\ (ChaosScenarioRunner.failures_observed summary = 0%Z ->
        ChaosScenarioRunner.recovery_time_ms summary = 0).
Proof.
  intros Hn Hb. eexists _, _. split; [apply run_with_node_failure_Ok; lia|].
  cbn [ChaosScenarioRunner.failures_observed ChaosScenarioRunner.success_rate
       ChaosScenarioRunner.avg_completion_time_ms ChaosScenarioRunner.recovery_time_ms].
  set (n := Z.to_nat num_trials).
  set (tr := ChaosScenarioRunner.trial new_PredictiveSimulator random self job placements
               failure_probability).
  assert (Hlat : forall (l : list nat) x,
             In x (List.map (fun i => snd (tr i)) l) -> lo <= x /\ x <= hi).
  { intros l x Hx. apply in_map_iff in Hx. destruct Hx as (i & <- & _).
    unfold tr, ChaosScenarioRunner.trial. cbn [snd]. apply Hb. }
  assert (Hf : (length (List.filter (fun i => fst (tr i)) (seq 0 n)) <= n)%nat).
  { etransitivity; [apply List.filter_length_le|]. rewrite length_seq. reflexivity. }
  assert (Hnn : (0 < n)%nat) by (unfold n; lia).
  assert (Hnz : Z.of_nat n = num_trials) by (unfold n; lia).
  split; [lia|]. split; [|split; [|split]].
  - assert (Hp : (length (List.filter (fun r => Qlt_bool 0 r)
                            (List.map (fun i => snd (tr i)) (seq 0 n))) <= n)%nat).
    { etransitivity; [apply List.filter_length_le|].
      rewrite length_map, length_seq. reflexivity. }
    assert (Hq : 0 < inject_Z num_trials).
    { change 0 with (inject_Z 0). rewrite <- Zlt_Qlt. exact Hn. }
    split.
    + apply Qle_shift_div_l; [exact Hq|]. rewrite Qmult_0_l.
      change 0 with (inject_Z 0). rewrite <- Zle_Qle. lia.
    + apply Qle_shift_div_r; [exact Hq|]. rewrite Qmult_1_l.
      rewrite <- Zle_Qle. lia.
  - rewrite average_mean.
    + apply mean_bounds; [|apply Hlat]. destruct n; [lia | discriminate].
    + destruct n; [lia | discriminate].
  - intros Hpos. destruct (List.filter (fun i => fst (tr i)) (seq 0 n)) eqn:E;
      [cbn in Hpos; lia|].
    rewrite average_mean by discriminate. apply mean_bounds; [discriminate | apply Hlat].
  - intros Hz. destruct (List.filter (fun i => fst (tr i)) (seq 0 n)) eqn:E;
      [reflexivity | cbn [length] in Hz; lia].
Qed.

Lemma X25_witness :
  exists summary self',
    ChaosScenarioRunner.run_with_node_failure Bench.trial_simulator Bench.half Bench.runner
      Fabric.job_single Bench.plan_s1 (3 # 10) 10 1000 = Ok (summary, self')
    /\ (0 <= ChaosScenarioRunner.failures_observed summary <= 10)%Z
    /\ 0 <= ChaosScenarioRunner.success_rate summary <= 1
    /\ 100 <= ChaosScenarioRunner.avg_completion_time_ms summary <= 100
    /\ ((0 < ChaosScenarioRunner.failures_observed summary)%Z ->
        100 <= ChaosScenarioRunner.recovery_time_ms summary <= 100)
    /\ (ChaosScenarioRunner.failures_observed summary = 0%Z ->
        ChaosScenarioRunner.recovery_time_ms summary = 0).
Proof.
  apply (X25_chaos_summary_is_consistent Bench.trial_simulator Bench.half Bench.runner
           Fabric.job_single Bench.plan_s1 (3 # 10) 10 1000 100 100).
  - reflexivity.
  - intros i rate. split; apply Qle_bool_iff; vm_compute; reflexivity.
Defined.

(** X26: when the generator's values lie in [[0, 1)], as those of
    [random.random()] do, a failure probability of 0 or less makes no
    trial fail (no failure observed, recovery time 0), and a failure
    probability of 1 or more makes every trial fail (as many failures as
    trials, and the recovery time is the average completion time). *)
Theorem X26_chaos_extreme_probabilities
    (new_PredictiveSimulator : nat -> DTState -> Q -> PredictiveSimulator)
    (random : nat -> Q) (self : ChaosScenarioRunner.t) (job : Job)
    (placements : gmap string PlacementDecision) (failure_probability : Q)
    (num_trials : Z) (now : Q) :
  (0 < num_trials)%Z ->
  (forall i, 0 <= random i /\ random i < 1) ->
  exists summary self',
    ChaosScenarioRunner.run_with_node_failure new_PredictiveSimulator random self job
      placements failure_probability num_trials now = Ok (summary, self')
    /\ (failure_probability <= 0 ->
        ChaosScenarioRunner.failures_observed summary = 0%Z
        /\ ChaosScenarioRunner.recovery_time_ms summary = 0)
    /\ (1 <= failure_probability ->
        ChaosScenarioRunner.failures_observed summary = num_trials
        /\ ChaosScenarioRunner.recovery_time_ms summary
           = ChaosScenarioRunner.avg_completion_time_ms summary).
Proof.
  intros Hn Hr. eexists _, _. split; [apply run_with_node_failure_Ok; lia|].
  cbn [ChaosScenarioRunner.failures_observed ChaosScenarioRunner.avg_completion_time_ms
       ChaosScenarioRunner.recovery_time_ms].
  set (n := Z.to_nat num_trials).
  set (tr := ChaosScenarioRunner.trial new_PredictiveSimulator random self job placements
               failure_probability).
  split.
  - intros Hp.
    assert (E : List.filter (fun i => fst (tr i)) (seq 0 n) = []).
    { apply filter_none. intros i _. unfold tr, ChaosScenarioRunner.trial. cbn [fst].
      apply Qlt_bool_false. destruct (Hr i) as [H0 _]. lra. }
    rewrite E. split; reflexivity.
  - intros Hp.
    assert (E : List.filter (fun i => fst (tr i)) (seq 0 n) = seq 0 n).
    { apply filter_all. intros i _. unfold tr, ChaosScenarioRunner.trial. cbn [fst].
      apply Qlt_bool_true. destruct (Hr i) as [_ H1]. lra. }
    rewrite E. split; [|reflexivity]. rewrite length_seq. unfold n. lia.
Qed.

Lemma X26_witness :
  exists summary self',
    ChaosScenarioRunner.run_with_node_failure Bench.trial_simulator Bench.half Bench.runner
      Fabric.job_single Bench.plan_s1 1 10 1000 = Ok (summary, self')
    /\ (1 <= 0 ->
        ChaosScenarioRunner.failures_observed summary = 0%Z
        /\ ChaosScenarioRunner.recovery_time_ms summary = 0)
    /\ (1 <= 1 ->
        ChaosScenarioRunner.failures_observed summary = 10%Z
        /\ ChaosScenarioRunner.recovery_time_ms summary
           = ChaosScenarioRunner.avg_completion_time_ms summary).
Proof.
  apply (X26_chaos_extreme_probabilities Bench.trial_simulator Bench.half Bench.runner
           Fabric.job_single Bench.plan_s1 1 10 1000).
  - reflexivity.
  - intros i. split; [apply Qle_bool_iff | apply Qlt_bool_true]; reflexivity.
Defined.

(** ** The jobs of the experiments *)

(** X27: the parser accepts every job that the experiments build, whatever
    their arguments: each becomes a job of the single stage [s1], with one
    cpu, one GB of memory, no GPU demand and no predecessor, the name, the
    deadline, the duration and the formats that the builder wrote, and an
    origin (also when its cluster is the empty string or its node is
    [None]). *)
Theorem X27_experiment_jobs_are_accepted (str_compound : json -> string)
    (int_str : string -> option Z)
    (job_id ms : Z) (cluster stage_format : string) (node : option string) :
  parse_job_spec str_compound int_str (Experiments.v1_make_job job_id ms cluster node)
  = Ok (one_stage_job ("job-" ++ str_of_Z job_id) (ms * 2) ms cluster
          (Experiments.optional_str node) [JStr "native"])
  /\ parse_job_spec str_compound int_str (Experiments.v2_make_job ms job_id cluster node)
     = Ok (one_stage_job ("ablate-" ++ str_of_Z job_id) (ms * 2) ms cluster
             (Experiments.optional_str node) [JStr "native"])
  /\ parse_job_spec str_compound int_str (Experiments.v3_mk stage_format ms cluster node)
     = Ok (one_stage_job ("overhead-" ++ stage_format) (ms * 3) ms cluster
             (Experiments.optional_str node) [JStr "native"; JStr "wasm"])
  /\ parse_job_spec str_compound int_str (Experiments.v4_job ms cluster node)
     = Ok (one_stage_job "shadow-test" ms (ms / 2) cluster
             (Experiments.optional_str node) [JStr "native"])
  /\ parse_job_spec str_compound int_str (Experiments.v5_job job_id cluster)
     = Ok (one_stage_job ("scale-" ++ str_of_Z job_id) 1500 800 cluster JNull
             [JStr "native"]).
Proof.
  repeat split; reflexivity.
Qed.

Lemma one_entry_plan (pl : gmap string PlacementDecision) (d : PlacementDecision) :
  pl !! "s1" = Some d ->
  (forall sid, is_Some (pl !! sid) -> sid = "s1") ->
  pl <> ∅
  /\ placements_of pl !! "s1"
     = Some {| stage_id := "s1"; node_name := node_name d; exec_format := exec_format d |}
  /\ size (placements_of pl) = 1%nat
  /\ shadow_plan_of pl !! "s1_backup" = Some (node_name d)
  /\ size (shadow_plan_of pl) = 1%nat.
Proof.
  intros Hd Honly.
  assert (Hpl : pl = {["s1" := d]}).
  { apply map_eq. intros sid. destruct (decide (sid = "s1")) as [->|Hne].
    - rewrite lookup_singleton_eq. exact Hd.
    - rewrite lookup_singleton_ne by congruence.
      destruct (pl !! sid) eqn:E; [|reflexivity].
      exfalso. apply Hne. apply Honly. rewrite E. eauto. }
  split; [intros He; rewrite He, lookup_empty in Hd; discriminate|].
  split; [rewrite placements_of_lookup, Hd; reflexivity|].
  split; [rewrite size_placements_of, Hpl; apply map_size_singleton|].
  split.
  - change "s1_backup" with (backup_key "s1"). rewrite shadow_plan_of_lookup, Hd.
    reflexivity.
  - rewrite size_shadow_plan_of, Hpl. apply map_size_singleton.
Qed.

Lemma one_stage_resilient_candidates (rp : ResilientPolicy.t) (nm : string)
    (deadline duration : Z) (cluster : string) (node : json) (fmts : list json)
    (stage : JobStage) (n : Node) :
  In stage (job_stages (one_stage_job nm deadline duration cluster node fmts)) ->
  (In n (ResilientPolicy._candidate_nodes rp stage)
   <-> In n (list_nodes (ResilientPolicy.state rp)) /\ fits_one_cpu_one_gb n).
Proof.
  intros [<-|[]]. unfold ResilientPolicy._candidate_nodes. rewrite filter_In.
  rewrite resilient_candidate_ok_iff. cbn [js_compute gpu_vram_gb cpu mem_gb].
  unfold fits_one_cpu_one_gb. change (inject_Z 1) with 1. split.
  - intros (Hin & Hav & _ & Hc & Hm). auto.
  - intros (Hin & Hav & Hc & Hm). split; [exact Hin|]. split; [exact Hav|].
    split; [intros Hlt; exfalso; apply (Z.lt_irrefl _ Hlt)|]. auto.
Qed.

Lemma one_stage_cvar_evaluated (cp : RiskAwareCvarPolicy.t) (nm : string)
    (deadline duration : Z) (cluster : string) (node : json) (fmts : list json)
    (stage : JobStage) (n : Node) :
  In stage (job_stages (one_stage_job nm deadline duration cluster node fmts)) ->
  (In n (evaluated cp stage)
   <-> In n (list_nodes (RiskAwareCvarPolicy.state cp)) /\ available n = true).
Proof.
  intros [<-|[]]. unfold evaluated, RiskAwareCvarPolicy._candidate_nodes.
  rewrite !filter_In. unfold RiskAwareCvarPolicy.gpu_short.
  cbn [js_compute gpu_vram_gb Z.ltb Z.compare andb negb]. tauto.
Qed.

Lemma nonempty_In {A : Type} (l : list A) : l <> [] <-> exists x, In x l.
Proof.
  destruct l as [|a l]; split.
  - intros H. contradiction.
  - intros (x & []).
  - intros _. exists a. left. reflexivity.
  - intros _. discriminate.
Qed.

Section ResilientOneStage.

Import ResilientPolicy.

Context {fl : Float64}.
Variable self : ResilientPolicy.t.
Variable job : Job.

(** The inner loop returns, or raises what the simulator raises for a
    candidate. *)
Lemma place_scan_result prev stage cands :
  unhashable_truthy (js_predecessor stage) = false ->
  forall b,
    (exists b', place_scan self job prev stage b cands = Ok b')
    \/ (exists n e, In n cands /\ choose_exec_format (sim self) stage n = Raise e
                    /\ place_scan self job prev stage b cands = Raise e).
Proof.
  intros Hh. induction cands as [|node rest IH]; intros b; [left; simpl; eauto|].
  cbn [place_scan]. unfold place_step.
  destruct (choose_exec_format (sim self) stage node) as [fmt|e] eqn:Hf; cbn [bind].
  - unfold candidate_latency_ms.
    destruct (predecessor_node_hashable _ prev Hh) as (p & Hp). rewrite Hp. cbn [bind].
    match goal with |- context [if ?c then _ else _] => destruct c end; cbn [bind];
      match goal with |- context [place_scan _ _ _ _ ?b1 rest] => destruct (IH b1)
        as [(b' & H)|(n & e & Hin & Hc & H)] end;
      try (left; eauto; fail);
      right; exists n, e; (split; [right; exact Hin|]); split; assumption.
  - right. exists node, e. split; [left; reflexivity|]. split; [exact Hf|reflexivity].
Qed.

End ResilientOneStage.

Section CvarOneStage.

Import RiskAwareCvarPolicy.

Variable g : Q -> Q -> nat -> Q.
Variable self : RiskAwareCvarPolicy.t.
Variable job : Job.

(** With a level in range the inner loop returns, or raises what the
    simulator raises for a node that it evaluates. *)
Lemma cvar_place_scan_result pl stage cands :
  0 <= alpha self -> alpha self <= 1 ->
  forall b k,
    (exists b' k', place_scan g self job pl stage b k cands = Ok (b', k'))
    \/ (exists n e, In n (evaluated_of stage cands)
                    /\ choose_exec_format (sim self) stage n = Raise e
                    /\ place_scan g self job pl stage b k cands = Raise e).
Proof.
  intros H0 H1. induction cands as [|node rest IH]; intros b k; [left; simpl; eauto|].
  rewrite evaluated_of_cons. cbn [place_scan]. unfold place_step.
  destruct (gpu_short stage node); cbn [bind fst snd]; [apply IH|].
  destruct (choose_exec_format (sim self) stage node) as [fmt|e] eqn:Hf; cbn [bind].
  - destruct (sample_cost_in_range g self job
                (<[js_id stage := decision_for stage node fmt]> pl) k H0 H1) as (c & Hc).
    rewrite Hc. cbn [bind fst snd].
    match goal with |- context [if ?c then _ else _] => destruct c end; cbn [bind fst snd];
      match goal with |- context [place_scan _ _ _ _ _ ?b1 ?k1 rest] => destruct (IH b1 k1)
        as [(b' & k' & H)|(n & e & Hin & Hce & H)] end;
      try (left; eauto; fail);
      right; exists n, e; (split; [right; exact Hin|]); split; assumption.
  - right. exists node, e. split; [left; reflexivity|]. split; [exact Hf|reflexivity].
Qed.

End CvarOneStage.

Lemma client_selects_resilient (env : Env) (self : DTClient.t) :
  DTClient._select_policy env self (JStr "resilient")
  = Ok (Resilient (selector_resilient env (DTClient._state self) (DTClient._simulator self)
                     (DTClient._cluster_manager self))).
Proof.
  unfold DTClient._select_policy. cbn [truthy String.eqb negb lower bind].
  change (lower "resilient") with "resilient". cbn [String.eqb Ascii.eqb Bool.eqb].
  rewrite (init_default_weights (fl := arith env)). reflexivity.
Qed.

(** X28: the client's offline fallback plans a job of the experiments,
    which has the single stage [s1] with one cpu, one GB of memory and no
    GPU demand, as follows.  The nodes that count are, under the resilient
    strategy, those that are up and offer at least one cpu and one GB of
    memory, and under the CVaR strategy those that are up, whatever their
    capacity.  With no such node the call raises [RuntimeError].  With one,
    and a format of the simulator for the stage on each of them, it returns
    a plan that has the one placement of [s1], on such a node and in the
    format chosen for it, and the one shadow entry [s1_backup], naming the
    same node.  With such a node for which the simulator has no format, the
    call raises what the simulator raises for such a node. *)
Theorem X28_experiment_jobs_are_planned (env : Env) (self : DTClient.t)
    (uuid_hex : string) (k : nat) (job_spec : json) (nm : string)
    (deadline duration : Z) (cluster : string) (node : json) (fmts : list json) :
  parse_job_spec (str_compound env) (int_str env) job_spec
  = Ok (one_stage_job nm deadline duration cluster node fmts) ->
  planned_on env self uuid_hex k job_spec "resilient" (s1_stage duration fmts)
    fits_one_cpu_one_gb
  /\ planned_on env self uuid_hex k job_spec "cvar" (s1_stage duration fmts)
       (fun n => available n = true).
Proof.
  intros Hparse.
  set (job := one_stage_job nm deadline duration cluster node fmts) in *.
  set (stage := s1_stage duration fmts).
  set (rp := selector_resilient env (DTClient._state self) (DTClient._simulator self)
               (DTClient._cluster_manager self)).
  set (cp := selector_cvar env (DTClient._state self) (DTClient._simulator self)
               (DTClient._cluster_manager self)).
  pose proof (client_selects_resilient env self) as Hsr. fold rp in Hsr.
  assert (Hsc : DTClient._select_policy env self (JStr "cvar") = Ok (RiskAwareCvar cp))
    by reflexivity.
  assert (Honly : forall st, In st (job_stages job) -> st = stage).
  { intros st [<-|[]]. reflexivity. }
  assert (Hresponse : forall strategy p pl,
             DTClient._select_policy env self (JStr strategy) = Ok p ->
             DTClient.policy_place env self p job k = Ok pl ->
             forall d, pl !! "s1" = Some d ->
             (forall sid, is_Some (pl !! sid) -> sid = "s1") ->
             exists r,
               DTClient.plan env self uuid_hex k job_spec (JStr strategy) = Ok r
               /\ placements r !! "s1"
                  = Some {| stage_id := "s1"; node_name := node_name d;
                            exec_format := exec_format d |}
               /\ size (placements r) = 1%nat
               /\ shadow_plan r !! "s1_backup" = Some (node_name d)
               /\ size (shadow_plan r) = 1%nat).
  { intros strategy p pl Hsel Hpl d Hd Hone.
    destruct (one_entry_plan pl d Hd Hone) as (Hne & Hp & Hsp & Hsh & Hss).
    eexists. split.
    { unfold DTClient.plan. rewrite Hparse. cbn [bind]. rewrite Hsel. cbn [bind].
      fold job. rewrite Hpl. cbn [bind].
      rewrite bool_decide_eq_false_2 by exact Hne. reflexivity. }
    cbn [placements shadow_plan]. auto. }
  assert (Hempty : forall strategy p,
             DTClient._select_policy env self (JStr strategy) = Ok p ->
             DTClient.policy_place env self p job k = Ok ∅ ->
             DTClient.plan env self uuid_hex k job_spec (JStr strategy)
             = Raise (RuntimeError "no feasible placements found")).
  { intros strategy p Hsel Hpl. unfold DTClient.plan. rewrite Hparse. cbn [bind].
    rewrite Hsel. cbn [bind]. fold job. rewrite Hpl. reflexivity. }
  assert (Hraise : forall strategy p e,
             DTClient._select_policy env self (JStr strategy) = Ok p ->
             DTClient.policy_place env self p job k = Raise e ->
             DTClient.plan env self uuid_hex k job_spec (JStr strategy) = Raise e).
  { intros strategy p e Hsel Hpl. unfold DTClient.plan. rewrite Hparse. cbn [bind].
    rewrite Hsel. cbn [bind]. fold job. rewrite Hpl. reflexivity. }
  split.
  - (* the resilient strategy *)
    assert (Hcands : forall n,
               In n (ResilientPolicy._candidate_nodes rp stage)
               <-> In n (list_nodes (DTClient._state self)) /\ fits_one_cpu_one_gb n).
    { intros n.
      apply (one_stage_resilient_candidates rp nm deadline duration cluster node fmts).
      left. reflexivity. }
    destruct (place_scan_result (fl := arith env) rp job ∅ stage
                (ResilientPolicy._candidate_nodes rp stage) eq_refl
                ResilientPolicy.best_init)
      as [(b & Hb)|(n & e & Hin & Hc & Hscan)].
    + assert (Hex : exists pl, ResilientPolicy.place (fl := arith env) rp job = Ok pl).
      { unfold ResilientPolicy.place. cbn [job_stages job one_stage_job].
        cbn [ResilientPolicy.place_stages]. fold stage. rewrite Hb. cbn [bind].
        destruct (ResilientPolicy.best_node b); cbn [bind]; eauto. }
      pose proof (proj1 (resilient_place_returns_iff (fl := arith env) rp job) Hex)
        as [Hformats _].
      destruct Hex as [pl Hpl].
      pose proof (fun sid => resilient_place_keys (fl := arith env) rp job pl sid Hpl)
        as Hkeys.
      assert (Hone : forall sid, is_Some (pl !! sid) -> sid = "s1").
      { intros sid Hsid. apply Hkeys in Hsid. destruct Hsid as (st & Hst & <- & _).
        rewrite (Honly st Hst). reflexivity. }
      split; [|split].
      * intros Hnone. apply (Hempty "resilient" (Resilient rp) Hsr).
        cbn [DTClient.policy_place]. rewrite Hpl. f_equal.
        apply map_empty. intros sid. destruct (pl !! sid) eqn:E; [|reflexivity].
        exfalso. assert (Hsid : is_Some (pl !! sid)) by (rewrite E; eauto).
        apply Hkeys in Hsid. destruct Hsid as (st & Hst & _ & Hcn).
        rewrite (Honly st Hst) in Hcn.
        apply nonempty_In in Hcn. destruct Hcn as (n & Hn).
        apply Hcands in Hn. destruct Hn as [Hn Hfit]. apply (Hnone n Hn Hfit).
      * intros (n0 & Hn0 & Hfit0) _.
        assert (Hs : is_Some (pl !! "s1")).
        { apply Hkeys. exists stage. split; [left; reflexivity|]. split; [reflexivity|].
          apply nonempty_In. exists n0. apply Hcands. split; assumption. }
        destruct Hs as [d Hd].
        destruct (resilient_place_first (fl := arith env) rp job pl "s1" d Hpl Hd)
          as (before & stg & after & pl0 & prev0 & n & fmt & Hst & _ & _ & _ & _
              & Hfmt & Hdn & Hfirst).
        assert (Hstg : stg = stage).
        { apply Honly. rewrite Hst. apply in_or_app. right. left. reflexivity. }
        subst stg.
        apply first_of_greatest_greatest in Hfirst. destruct Hfirst as [Hn _].
        apply Hcands in Hn. destruct Hn as [Hn Hfit].
        destruct (Hresponse "resilient" (Resilient rp) pl Hsr Hpl d Hd Hone)
          as (r & Hr & Hp & Hsp & Hsh & Hss).
        exists r, {| stage_id := "s1"; node_name := node_name d;
                     exec_format := exec_format d |}, n.
        split; [exact Hr|]. split; [exact Hp|]. split; [exact Hsp|].
        split; [exact Hsh|]. split; [exact Hss|]. split; [exact Hn|].
        split; [exact Hfit|]. subst d. cbn [node_name exec_format].
        split; [reflexivity|exact Hfmt].
      * intros (n & Hn & Hfit & Hno). exfalso.
        destruct (Hformats stage n) as (fmt & Hfmt); [left; reflexivity| |].
        { apply Hcands. split; assumption. }
        apply (Hno fmt Hfmt).
    + assert (Hpl : ResilientPolicy.place (fl := arith env) rp job = Raise e).
      { unfold ResilientPolicy.place. cbn [job_stages job one_stage_job].
        cbn [ResilientPolicy.place_stages]. fold stage. rewrite Hscan. reflexivity. }
      apply Hcands in Hin. destruct Hin as [Hn Hfit].
      split; [|split].
      * intros Hnone. exfalso. apply (Hnone n Hn Hfit).
      * intros _ Hall. exfalso. destruct (Hall n Hn Hfit) as (fmt & Hfmt).
        unfold rp, selector_resilient in Hc. cbn [ResilientPolicy.sim] in Hc.
        fold stage in Hfmt. rewrite Hfmt in Hc. discriminate.
      * intros _. exists n, e. split; [exact Hn|]. split; [exact Hfit|].
        split; [exact Hc|]. apply (Hraise "resilient" (Resilient rp) e Hsr). exact Hpl.
  - (* the CVaR strategy *)
    assert (Hcands : forall n,
               In n (evaluated cp stage)
               <-> In n (list_nodes (DTClient._state self)) /\ available n = true).
    { intros n.
      apply (one_stage_cvar_evaluated cp nm deadline duration cluster node fmts).
      left. reflexivity. }
    assert (H0 : 0 <= RiskAwareCvarPolicy.alpha cp) by (apply Qle_bool_iff; reflexivity).
    assert (H1 : RiskAwareCvarPolicy.alpha cp <= 1) by (apply Qle_bool_iff; reflexivity).
    destruct (cvar_place_scan_result (lognormal env) cp job ∅ stage
                (RiskAwareCvarPolicy._candidate_nodes cp stage) H0 H1
                RiskAwareCvarPolicy.best_init k)
      as [(b & k1 & Hb)|(n & e & Hin & Hc & Hscan)].
    + assert (Hex : exists pl k',
                 RiskAwareCvarPolicy.place (lognormal env) cp job k = Ok (pl, k')).
      { unfold RiskAwareCvarPolicy.place. cbn [job_stages job one_stage_job].
        cbn [RiskAwareCvarPolicy.place_stages]. fold stage. rewrite Hb. cbn [bind fst snd].
        destruct (RiskAwareCvarPolicy.best_dec b); eauto. }
      destruct Hex as (pl & k' & Hpl).
      pose proof (cvar_place_stages_formats (lognormal env) cp job _ _ _ _ _ Hpl)
        as Hformats.
      pose proof (fun sid => cvar_place_keys (lognormal env) cp job k pl k' sid Hpl)
        as Hkeys.
      assert (Hcpl : DTClient.policy_place env self (RiskAwareCvar cp) job k = Ok pl).
      { cbn [DTClient.policy_place]. rewrite Hpl. reflexivity. }
      assert (Hone : forall sid, is_Some (pl !! sid) -> sid = "s1").
      { intros sid Hsid. apply Hkeys in Hsid. destruct Hsid as (st & Hst & <- & _).
        rewrite (Honly st Hst). reflexivity. }
      split; [|split].
      * intros Hnone. apply (Hempty "cvar" (RiskAwareCvar cp) Hsc).
        rewrite Hcpl. f_equal.
        apply map_empty. intros sid. destruct (pl !! sid) eqn:E; [|reflexivity].
        exfalso. assert (Hsid : is_Some (pl !! sid)) by (rewrite E; eauto).
        apply Hkeys in Hsid. destruct Hsid as (st & Hst & _ & Hcn).
        rewrite (Honly st Hst) in Hcn.
        apply nonempty_In in Hcn. destruct Hcn as (n & Hn).
        apply Hcands in Hn. destruct Hn as [Hn Hup]. apply (Hnone n Hn Hup).
      * intros (n0 & Hn0 & Hup0) _.
        assert (Hs : is_Some (pl !! "s1")).
        { apply Hkeys. exists stage. split; [left; reflexivity|]. split; [reflexivity|].
          apply nonempty_In. exists n0. apply Hcands. split; assumption. }
        destruct Hs as [d Hd].
        destruct (cvar_place_least (lognormal env) cp job k pl k' "s1" d Hpl Hd)
          as (before & stg & after & pl0 & k0 & i & n & fmt & a & Hst & _ & _ & _
              & Hi & Hfmt & Hdn & _).
        assert (Hstg : stg = stage).
        { apply Honly. rewrite Hst. apply in_or_app. right. left. reflexivity. }
        subst stg.
        apply nth_error_In in Hi. apply Hcands in Hi. destruct Hi as [Hn Hup].
        destruct (Hresponse "cvar" (RiskAwareCvar cp) pl Hsc Hcpl d Hd Hone)
          as (r & Hr & Hp & Hsp & Hsh & Hss).
        exists r, {| stage_id := "s1"; node_name := node_name d;
                     exec_format := exec_format d |}, n.
        split; [exact Hr|]. split; [exact Hp|]. split; [exact Hsp|].
        split; [exact Hsh|]. split; [exact Hss|]. split; [exact Hn|].
        split; [exact Hup|]. subst d. cbn [node_name exec_format].
        split; [reflexivity|exact Hfmt].
      * intros (n & Hn & Hup & Hno). exfalso.
        destruct (Hformats stage n) as (fmt & Hfmt); [left; reflexivity| |].
        { apply Hcands. split; assumption. }
        apply (Hno fmt Hfmt).
    + assert (Hpl : DTClient.policy_place env self (RiskAwareCvar cp) job k = Raise e).
      { cbn [DTClient.policy_place]. unfold RiskAwareCvarPolicy.place.
        cbn [job_stages job one_stage_job].
        cbn [RiskAwareCvarPolicy.place_stages]. fold stage. rewrite Hscan. reflexivity. }
      apply Hcands in Hin. destruct Hin as [Hn Hup].
      split; [|split].
      * intros Hnone. exfalso. apply (Hnone n Hn Hup).
      * intros _ Hall. exfalso. destruct (Hall n Hn Hup) as (fmt & Hfmt).
        unfold cp, selector_cvar in Hc. cbn [RiskAwareCvarPolicy.sim] in Hc.
        fold stage in Hfmt.
        change (RiskAwareCvarPolicy.sim
                  (RiskAwareCvarPolicy.__init__ (new_ResiliencyScorer env)
                     (DTClient._state self) (DTClient._simulator self) (95 # 100) (6 # 10)
                     (DTClient._cluster_manager self)))
          with (DTClient._simulator self) in Hc.
        rewrite Hfmt in Hc. discriminate.
      * intros _. exists n, e. split; [exact Hn|]. split; [exact Hup|].
        split; [exact Hc|]. apply (Hraise "cvar" (RiskAwareCvar cp) e Hsc). exact Hpl.
Qed.

(** On the fabric, whose simulator has a format for every node, the job
    is planned; with the simulator that has no format on [n2], a node that
    counts for both strategies, the call raises [NoFeasibleFormat]. *)
Lemma X28_witness :
  planned_on Fabric.env Fabric.client "0a1b2c3d" 0
    (Experiments.v1_make_job 0 1000 "dc-core" None) "resilient"
    (s1_stage 1000 [JStr "native"]) fits_one_cpu_one_gb
  /\ planned_on Fabric.env Bench.client_no_format "0a1b2c3d" 0
       (Experiments.v1_make_job 0 1000 "dc-core" None) "cvar"
       (s1_stage 1000 [JStr "native"]) (fun n => available n = true).
Proof.
  split.
  - apply (X28_experiment_jobs_are_planned Fabric.env Fabric.client "0a1b2c3d" 0
             (Experiments.v1_make_job 0 1000 "dc-core" None) "job-0" 2000 1000 "dc-core"
             JNull [JStr "native"]).
    reflexivity.
  - apply (X28_experiment_jobs_are_planned Fabric.env Bench.client_no_format "0a1b2c3d" 0
             (Experiments.v1_make_job 0 1000 "dc-core" None) "job-0" 2000 1000 "dc-core"
             JNull [JStr "native"]).
    reflexivity.
Defined.

Example no_format_raises :
  ResilientPolicy.place (fl := Fabric.exact) Bench.resilient_no_format Fabric.job_single
  = Raise NoFeasibleFormat
  /\ RiskAwareCvarPolicy.place Fabric.draws Bench.cvar_no_format Fabric.job_single 0
     = Raise NoFeasibleFormat
  /\ DTClient.plan Fabric.env Bench.client_no_format "0a1b2c3d" 0
       (Experiments.v1_make_job 0 1000 "dc-core" None) (JStr "cvar")
     = Raise NoFeasibleFormat.
Proof.
  repeat split; vm_compute; reflexivity.
Qed.

